(** * The action primitives of the reconnect daemon ([actions.c])

    A shallow embedding of [influx], [run_command] and [log_to_file], the
    three primitives of [actions.c] that talk to the operating system, of
    [restart_system] and [restart_service], which talk to the system bus,
    and of the earlier [run_command]; with the properties of the
    specification that concern them, and further properties of the code.

    Conventions of the embedding.
    - C integers ([int], [ssize_t], [pid_t], file descriptors, [errno]) are
      [Z]; [uint32_t] values are [Z] reduced modulo [2^32] where the source
      stores them.
    - A C string is the [string] of its bytes before the terminating NUL.
    - The [float] budget of [influx] is an exact rational ([Q]): the source
      subtracts whole seconds from it, compares it with zero and passes it,
      times 1000, to [epoll_wait].  A statement on the value passed is made
      for budgets on which the arithmetic of the source is exact as well.
    - A read through a null pointer and a store past the end of an array
      end the run with the outcome [Faults].
    - The operating system is an oracle: a function that loops takes the
      answers of its system calls as a script, consumed in call order, and
      returns [None] when the script ends before the function does (the
      function is then still blocked or looping).  Every call issued is
      recorded, oldest first. *)

From Stdlib Require Import ZArith QArith String Ascii List Lia DecimalString.
From stdpp Require Import gmap strings list.

Open Scope Z_scope.

(** ** C strings and formatted output *)

Module CStr.

Definition NUL : ascii := "000"%char.
Definition LF : string := String "010" EmptyString.
Definition CRLF : string := String "013" (String "010" EmptyString).

Definition strlen (s : string) : Z := Z.of_nat (String.length s).

(** [snprintf(buf, size, fmt, ...)] stores at most [size - 1] bytes of the
    formatted text, then the terminator; [formatted] is the whole text the
    format expands to. *)
Definition snprintf (size : Z) (formatted : string) : string :=
  substring 0 (Z.to_nat (size - 1)) formatted.

(** The conversions [%d] and [%zd]. *)
Definition fmt_d (z : Z) : string := NilZero.string_of_int (Z.to_int z).

(** [strncmp(a, b, n) == 0]: the first [n] bytes agree, or the strings
    agree up to a common terminator met earlier. *)
Fixpoint strncmp_eq (n : nat) (a b : string) : bool :=
  match n with
  | O => true
  | S n' =>
      match a, b with
      | EmptyString, EmptyString => true
      | EmptyString, String y _ => Ascii.eqb y NUL
      | String x _, EmptyString => Ascii.eqb x NUL
      | String x a', String y b' =>
          if Ascii.eqb x y
          then (if Ascii.eqb x NUL then true else strncmp_eq n' a' b')
          else false
      end
  end.

End CStr.

Import CStr.

(** ** Constants of the C library (Linux values) *)

Definition EAGAIN : Z := 11.
Definition EWOULDBLOCK : Z := 11.
Definition EINPROGRESS : Z := 115.
Definition AF_INET : Z := 2.
Definition AF_INET6 : Z := 10.
Definition EPOLLIN : Z := 1.
Definition EPOLLOUT : Z := 4.
Definition EPOLLET : Z := Z.shiftl 1 31.
Definition SIGTERM : Z := 15.
Definition WNOHANG : Z := 1.
Definition WUNTRACED : Z := 2.

(** The logging calls of [printing.h], by level; a log entry keeps the format
    string of the call without its final newline. *)
Inductive log_level := LDebug | LError.

(** ** Control flow

    A statement sequence either falls through to the next statement, with
    the value [a] it computed, or leaves the function.  [andthen] is the
    sequencing of two such pieces of code over the rest of the script. *)
Inductive flow (St R A : Type) :=
| Next (a : A) (s : St)
| Return (v : R) (s : St).
Arguments Next {St R A} a s.
Arguments Return {St R A} v s.

Definition andthen {St R E A B : Type}
    (r : option (flow St R A * list E))
    (k : A -> St -> list E -> option (flow St R B * list E))
  : option (flow St R B * list E) :=
  match r with
  | Some (Next a s, script) => k a s script
  | Some (Return v s, script) => Some (Return v s, script)
  | None => None
  end.

Definition state_of {St R A : Type} (f : flow St R A) : St :=
  match f with Next _ s => s | Return _ s => s end.

(** An entry of the account database that [getpwnam] searches. *)
Record passwd := { pw_uid : Z; pw_gid : Z }.

(** ** [influx]: one metrics line over the persistent connection *)

Module Influx.

(** The fields of [action_influx_t] that [influx] uses. *)
Record action_influx_t := {
  host : string;
  port : Z;
  endpoint : string;
  authorization : string;
  timeout : Q;
  conn_socket : Z;
  conn_epoll_write_fd : Z;
  conn_epoll_read_fd : Z
}.

(** What the system answers to a call of [influx]. *)
Inductive sys_result :=
| RToSockaddr (s : Z) (family : Z)
| RResolve (ok : bool) (family : Z)
| RSocket (fd : Z)
| REpollCreate (fd : Z)
| RConnect (s : Z) (errno : Z)
| REpollWait (num_ready : Z) (elapsed : Z)
    (* [elapsed]: the seconds [time] advances by while the call blocks *)
| RWrite (written : Z) (errno : Z)
| RReadData (data : string)
| RReadFail (errno : Z).

(** The calls [influx] issues. *)
Inductive call :=
| c_log (lvl : log_level) (fmt : string)
| c_to_sockaddr (h : string)
| c_resolve_hostname (h : string)
| c_socket (family : Z)
| c_epoll_create
| c_epoll_ctl (epfd fd events : Z)
| c_connect (fd family port : Z)
| c_epoll_wait (epfd timeout_ms : Z)
| c_write (fd : Z) (buf : string)
| c_read (fd : Z) (count : Z)
| c_close (fd : Z).

(** The function's state: [*action], the local [timeout_left], the clock
    that [time] reads, and the calls issued so far. *)
Record istate := {
  act : action_influx_t;
  timeout_left : Q;
  clock : Z;
  calls : list call
}.

Definition emit (c : call) (s : istate) : istate :=
  {| act := act s; timeout_left := timeout_left s; clock := clock s;
     calls := calls s ++ [c] |}.

Definition set_act (a : action_influx_t) (s : istate) : istate :=
  {| act := a; timeout_left := timeout_left s; clock := clock s;
     calls := calls s |}.

Definition set_timeout_left (q : Q) (s : istate) : istate :=
  {| act := act s; timeout_left := q; clock := clock s; calls := calls s |}.

Definition advance (elapsed : Z) (s : istate) : istate :=
  {| act := act s; timeout_left := timeout_left s;
     clock := clock s + elapsed; calls := calls s |}.

Definition set_conn_socket (fd : Z) (a : action_influx_t) :=
  {| host := host a; port := port a; endpoint := endpoint a;
     authorization := authorization a; timeout := timeout a;
     conn_socket := fd;
     conn_epoll_write_fd := conn_epoll_write_fd a;
     conn_epoll_read_fd := conn_epoll_read_fd a |}.

Definition set_epoll_write_fd (fd : Z) (a : action_influx_t) :=
  {| host := host a; port := port a; endpoint := endpoint a;
     authorization := authorization a; timeout := timeout a;
     conn_socket := conn_socket a;
     conn_epoll_write_fd := fd;
     conn_epoll_read_fd := conn_epoll_read_fd a |}.

Definition set_epoll_read_fd (fd : Z) (a : action_influx_t) :=
  {| host := host a; port := port a; endpoint := endpoint a;
     authorization := authorization a; timeout := timeout a;
     conn_socket := conn_socket a;
     conn_epoll_write_fd := conn_epoll_write_fd a;
     conn_epoll_read_fd := fd |}.

(** Modelled from the spec: the macro [CLOSE] of [actions.h], which is not
    among the sources.  The specification says of every use that the
    connection is closed and the endpoint's connection field cleared, so
    that the next call connects afresh: the socket is closed and
    [conn_socket] set to a value that the test [conn_socket <= 0] at the
    top of [influx] takes for "no connection". *)
Definition CLOSE (s : istate) : istate :=
  set_act (set_conn_socket (-1) (act s))
          (emit (c_close (conn_socket (act s))) s).

(** How a call ends for the daemon. *)
Inductive outcome :=
| Returns (v : Z)
    (* [influx] returns [v] to its caller *)
| Faults.
    (* a byte is stored outside an array: the behaviour is undefined *)

Definition iflow (A : Type) : Type := flow istate outcome A.

(** [timeout_left * 1e3] converted to the [int] argument of [epoll_wait]:
    the product, cut towards zero.  The source has the budget in [float]
    and the product in [double]; on whole seconds below [2^20] in magnitude
    neither rounds and the product fits an [int]. *)
Definition ms_of (q : Q) : Z :=
  Z.quot (Qnum q * 1000) (Z.pos (Qden q)).

Definition would_block (ret errno : Z) : bool :=
  (ret =? -1) && ((errno =? EWOULDBLOCK) || (errno =? EAGAIN)).

(** Lines 269-352: the connection is set up when there is none. *)
Definition connect_phase (s : istate) (script : list sys_result)
  : option (iflow unit * list sys_result) :=
  let action := act s in
  match script with
  | RToSockaddr s_ret fam0 :: script =>
      let s := emit (c_to_sockaddr (host action)) s in
      let resolved :=
        if s_ret =? 0 then
          match script with
          | RResolve ok fam :: script =>
              let s := emit (c_resolve_hostname (host action)) s in
              if negb ok
              then Some (Return (Returns 0)
                           (emit (c_log LError "Unable to get an IP for: %s") s),
                         script)
              else Some (Next fam s, script)
          | _ => None
          end
        else Some (Next fam0 s, script) in
      andthen resolved (fun family s script =>
      match script with
      | RSocket fd :: script =>
          let s := emit (c_socket family) s in
          let s := set_act (set_conn_socket fd (act s)) s in
          if fd <? 0
          then Some (Return (Returns 0)
                       (emit (c_log LDebug "Unable to create socket.") s), script)
          else
            match script with
            | REpollCreate wfd :: REpollCreate rfd :: RConnect c_ret errno :: script =>
                let s := set_act (set_epoll_write_fd wfd (act s)) (emit c_epoll_create s) in
                let s := set_act (set_epoll_read_fd rfd (act s)) (emit c_epoll_create s) in
                let s := emit (c_epoll_ctl wfd fd EPOLLOUT) s in
                let s := emit (c_epoll_ctl rfd fd (Z.lor EPOLLIN EPOLLET)) s in
                let t1 := clock s in
                let s := emit (c_connect fd family (port action)) s in
                if c_ret =? 0 then
                  Some (Next tt (emit (c_log LDebug "[Influx]: Connected to %s:%d") s), script)
                else if (c_ret =? -1) && (errno =? EINPROGRESS) then
                  let s := emit (c_log LDebug "[Influx]: Not immediately connected to %s:%d") s in
                  match script with
                  | REpollWait num_ready elapsed :: script =>
                      let s := advance elapsed (emit (c_epoll_wait wfd 10000) s) in
                      if num_ready <=? 0 then
                        Some (Return (Returns 0)
                                (CLOSE (emit (c_log LError "[Influx]: Unable to connect to %s:%d") s)),
                              script)
                      else
                        let t2 := clock s in
                        let s := set_timeout_left (timeout_left s - inject_Z (t2 - t1))%Q s in
                        Some (Next tt
                                (emit (c_log LDebug "[Influx]: Succesfully connected to %s:%d") s),
                              script)
                  | _ => None
                  end
                else
                  Some (Return (Returns 0)
                          (CLOSE (emit (c_log LError "[Influx]: Unable to connect to %s: %s") s)),
                        script)
            | _ => None
            end
      | _ => None
      end)
  | _ => None
  end.

(** Lines 368-400: the header is written, waiting for the socket to
    become writable whenever the write would block. *)
Fixpoint send_header (header : string) (s : istate) (script : list sys_result)
  : option (iflow unit * list sys_result) :=
  match script with
  | RWrite written_bytes errno :: script =>
      let s := emit (c_write (conn_socket (act s)) header) s in
      if would_block written_bytes errno then
        match script with
        | REpollWait num_ready elapsed :: script =>
            let t1 := clock s in
            let s := advance elapsed
                       (emit (c_epoll_wait (conn_epoll_write_fd (act s))
                                           (ms_of (timeout_left s))) s) in
            if num_ready <=? 0 then
              Some (Return (Returns 0)
                      (CLOSE (emit (c_log LError "[Influx]: Timeout while waiting for %s:%d.") s)),
                    script)
            else
              let t2 := clock s in
              let s := set_timeout_left (timeout_left s - inject_Z (t2 - t1))%Q s in
              if Qle_bool (timeout_left s) 0 then
                Some (Return (Returns 0)
                        (emit (c_log LError "[Influx]: Timeout for %s:%d") s), script)
              else send_header header s script
        | _ => None
        end
      else if written_bytes =? strlen header then
        Some (Next tt s, script)
      else
        Some (Return (Returns 0)
                (CLOSE (emit (c_log LError "[Influx]: Unable to send to %s:%d %s") s)),
              script)
  | _ => None
  end.

(** Lines 402-435: the same loop for the body. *)
Fixpoint send_body (body : string) (s : istate) (script : list sys_result)
  : option (iflow unit * list sys_result) :=
  match script with
  | RWrite written_bytes errno :: script =>
      let s := emit (c_write (conn_socket (act s)) body) s in
      if would_block written_bytes errno then
        match script with
        | REpollWait num_ready elapsed :: script =>
            let t1 := clock s in
            let s := advance elapsed
                       (emit (c_epoll_wait (conn_epoll_write_fd (act s))
                                           (ms_of (timeout_left s))) s) in
            if num_ready <=? 0 then
              Some (Return (Returns 0)
                      (CLOSE (emit (c_log LError "[Influx]: Timeout while waiting for %s:%d.") s)),
                    script)
            else
              let t2 := clock s in
              let s := set_timeout_left (timeout_left s - inject_Z (t2 - t1))%Q s in
              if Qle_bool (timeout_left s) 0 then
                Some (Return (Returns 0)
                        (emit (c_log LError "[Influx]: Timeout for %s:%d") s), script)
              else send_body body s script
        | _ => None
        end
      else if written_bytes =? strlen body then
        Some (Next tt s, script)
      else
        Some (Return (Returns 0)
                (CLOSE (emit (c_log LError "[Influx]: Unable to send body to %s:%d %s") s)),
              script)
  | _ => None
  end.

(** Lines 439-468: the answer is read into the 128 bytes of [answer]; the
    loop leaves with the bytes of the last [read].  [t1] is taken before
    the wait and not used afterwards.  The terminator is stored after the
    loop, at line 470: see [exchange]. *)
Fixpoint read_answer (s : istate) (script : list sys_result)
  : option (iflow string * list sys_result) :=
  match script with
  | RReadFail errno :: script =>
      let s := emit (c_read (conn_socket (act s)) 128) s in
      if would_block (-1) errno then
        match script with
        | REpollWait num_ready elapsed :: script =>
            let t1 := clock s in
            let s := advance elapsed
                       (emit (c_epoll_wait (conn_epoll_read_fd (act s))
                                           (ms_of (timeout_left s))) s) in
            if num_ready <=? 0 then
              Some (Return (Returns 0)
                      (CLOSE (emit (c_log LError
                         "[Influx]: Timeout for an answer while waiting for %s:%d.") s)),
                    script)
            else read_answer s script
        | _ => None
        end
      else
        Some (Return (Returns 0)
                (CLOSE (emit (c_log LError "[Influx]: Unable to receive answer from %s:%d %s") s)),
              script)
  | RReadData data :: script =>
      let s := emit (c_read (conn_socket (act s)) 128) s in
      let answer := substring 0 128 data in
      let read_bytes := strlen answer in
      if read_bytes >? 22 then
        Some (Next answer s, script)
      else
        Some (Return (Returns 0)
                (CLOSE (emit (c_log LError "[Influx]: Unable to receive answer from %s:%d %s") s)),
              script)
  | _ => None
  end.

(** Lines 354-359: the body buffer holds [line_len] bytes. *)
Definition request_body (actual_line : string) : string :=
  let line_len := strlen actual_line + 1 in
  snprintf line_len (actual_line +:+ LF).

(** Lines 362-366. *)
Definition request_header (action : action_influx_t) (body : string) : string :=
  snprintf 256
    ("POST " +:+ endpoint action +:+ " HTTP/1.1" +:+ CRLF +:+
     "Host: " +:+ host action +:+ ":" +:+ fmt_d (port action) +:+ CRLF +:+
     "Content-Length: " +:+ fmt_d (strlen body) +:+ CRLF +:+
     "Authorization: " +:+ authorization action +:+ CRLF +:+ CRLF).

Definition start_success : string := "HTTP/1.1 204 No Content".

(** Lines 266-352: the state in which the protocol exchange starts; a
    connection that is already there is used as it is. *)
Definition entry (action : action_influx_t) (now : Z) (script : list sys_result)
  : option (iflow unit * list sys_result) :=
  let s := {| act := action; timeout_left := timeout action; clock := now;
              calls := [c_log LDebug "[Influx]: with timeout %1.2f started"] |} in
  if conn_socket action <=? 0 then connect_phase s script
  else Some (Next tt s, script).

(** Lines 354-483: the request is sent and the answer classified.  Line
    470 stores the terminator at [answer[read_bytes]]: when [read] has
    filled all 128 bytes of [answer], that is one byte past the array. *)
Definition exchange (actual_line : string) (s : istate) (script : list sys_result)
  : option (iflow unit * list sys_result) :=
  let body := request_body actual_line in
  let header := request_header (act s) body in
  andthen (send_header header s script) (fun _ s script =>
  andthen (send_body body s script) (fun _ s script =>
  andthen (read_answer s script) (fun answer s script =>
  let read_bytes := strlen answer in
  if 128 <=? read_bytes then Some (Return Faults s, script)
  else if strncmp_eq 23 answer start_success then
    Some (Return (Returns 1) (emit (c_log LDebug "[Influx]: Success") s), script)
  else
    Some (Return (Returns 0)
            (CLOSE (emit (c_log LError
               "[Influx] Not successfull writing to influxdb. Received: %s") s)),
          script)))).

(** [influx_outcome action actual_line now script]: how the call ends, and
    the state at that point, [*action] included; [now] is the time at
    entry. *)
Definition influx_outcome (action : action_influx_t) (actual_line : string)
    (now : Z) (script : list sys_result) : option (outcome * istate) :=
  match andthen (entry action now script) (fun _ => exchange actual_line) with
  | Some (Return o s, _) => Some (o, s)
  | _ => None
  end.

(** [influx action actual_line now script = Some (v, s)]: the call returns
    [v], in state [s]. *)
Definition influx (action : action_influx_t) (actual_line : string)
    (now : Z) (script : list sys_result) : option (Z * istate) :=
  match influx_outcome action actual_line now script with
  | Some (Returns v, s) => Some (v, s)
  | _ => None
  end.

(** *** Properties of a run, as decidable predicates *)

(** The connection field is empty: the next call connects afresh. *)
Definition cleared (a : action_influx_t) : bool := conn_socket a <=? 0.

Definition is_close_of (fd : Z) (c : call) : bool :=
  match c with c_close fd' => fd' =? fd | _ => false end.

Definition closes (fd : Z) (s : istate) : bool := existsb (is_close_of fd) (calls s).

Definition is_write (c : call) : bool :=
  match c with c_write _ _ => true | _ => false end.

Definition writes_of (s : istate) : list call := List.filter is_write (calls s).

(** The clock does not run backwards while a call blocks. *)
Definition nonneg_wait (r : sys_result) : Prop :=
  match r with REpollWait _ elapsed => 0 <= elapsed | _ => True end.

(** The log entry of the returns at lines 391 and 426. *)
Definition budget_log : call := c_log LError "[Influx]: Timeout for %s:%d".

(** Attempts that would block, each answered by the socket becoming
    writable after so many seconds. *)
Definition retries (es : list Z) : list sys_result :=
  flat_map (fun e => [RWrite (-1) EAGAIN; REpollWait 1 e]) es.

(** The budget [q] stays above zero through waits of [es] seconds. *)
Fixpoint within_budget (q : Q) (es : list Z) : bool :=
  match es with
  | [] => true
  | e :: es =>
      negb (Qle_bool (q - inject_Z e) 0) && within_budget (q - inject_Z e)%Q es
  end.

(** The budget left of [q] after waits of [es] seconds. *)
Definition spend (q : Q) (es : list Z) : Q :=
  fold_left (fun q e => (q - inject_Z e)%Q) es q.

(** The state after one attempt to write [buf] that would block and a
    wait of [e] seconds for the socket. *)
Definition after_retry (buf : string) (s : istate) (e : Z) : istate :=
  set_timeout_left (timeout_left s - inject_Z e)%Q
    (advance e
       (emit (c_epoll_wait (conn_epoll_write_fd (act s)) (ms_of (timeout_left s)))
          (emit (c_write (conn_socket (act s)) buf) s))).

Definition after_retries (buf : string) (es : list Z) (s : istate) : istate :=
  fold_left (after_retry buf) es s.

(** An endpoint with a connection left open by an earlier call, and a
    budget of one second. *)
Definition sample_endpoint : action_influx_t :=
  {| host := "db.local"; port := 8086; endpoint := "/write?db=srd";
     authorization := "Token t0k3n"; timeout := 1;
     conn_socket := 5; conn_epoll_write_fd := 6; conn_epoll_read_fd := 7 |}.

Definition sample_line : string := "cpu load=1".

(** The state in which the exchange starts on [sample_endpoint]. *)
Definition sample_start : istate :=
  {| act := sample_endpoint; timeout_left := timeout sample_endpoint;
     clock := 100;
     calls := [c_log LDebug "[Influx]: with timeout %1.2f started"] |}.

Definition sample_header : string :=
  "POST /write?db=srd HTTP/1.1" +:+ CRLF +:+
  "Host: db.local:8086" +:+ CRLF +:+
  "Content-Length: 10" +:+ CRLF +:+
  "Authorization: Token t0k3n" +:+ CRLF +:+ CRLF.

End Influx.

(** ** [run_command]: a shell command under a deadline *)

Module RunCommand.

Record action_cmd_t := { command : string; user : option string }.

Record timespec := { tv_sec : Z; tv_nsec : Z }.

(** What the system answers to a call of [run_command]. *)
Inductive sys_result :=
| RPipe (ret : Z) (rfd wfd : Z)
| RFork (pid : Z)
| RSetuid (ret : Z)
| RExecl (ok : bool)          (* [false]: [execl] came back *)
| RClock (now : timespec)
| RWaitpid (res : Z) (wstatus : Z)
    (* [wstatus]: how the child ended; the source passes [NULL] for it *)
| RRead (bytes_read : Z).

(** The calls [run_command] issues. *)
Inductive call :=
| c_log (lvl : log_level) (fmt : string)
| c_pipe
| c_fork
| c_dup2 (oldfd newfd : Z)
| c_getpwnam (name : string)
| c_setuid (uid : Z)
| c_execl (path : string) (argv : list string)
| c_close (fd : Z)
| c_clock_gettime
| c_waitpid (pid options : Z)
| c_usleep (usec : Z)
| c_kill (pid sig : Z)
| c_read (fd count : Z).

(** How the call ends for the process that runs it. *)
Inductive outcome :=
| Returns (v : Z)
    (* [run_command] returns [v] to its caller *)
| Execs (uid : Z) (path : string) (argv : list string)
    (* the process image is replaced by [path], run with user id [uid] *)
| Faults.
    (* the process reads through a null pointer and is killed *)

(** The process: its effective user id and the calls issued so far. *)
Record pstate := { euid : Z; calls : list call }.

Definition emit (c : call) (s : pstate) : pstate :=
  {| euid := euid s; calls := calls s ++ [c] |}.

Definition set_euid (uid : Z) (s : pstate) : pstate :=
  {| euid := uid; calls := calls s |}.

Definition pflow (A : Type) : Type := flow pstate outcome A.

Definition to_uint32 (z : Z) : Z := z mod 2 ^ 32.

(** [const uint32_t delta_ms = 1e5;] *)
Definition delta_ms : Z := to_uint32 100000.

(** [const size_t buf_size = 32;] *)
Definition buf_size : Z := 32.

(** Lines 148-166, the child.  [getpwnam] returns a null pointer for a
    name that is not in the account database, and line 158 reads
    [a->pw_uid] through it without a test: the process faults there. *)
Definition child (db : gmap string passwd) (cmd : action_cmd_t)
    (actual_command : string) (wfd : Z) (s : pstate) (script : list sys_result)
  : option (pflow unit * list sys_result) :=
  let s := emit (c_dup2 wfd 1) s in
  let switched : option (pflow unit * list sys_result) :=
    match user cmd with
    | Some name =>
        let s := emit (c_getpwnam name) s in
        match db !! name with
        | None => Some (Return Faults s, script)
        | Some a =>
            let uid := pw_uid a in
            match script with
            | RSetuid ret :: script =>
                let s := emit (c_setuid uid) s in
                Some (Next tt (if ret =? 0 then set_euid uid s else s), script)
            | _ => None
            end
        end
    | None => Some (Next tt s, script)
    end in
  andthen switched (fun _ s script =>
  match script with
  | RExecl ok :: script =>
      let argv := ["sh"; "-c"; actual_command]%string in
      let s := emit (c_execl "/bin/sh" argv) s in
      if ok then Some (Return (Execs (euid s) "/bin/sh" argv) s, script)
      else Some (Return (Returns 0) (emit (c_log LError "execl failed.") s), script)
  | _ => None
  end).

Section Parent.

(** [calculate_difference_ms] of [util.c] is not among the sources; the
    parent is modelled for any such function. *)
Variable calculate_difference_ms : timespec -> timespec -> Z.

(** Lines 183-202: the child's state is polled until it changes or the
    deadline passes. *)
Fixpoint wait_child (pid timeout_ms : Z) (start : timespec)
    (s : pstate) (script : list sys_result)
  : option (pflow Z * list sys_result) :=
  match script with
  | RWaitpid res _ :: script =>
      let s := emit (c_waitpid pid WNOHANG) s in
      if res =? 0 then
        if res <? 0 then
          Some (Return (Returns 0)
                  (emit (c_log LError "Unable to wait for pid %d: %s") s), script)
        else
          match script with
          | RClock now :: script =>
              let s := emit c_clock_gettime (emit (c_usleep delta_ms) s) in
              let diff_ms := to_uint32 (calculate_difference_ms start now) in
              if diff_ms >=? timeout_ms then
                let s := emit (c_log LError
                           "Command %s took too long. Killing it and continuing.") s in
                let s := emit (c_kill pid SIGTERM) s in
                match script with
                | RWaitpid _ _ :: script =>
                    Some (Return (Returns 0) (emit (c_waitpid pid WUNTRACED) s), script)
                | _ => None
                end
              else wait_child pid timeout_ms start s script
          | _ => None
          end
      else Some (Next res s, script)
  | _ => None
  end.

(** Lines 206-210: the pipe is read until [read] returns no more bytes. *)
Fixpoint drain (rfd : Z) (s : pstate) (script : list sys_result)
  : option (pflow unit * list sys_result) :=
  match script with
  | RRead bytes_read :: script =>
      let s := emit (c_read rfd (buf_size - 1)) s in
      if bytes_read >? 0 then drain rfd (emit (c_log LDebug "%s") s) script
      else Some (Next tt s, script)
  | _ => None
  end.

(** Lines 167-216, the parent. *)
Definition parent (pid timeout_ms rfd wfd : Z) (s : pstate) (script : list sys_result)
  : option (pflow unit * list sys_result) :=
  let s := emit (c_close wfd) s in
  match script with
  | RClock start :: script =>
      let s := emit c_clock_gettime s in
      andthen (wait_child pid timeout_ms start s script) (fun res s script =>
      let s := emit (c_log LDebug "Command output: ") s in
      andthen (drain rfd s script) (fun _ s script =>
      let s := emit (c_log LDebug "") s in
      let s := emit (c_close rfd) s in
      Some (Return (Returns (if res =? pid then 1 else 0)) s, script)))
  | _ => None
  end.

(** [run_command db cmd timeout_ms actual_command uid script]: how the
    call ends for a process of user id [uid], and the calls it issued. *)
Definition run_command (db : gmap string passwd) (cmd : action_cmd_t)
    (timeout_ms : Z) (actual_command : string) (uid : Z)
    (script : list sys_result) : option (outcome * pstate) :=
  let s := {| euid := uid; calls := [] |} in
  let run : option (pflow unit * list sys_result) :=
    match script with
    | RPipe ret rfd wfd :: script =>
        let s := emit c_pipe s in
        if negb (ret =? 0) then
          Some (Return (Returns 0)
                  (emit (c_log LError "Unable to create pipe to child") s), script)
        else
          match script with
          | RFork pid :: script =>
              let s := emit c_fork s in
              if pid <? 0 then
                Some (Return (Returns 0) (emit (c_log LError "Unable to fork. %s") s), script)
              else if pid =? 0 then
                child db cmd actual_command wfd s script
              else
                parent pid timeout_ms rfd wfd s script
          | _ => None
          end
    | _ => None
    end in
  match run with
  | Some (Return o s, _) => Some (o, s)
  | _ => None
  end.

End Parent.

(** Modelled from the spec: [calculate_difference_ms] of [util.c], which is
    not among the sources; the specification says that it computes the
    elapsed milliseconds between two time samples. *)
Definition calculate_difference_ms_spec (start now : timespec) : Z :=
  (tv_sec now - tv_sec start) * 1000 + (tv_nsec now - tv_nsec start) / 1000000.

(** *** Properties of a run, as decidable predicates *)

Definition is_read (c : call) : bool :=
  match c with c_read _ _ => true | _ => false end.

Definition is_poll (c : call) : bool :=
  match c with c_waitpid _ options => options =? WNOHANG | _ => false end.

Definition is_execl (c : call) : bool :=
  match c with c_execl _ _ => true | _ => false end.

(** The pipe is read while the child is being polled: some [read] is
    issued before some later poll of the child's state. *)
Fixpoint reads_while_polling (cs : list call) : bool :=
  match cs with
  | [] => false
  | c :: cs => (is_read c && existsb is_poll cs) || reads_while_polling cs
  end.

(** [k] polls that find the child running, each followed by a clock
    sample. *)
Definition pending (polls : list (Z * timespec)) : list sys_result :=
  flat_map (fun p => [RWaitpid 0 (fst p); RClock (snd p)]) polls.

(** Reads that deliver so many bytes each. *)
Definition output (chunks : list Z) : list sys_result :=
  map RRead chunks.

(** A poll whose clock sample is short of the deadline. *)
Definition in_time (calc : timespec -> timespec -> Z) (start : timespec)
    (timeout_ms : Z) (p : Z * timespec) : Prop :=
  to_uint32 (calc start (snd p)) < timeout_ms.

Definition is_kill (c : call) : bool :=
  match c with c_kill _ _ => true | _ => false end.

(** The calls of [n] rounds of the polling loop that find the child
    running and the deadline ahead. *)
Fixpoint poll_calls (pid : Z) (n : nat) : list call :=
  match n with
  | O => []
  | S n => [c_waitpid pid WNOHANG; c_usleep delta_ms; c_clock_gettime]
           ++ poll_calls pid n
  end.

Definition add_calls (cs : list call) (s : pstate) : pstate :=
  {| euid := euid s; calls := calls s ++ cs |}.

(** The calls that read [n] chunks of output from the pipe. *)
Fixpoint read_calls (rfd : Z) (n : nat) : list call :=
  match n with
  | O => []
  | S n => [c_read rfd (buf_size - 1); c_log LDebug "%s"] ++ read_calls rfd n
  end.

(** The clock sample [ms] milliseconds after the epoch. *)
Definition at_ms (ms : Z) : timespec :=
  {| tv_sec := ms / 1000; tv_nsec := (ms mod 1000) * 1000000 |}.

(** An account database with one service account, and a command to be run
    as a user that the database does not know. *)
Definition accounts : gmap string passwd :=
  {[ "daemon"%string := {| pw_uid := 2; pw_gid := 2 |} ]}.

Definition cmd_as (name : string) : action_cmd_t :=
  {| command := "systemctl restart wg"; user := Some name |}.

End RunCommand.

(** ** [log_to_file]: one line appended to a log file *)

Module LogToFile.

Record action_log_t := {
  path : string;
  header : option string;
  username : option string
}.

(** A file: its bytes and its owner, as user and group id. *)
Record file := { contents : string; owner : Z * Z }.

(** What the system answers during one call: whether [fopen] yields a
    stream, what [fclose] returns, how many of the buffered bytes reach the
    file when [fclose] fails, and what [chown] returns. *)
Record os_answers := {
  fopen_ok : bool;
  fclose_ret : Z;
  flushed : nat;
  chown_ret : Z
}.

Inductive call :=
| c_log (lvl : log_level) (fmt : string)
| c_access (p : string)
| c_fopen (p : string) (mode : string)
| c_fputs (text : string)
| c_fclose
| c_getpwnam (name : string)
| c_chown (p : string) (uid gid : Z).

Inductive outcome :=
| Returns (v : Z)
| Faults.

(** The file system and the calls issued so far. *)
Record lstate := { files : gmap string file; calls : list call }.

Definition emit (c : call) (s : lstate) : lstate :=
  {| files := files s; calls := calls s ++ [c] |}.

Definition set_files (fs : gmap string file) (s : lstate) : lstate :=
  {| files := fs; calls := calls s |}.

(** [fopen(path, "a")]: the file is created empty, owned by the caller,
    when it does not exist. *)
Definition create_if_absent (p : string) (me : Z * Z) (fs : gmap string file)
  : gmap string file :=
  match fs !! p with
  | Some _ => fs
  | None => <[p := {| contents := EmptyString; owner := me |}]> fs
  end.

Definition append_to (p : string) (text : string) (fs : gmap string file)
  : gmap string file :=
  alter (fun f => {| contents := contents f +:+ text; owner := owner f |}) p fs.

Definition set_owner (p : string) (o : Z * Z) (fs : gmap string file)
  : gmap string file :=
  alter (fun f => {| contents := contents f; owner := o |}) p fs.

(** [log_to_file db me os fs action_log actual_line]: how the call ends
    for a process with ids [me] on the file system [fs], and the state it
    leaves.  [access(path, F_OK)] fails exactly when the file is not
    there.  The text of the [fputs] calls is buffered by the stream and
    reaches the file when the stream is closed.  [getpwnam] returns a null
    pointer for a name that is not in the account database, and line 253
    reads [user_passwd->pw_uid] through it without a test: the process
    faults there. *)
Definition log_to_file (db : gmap string passwd) (me : Z * Z) (os : os_answers)
    (fs : gmap string file) (action_log : action_log_t) (actual_line : string)
  : outcome * lstate :=
  let s := {| files := fs; calls := [] |} in
  let s := emit (c_access (path action_log)) s in
  let is_new := match fs !! path action_log with None => true | Some _ => false end in
  let s := emit (c_fopen (path action_log) "a") s in
  if negb (fopen_ok os) then
    (Returns 0, emit (c_log LError "Unable to open file: %s (Reason: %s)") s)
  else
    let s := set_files (create_if_absent (path action_log) me (files s)) s in
    let '(s, buffered) :=
      match is_new, header action_log with
      | true, Some h => (emit (c_fputs LF) (emit (c_fputs h) s), h +:+ LF)
      | _, _ => (s, EmptyString)
      end in
    let s := emit (c_fputs LF) (emit (c_fputs actual_line) s) in
    let buffered := buffered +:+ actual_line +:+ LF in
    let s := emit c_fclose s in
    let written :=
      if fclose_ret os =? 0 then buffered else substring 0 (flushed os) buffered in
    let s := set_files (append_to (path action_log) written (files s)) s in
    let ret_code := if fclose_ret os =? 0 then 1 else 0 in
    match is_new, username action_log with
    | true, Some name =>
        let s := emit (c_getpwnam name) s in
        match db !! name with
        | None => (Faults, s)
        | Some user_passwd =>
            let r := chown_ret os in
            let s := emit (c_chown (path action_log)
                                   (pw_uid user_passwd) (pw_gid user_passwd)) s in
            let s :=
              if r =? 0
              then set_files (set_owner (path action_log)
                                (pw_uid user_passwd, pw_gid user_passwd) (files s)) s
              else s in
            let s :=
              if r <? 0 then emit (c_log LError "Unable to chown log file %s: %s") s else s in
            (Returns ret_code, s)
        end
    | _, _ => (Returns ret_code, s)
    end.

(** The bytes of the file at [p], if it exists. *)
Definition read_file (p : string) (fs : gmap string file) : option string :=
  contents <$> fs !! p.

Definition is_error_log (c : call) : bool :=
  match c with c_log LError _ => true | _ => false end.

Definition is_fputs (c : call) : bool :=
  match c with c_fputs _ => true | _ => false end.

Definition fputs_of (s : lstate) : list call := List.filter is_fputs (calls s).

(** A log target whose owner the account database does not know, the
    database, and a system on which every call succeeds. *)
Definition ghost_log : action_log_t :=
  {| path := "/var/log/srd.log"; header := Some "time,event"%string;
     username := Some "ghost"%string |}.

Definition accounts : gmap string passwd :=
  {[ "daemon"%string := {| pw_uid := 2; pw_gid := 2 |} ]}.

(** The same target, owned by an account of the database. *)
Definition daemon_log : action_log_t :=
  {| path := "/var/log/srd.log"; header := Some "time,event"%string;
     username := Some "daemon"%string |}.

Definition all_fine : os_answers :=
  {| fopen_ok := true; fclose_ret := 0; flushed := 0; chown_ret := 0 |}.

End LogToFile.

(** ** More predicates on the calls of [influx] *)

(** The calls that set a connection up. *)
Definition influx_is_setup (c : Influx.call) : bool :=
  match c with
  | Influx.c_to_sockaddr _ | Influx.c_resolve_hostname _ | Influx.c_socket _
  | Influx.c_epoll_create | Influx.c_epoll_ctl _ _ _ | Influx.c_connect _ _ _ => true
  | _ => false
  end.

Definition influx_is_close (c : Influx.call) : bool :=
  match c with Influx.c_close _ => true | _ => false end.

Definition influx_is_wait (c : Influx.call) : bool :=
  match c with Influx.c_epoll_wait _ _ => true | _ => false end.

(** The text that the format of lines 362-366 expands to, before it is cut
    to the 256 bytes of [header]. *)
Definition request_text (action : Influx.action_influx_t) (body : string) : string :=
  "POST " +:+ Influx.endpoint action +:+ " HTTP/1.1" +:+ CRLF +:+
  "Host: " +:+ Influx.host action +:+ ":" +:+ fmt_d (Influx.port action) +:+ CRLF +:+
  "Content-Length: " +:+ fmt_d (strlen body) +:+ CRLF +:+
  "Authorization: " +:+ Influx.authorization action +:+ CRLF +:+ CRLF.

(** No byte of the string is the terminator. *)
Fixpoint nul_free (s : string) : bool :=
  match s with
  | EmptyString => true
  | String c s' => negb (Ascii.eqb c NUL) && nul_free s'
  end.


(** An endpoint whose authorization token is 250 bytes long. *)
Definition long_token_endpoint : Influx.action_influx_t :=
  {| Influx.host := "db.local"; Influx.port := 8086;
     Influx.endpoint := "/write?db=srd";
     Influx.authorization :=
       "0123456789012345678901234567890123456789012345678901234567890123456789012345678901234567890123456789012345678901234567890123456789012345678901234567890123456789012345678901234567890123456789012345678901234567890123456789012345678901234567890123456789";
     Influx.timeout := 1; Influx.conn_socket := 5;
     Influx.conn_epoll_write_fd := 6; Influx.conn_epoll_read_fd := 7 |}.

(** ** More predicates on the calls of [run_command] *)

(** The log entry of line 185. *)
Definition is_wait_error_log (c : RunCommand.call) : bool :=
  match c with
  | RunCommand.c_log LError fmt => String.eqb fmt "Unable to wait for pid %d: %s"
  | _ => false
  end.

(** The call that closes descriptor [fd]. *)
Definition closes_fd (fd : Z) (c : RunCommand.call) : bool :=
  match c with
  | RunCommand.c_close fd' => fd' =? fd
  | _ => false
  end.

(** ** More predicates on the calls of [log_to_file] *)

(** The calls that look the owner up and apply it. *)
Definition is_owner_call (c : LogToFile.call) : bool :=
  match c with
  | LogToFile.c_getpwnam _ | LogToFile.c_chown _ _ _ => true
  | _ => false
  end.

(** A system on which [fclose] fails after three bytes have reached the
    file, and one on which [chown] fails. *)
Definition close_fails : LogToFile.os_answers :=
  {| LogToFile.fopen_ok := true; LogToFile.fclose_ret := -1;
     LogToFile.flushed := 3; LogToFile.chown_ret := 0 |}.

Definition chown_fails : LogToFile.os_answers :=
  {| LogToFile.fopen_ok := true; LogToFile.fclose_ret := 0;
     LogToFile.flushed := 0; LogToFile.chown_ret := -1 |}.

(** A file system with the log file of [ghost_log] and one other file. *)
Definition two_files : gmap string LogToFile.file :=
  {[ "/var/log/srd.log"%string :=
       {| LogToFile.contents := "time,event" +:+ LF; LogToFile.owner := (2, 2) |};
     "/etc/motd"%string :=
       {| LogToFile.contents := "hello"; LogToFile.owner := (0, 0) |} ]}.

(** ** [restart_system] and [restart_service]: requests to the init system *)

Module Bus.

(** What the system answers during one call: the values of
    [sd_bus_open_system], [sd_bus_call_method] and [sd_bus_message_read],
    and whether [malloc] yields memory. *)
Record bus_answers := {
  open_r : Z;
  malloc_ok : bool;
  call_r : Z;
  read_r : Z
}.

Inductive call :=
| c_log (lvl : log_level) (fmt : string)
| c_bus_open_system
| c_malloc (size : Z)
| c_bus_call_method (destination path interface member signature : string)
    (args : list string)
| c_free
| c_bus_message_read (types : string)
| c_bus_error_free
| c_bus_message_unref
| c_bus_unref.

Inductive outcome :=
| Returns (v : Z)
| Faults.

(** The label [finish]: the three releases, then [return r >= 0]. *)
Definition finish (r : Z) (cs : list call) : outcome * list call :=
  (Returns (if r >=? 0 then 1 else 0),
   cs ++ [c_bus_error_free; c_bus_message_unref; c_bus_unref]).

(** [restart_system], lines 20-68; [DEBUG] tells whether the macro of
    that name is defined. *)
Definition restart_system (DEBUG : bool) (os : bus_answers) : outcome * list call :=
  if DEBUG then (Returns 1, []) else
  let cs := [c_bus_open_system] in
  let r := open_r os in
  if r <? 0 then
    finish r (cs ++ [c_log LError "Failed to connect to system bus: %s"])
  else
    let cs := cs ++ [c_bus_call_method "org.freedesktop.systemd1"
                       "/org/freedesktop/systemd1"
                       "org.freedesktop.systemd1.Manager" "Reboot" "" []] in
    let r := call_r os in
    if r <? 0 then
      finish r (cs ++ [c_log LError "Failed to issue method call: %s"])
    else
      let cs := cs ++ [c_bus_message_read "o"] in
      let r := read_r os in
      if r <? 0 then
        finish r (cs ++ [c_log LError "Failed to parse response message: %s"])
      else finish r cs.

(** Memory from [malloc]: so many bytes, none of them written yet. *)
Definition buffer : Type := list (option ascii).

Definition malloc (size : Z) : buffer := replicate (Z.to_nat size) None.

(** [strcpy(buf + off, src)] writes the bytes of [src] and the terminator;
    [None] when that runs past the end of the buffer. *)
Definition strcpy (buf : buffer) (off : Z) (src : string) : option buffer :=
  let bytes := Some <$> (list_ascii_of_string src ++ [NUL]) in
  if (0 <=? off) && (off + Z.of_nat (length bytes) <=? Z.of_nat (length buf))
  then Some (take (Z.to_nat off) buf ++ bytes
               ++ drop (Z.to_nat off + length bytes) buf)
  else None.

(** The C string that starts the buffer; [None] when a byte that was never
    written, or the end of the buffer, comes before a terminator. *)
Fixpoint c_string (buf : buffer) : option string :=
  match buf with
  | Some c :: buf' =>
      if Ascii.eqb c NUL then Some EmptyString else String c <$> c_string buf'
  | _ => None
  end.

Definition prefix : string := "/org/freedesktop/systemd1/unit/".

(** [restart_service], lines 70-130.  [malloc] is not tested: a null
    pointer, a write past the end of [service_name] or a read of bytes never
    written is a fault. *)
Definition restart_service (os : bus_answers) (name : string)
  : outcome * list call :=
  let cs := [c_log LDebug "Restart service: %s"; c_bus_open_system] in
  let r := open_r os in
  if r <? 0 then
    finish r (cs ++ [c_log LError "Failed to connect to system bus: %s"])
  else
    let prefix_len := strlen prefix in
    let size := prefix_len + strlen name + 1 in
    let cs := cs ++ [c_malloc size] in
    if negb (malloc_ok os) then (Faults, cs)
    else
      let written :=
        b ← strcpy (malloc size) 0 prefix;
        b ← strcpy b prefix_len name;
        c_string b in
      match written with
      | None => (Faults, cs)
      | Some service_name =>
          let cs := cs ++ [c_log LDebug "Object path: %s";
                           c_bus_call_method "org.freedesktop.systemd1"
                             service_name "org.freedesktop.systemd1.Unit"
                             "Restart" "s" ["fail"%string]] in
          let r := call_r os in
          if r <? 0 then
            finish r (cs ++ [c_log LError "Failed to issue method call: %s";
                             c_free])
          else
            let cs := cs ++ [c_free; c_bus_message_read "o"] in
            let r := read_r os in
            if r <? 0 then
              finish r (cs ++ [c_log LError "Failed to parse response message: %s"])
            else
              finish r (cs ++ [c_log LDebug "Queued service job as %s."])
      end.

(** *** Properties of a run, as decidable predicates *)

Definition is_release (c : call) : bool :=
  match c with
  | c_bus_error_free | c_bus_message_unref | c_bus_unref => true
  | _ => false
  end.

Definition is_malloc (c : call) : bool :=
  match c with c_malloc _ => true | _ => false end.

Definition is_free (c : call) : bool :=
  match c with c_free => true | _ => false end.

Definition is_method_call (c : call) : bool :=
  match c with c_bus_call_method _ _ _ _ _ _ => true | _ => false end.

Definition is_message_read (c : call) : bool :=
  match c with c_bus_message_read _ => true | _ => false end.

(** A system bus on which every step goes through. *)
Definition all_fine : bus_answers :=
  {| open_r := 0; malloc_ok := true; call_r := 1; read_r := 1 |}.

(** A system bus that refuses the method call. *)
Definition call_refused : bus_answers :=
  {| open_r := 0; malloc_ok := true; call_r := -13; read_r := 1 |}.

End Bus.

(** ** The earlier [run_command], which reads the output before it polls *)

Module Part000.

Import RunCommand.

(** [const uint32_t delta_ms = 1e2;] *)
Definition delta_ms : Z := to_uint32 100.

(** [const size_t buf_size = 32;] *)
Definition buf_size : Z := 32.

(** Lines 146-170, the child: the read end of [stdin] becomes descriptor 0,
    the write end of [stdout] descriptor 1.  As in the later version, the
    result of [getpwnam] is read without a test. *)
Definition child (db : gmap string passwd) (cmd : action_cmd_t)
    (in_r in_w out_r out_w : Z) (s : pstate) (script : list sys_result)
  : option (pflow unit * list sys_result) :=
  let s := emit (c_close in_w) s in
  let s := emit (c_dup2 in_r 0) s in
  let s := emit (c_close out_r) s in
  let s := emit (c_dup2 out_w 1) s in
  let switched : option (pflow unit * list sys_result) :=
    match user cmd with
    | Some name =>
        let s := emit (c_getpwnam name) s in
        match db !! name with
        | None => Some (Return Faults s, script)
        | Some a =>
            let uid := pw_uid a in
            match script with
            | RSetuid ret :: script =>
                let s := emit (c_setuid uid) s in
                Some (Next tt (if ret =? 0 then set_euid uid s else s), script)
            | _ => None
            end
        end
    | None => Some (Next tt s, script)
    end in
  andthen switched (fun _ s script =>
  match script with
  | RExecl ok :: script =>
      let argv := ["sh"; "-c"; command cmd]%string in
      let s := emit (c_execl "/bin/sh" argv) s in
      if ok then Some (Return (Execs (euid s) "/bin/sh" argv) s, script)
      else Some (Return (Returns 0) (emit (c_log LError "execl failed.") s), script)
  | _ => None
  end).

Section Parent.

Variable calculate_difference_ms : timespec -> timespec -> Z.

(** Lines 180-183: the output is read until [read] returns no more bytes,
    before anything else. *)
Fixpoint await_output (out_r : Z) (s : pstate) (script : list sys_result)
  : option (pflow unit * list sys_result) :=
  match script with
  | RRead bytes_read :: script =>
      let s := emit (c_read out_r buf_size) s in
      if bytes_read >? 0
      then await_output out_r (emit (c_log LDebug "Command output: %s") s) script
      else Some (Next tt s, script)
  | _ => None
  end.

(** Lines 193-212: the polling loop, with a quantum of 100 microseconds. *)
Fixpoint wait_child (pid timeout_ms : Z) (start : timespec)
    (s : pstate) (script : list sys_result)
  : option (pflow Z * list sys_result) :=
  match script with
  | RWaitpid res _ :: script =>
      let s := emit (c_waitpid pid WNOHANG) s in
      if res =? 0 then
        if res <? 0 then
          Some (Return (Returns 0)
                  (emit (c_log LError "Unable to wait for pid %d: %s") s), script)
        else
          match script with
          | RClock now :: script =>
              let s := emit c_clock_gettime (emit (c_usleep delta_ms) s) in
              let diff_ms := to_uint32 (calculate_difference_ms start now) in
              if diff_ms >=? timeout_ms then
                let s := emit (c_log LError
                           "Command %s took too long. Killing it and continuing.") s in
                let s := emit (c_kill pid SIGTERM) s in
                match script with
                | RWaitpid _ _ :: script =>
                    Some (Return (Returns 0) (emit (c_waitpid pid WUNTRACED) s), script)
                | _ => None
                end
              else wait_child pid timeout_ms start s script
          | _ => None
          end
      else Some (Next res s, script)
  | _ => None
  end.

(** Lines 171-215, the parent. *)
Definition parent (pid timeout_ms in_r out_r out_w : Z) (s : pstate)
    (script : list sys_result) : option (pflow unit * list sys_result) :=
  let s := emit (c_close out_w) s in
  let s := emit (c_close in_r) s in
  andthen (await_output out_r s script) (fun _ s script =>
  match script with
  | RClock start :: script =>
      let s := emit c_clock_gettime s in
      andthen (wait_child pid timeout_ms start s script) (fun res s script =>
      Some (Return (Returns (if res =? pid then 1 else 0)) s, script))
  | _ => None
  end).

(** The earlier [run_command]; the second [pipe] is called only when the
    first returned 0. *)
Definition run_command (db : gmap string passwd) (cmd : action_cmd_t)
    (timeout_ms : Z) (uid : Z) (script : list sys_result)
  : option (outcome * pstate) :=
  let s := {| euid := uid; calls := [] |} in
  let failed s := emit (c_log LError "Unable to create pipe to child") s in
  let run : option (pflow unit * list sys_result) :=
    match script with
    | RPipe ret1 in_r in_w :: script =>
        let s := emit c_pipe s in
        if negb (ret1 =? 0) then Some (Return (Returns 0) (failed s), script)
        else
          match script with
          | RPipe ret2 out_r out_w :: script =>
              let s := emit c_pipe s in
              if negb (ret2 =? 0) then Some (Return (Returns 0) (failed s), script)
              else
                match script with
                | RFork pid :: script =>
                    let s := emit c_fork s in
                    if pid <? 0 then
                      Some (Return (Returns 0)
                              (emit (c_log LError "Unable to fork. %s") s), script)
                    else if pid =? 0 then
                      child db cmd in_r in_w out_r out_w s script
                    else
                      parent pid timeout_ms in_r out_r out_w s script
                | _ => None
                end
          | _ => None
          end
    | _ => None
    end in
  match run with
  | Some (Return o s, _) => Some (o, s)
  | _ => None
  end.

End Parent.

(** *** Properties of a run, as decidable predicates *)

Definition is_clock (c : call) : bool :=
  match c with c_clock_gettime => true | _ => false end.

(** The pipe is read after the clock was started: some [read] follows
    some sample of the clock. *)
Fixpoint reads_after_clock (cs : list call) : bool :=
  match cs with
  | [] => false
  | c :: cs => (is_clock c && existsb is_read cs) || reads_after_clock cs
  end.

(** The calls of [n] rounds of the polling loop that find the child
    running and the deadline ahead, and of [n] reads that deliver output. *)
Fixpoint poll_calls (pid : Z) (n : nat) : list call :=
  match n with
  | O => []
  | S n => [c_waitpid pid WNOHANG; c_usleep delta_ms; c_clock_gettime]
           ++ poll_calls pid n
  end.

Fixpoint read_calls (out_r : Z) (n : nat) : list call :=
  match n with
  | O => []
  | S n => [c_read out_r buf_size; c_log LDebug "Command output: %s"]
           ++ read_calls out_r n
  end.

End Part000.


(** * Properties *)

(** ** C strings *)

Lemma substring_prefix (s t : string) :
  substring 0 (String.length s) (s +:+ t) = s.
Proof.
  induction s as [|c s IH]; simpl.
  - destruct t; reflexivity.
  - now rewrite IH.
Qed.

Lemma snprintf_exact (s t : string) :
  snprintf (strlen s + 1) (s +:+ t) = s.
Proof.
  unfold snprintf, strlen.
  replace (Z.to_nat (Z.of_nat (String.length s) + 1 - 1)) with (String.length s) by lia.
  apply substring_prefix.
Qed.

Lemma length_append (s t : string) :
  String.length (s +:+ t) = (String.length s + String.length t)%nat.
Proof. induction s as [|c s IH]; simpl; [reflexivity | now rewrite IH]. Qed.

Lemma append_LF_longer (s : string) : s +:+ LF ≠ s.
Proof.
  intros H. apply (f_equal String.length) in H.
  rewrite length_append in H. simpl in H. lia.
Qed.

(** ** [influx] *)

Section InfluxFacts.
Import Influx.

(** The buffer [body] has room for the line and the terminator only: the
    newline of the format is cut off, for every line. *)
Lemma request_body_is_line (actual_line : string) :
  request_body actual_line = actual_line.
Proof. unfold request_body. apply snprintf_exact. Qed.

Lemma request_body_no_newline (actual_line : string) :
  request_body actual_line ≠ actual_line +:+ LF
  ∧ strlen (request_body actual_line) ≠ strlen actual_line + 1.
Proof.
  rewrite request_body_is_line. split; [|lia].
  intros H. symmetry in H. now apply append_LF_longer in H.
Qed.

(** [influx] gives the value of the calls that return. *)
Lemma influx_returns (action : action_influx_t) (line : string) (now : Z)
    (script : list sys_result) (v : Z) (s' : istate) :
  influx action line now script = Some (v, s')
  ↔ influx_outcome action line now script = Some (Returns v, s').
Proof.
  unfold influx.
  destruct (influx_outcome action line now script) as [[[w|] s]|].
  - split; intros H; inversion H; reflexivity.
  - split; intros H; discriminate H.
  - split; intros H; discriminate H.
Qed.

End InfluxFacts.

(** C2.  The specification has it that the request body is the line
    followed by a newline and that [Content-Length] is the length of the
    line plus one.  For the line ["cpu load=1"] (10 bytes), sent over an open
    connection and acknowledged with 204, the two writes of [influx] are
    the header with [Content-Length: 10] and the 10 bytes of the line: no
    newline is sent and none is counted. *)
Theorem influx_body_without_newline :
  ∃ s, Influx.influx Influx.sample_endpoint Influx.sample_line 100
         [Influx.RWrite 100 0; Influx.RWrite 10 0;
          Influx.RReadData "HTTP/1.1 204 No Content"] = Some (1, s)
       ∧ Influx.writes_of s =
           [Influx.c_write 5 Influx.sample_header; Influx.c_write 5 "cpu load=1"]
       ∧ Influx.request_body Influx.sample_line ≠ Influx.sample_line +:+ LF
       ∧ strlen (Influx.request_body Influx.sample_line) = 10.
Proof.
  eexists. split; [vm_compute; reflexivity|].
  split; [vm_compute; reflexivity|].
  split; [apply request_body_no_newline | reflexivity].
Qed.

(** C1.  The specification has it that every failing return of [influx]
    closes the socket and clears the connection field.  On an open
    connection with a budget of one second, a header write that would block
    and a wait of one second end the call at line 391 with the budget at
    zero: [influx] returns 0, descriptor 5 is not closed and stays in
    [conn_socket].  The same happens at line 426 when the body write would
    block, the header being already sent. *)
Theorem influx_timeout_keeps_connection :
  (∃ s, Influx.influx Influx.sample_endpoint Influx.sample_line 100
          [Influx.RWrite (-1) EAGAIN; Influx.REpollWait 1 1] = Some (0, s)
        ∧ Influx.conn_socket (Influx.act s) = 5
        ∧ Influx.cleared (Influx.act s) = false
        ∧ Influx.closes 5 s = false)
  ∧ (∃ s, Influx.influx Influx.sample_endpoint Influx.sample_line 100
            [Influx.RWrite 100 0; Influx.RWrite (-1) EAGAIN; Influx.REpollWait 1 1]
          = Some (0, s)
          ∧ Influx.conn_socket (Influx.act s) = 5
          ∧ Influx.cleared (Influx.act s) = false
          ∧ Influx.closes 5 s = false).
Proof.
  split; eexists; (split; [vm_compute; reflexivity|]); repeat split.
Qed.

(** C3.  The specification has it that every wait, in every phase, is
    deducted from the budget and that the call fails as soon as the budget
    is used up.  (1) On an open connection with a budget of one second, a
    wait of five seconds for the answer is not deducted: the budget is still
    one second at the return, and [influx] returns 1.  (2) A connect that
    takes three seconds brings the budget of one second to minus two; the
    call goes on and returns 1. *)
Theorem influx_budget_not_enforced :
  (∃ s, Influx.influx Influx.sample_endpoint Influx.sample_line 100
          [Influx.RWrite 100 0; Influx.RWrite 10 0; Influx.RReadFail EAGAIN;
           Influx.REpollWait 1 5; Influx.RReadData "HTTP/1.1 204 No Content"]
        = Some (1, s)
        ∧ Influx.clock s = 100 + 5
        ∧ Influx.timeout_left s = Influx.timeout Influx.sample_endpoint)
  ∧ (∃ s, Influx.influx (Influx.set_conn_socket 0 Influx.sample_endpoint)
            Influx.sample_line 100
            [Influx.RToSockaddr 1 AF_INET; Influx.RSocket 8; Influx.REpollCreate 9;
             Influx.REpollCreate 10; Influx.RConnect (-1) EINPROGRESS;
             Influx.REpollWait 1 3; Influx.RWrite 100 0; Influx.RWrite 10 0;
             Influx.RReadData "HTTP/1.1 204 No Content"]
          = Some (1, s)
          ∧ Influx.timeout_left s = (-2 # 1)%Q).
Proof.
  split; eexists; (split; [vm_compute; reflexivity|]); repeat split.
Qed.

(** *** The write loops *)

Section WriteLoops.
Import Influx.

Lemma would_block_again : would_block (-1) EAGAIN = true.
Proof. reflexivity. Qed.

Lemma would_block_full (n : nat) (errno : Z) :
  would_block (Z.of_nat n) errno = false.
Proof.
  unfold would_block. destruct (Z.eqb_spec (Z.of_nat n) (-1)); [lia | reflexivity].
Qed.

Lemma writes_of_emit (c : call) (s : istate) :
  writes_of (emit c s) = writes_of s ++ (if is_write c then [c] else []).
Proof.
  unfold writes_of, emit; simpl. rewrite List.filter_app. simpl.
  now destruct (is_write c).
Qed.

Lemma closes_emit (fd : Z) (c : call) (s : istate) :
  closes fd (emit c s) = closes fd s || is_close_of fd c.
Proof.
  unfold closes, emit; simpl. rewrite existsb_app. simpl.
  now rewrite orb_false_r.
Qed.

(** One round of "would block, wait, ready" with budget to spare brings
    the header loop back to its start. *)
Lemma send_header_retry (header : string) (s : istate) (e : Z)
    (rest : list sys_result) :
  Qle_bool (timeout_left s - inject_Z e) 0 = false →
  send_header header s (RWrite (-1) EAGAIN :: REpollWait 1 e :: rest)
  = send_header header (after_retry header s e) rest.
Proof.
  intros Hq. cbn [send_header]. rewrite would_block_again.
  cbn -[send_header ms_of Qle_bool Qminus].
  rewrite Z.add_simpl_l, Hq. reflexivity.
Qed.

Lemma send_body_retry (body : string) (s : istate) (e : Z)
    (rest : list sys_result) :
  Qle_bool (timeout_left s - inject_Z e) 0 = false →
  send_body body s (RWrite (-1) EAGAIN :: REpollWait 1 e :: rest)
  = send_body body (after_retry body s e) rest.
Proof.
  intros Hq. cbn [send_body]. rewrite would_block_again.
  cbn -[send_body ms_of Qle_bool Qminus].
  rewrite Z.add_simpl_l, Hq. reflexivity.
Qed.

Lemma send_header_retries (header : string) (es : list Z) :
  ∀ (s : istate) (rest : list sys_result),
    within_budget (timeout_left s) es = true →
    send_header header s (retries es ++ rest)
    = send_header header (after_retries header es s) rest.
Proof.
  induction es as [|e es IH]; intros s rest Hb; [reflexivity|].
  simpl in Hb. apply andb_true_iff in Hb as [Hq Hb].
  apply negb_true_iff in Hq.
  change (retries (e :: es) ++ rest)
    with (RWrite (-1) EAGAIN :: REpollWait 1 e :: (retries es ++ rest)).
  rewrite send_header_retry by exact Hq.
  rewrite IH by exact Hb. reflexivity.
Qed.

Lemma send_body_retries (body : string) (es : list Z) :
  ∀ (s : istate) (rest : list sys_result),
    within_budget (timeout_left s) es = true →
    send_body body s (retries es ++ rest)
    = send_body body (after_retries body es s) rest.
Proof.
  induction es as [|e es IH]; intros s rest Hb; [reflexivity|].
  simpl in Hb. apply andb_true_iff in Hb as [Hq Hb].
  apply negb_true_iff in Hq.
  change (retries (e :: es) ++ rest)
    with (RWrite (-1) EAGAIN :: REpollWait 1 e :: (retries es ++ rest)).
  rewrite send_body_retry by exact Hq.
  rewrite IH by exact Hb. reflexivity.
Qed.

(** What the retries leave behind: the endpoint untouched, nothing
    closed, one write of the whole buffer per attempt, the waits spent. *)
Lemma after_retries_facts (buf : string) (es : list Z) :
  ∀ s : istate,
    act (after_retries buf es s) = act s
    ∧ timeout_left (after_retries buf es s) = spend (timeout_left s) es
    ∧ (∀ fd, closes fd (after_retries buf es s) = closes fd s)
    ∧ writes_of (after_retries buf es s)
      = writes_of s ++ repeat (c_write (conn_socket (act s)) buf) (length es).
Proof.
  induction es as [|e es IH]; intros s.
  - simpl. rewrite app_nil_r. auto.
  - destruct (IH (after_retry buf s e)) as (Ha & Ht & Hc & Hw).
    change (after_retries buf (e :: es) s)
      with (after_retries buf es (after_retry buf s e)).
    rewrite Ha, Ht, Hw. repeat split.
    + intros fd. rewrite Hc. unfold after_retry, set_timeout_left, advance.
      unfold closes; simpl. rewrite !existsb_app. simpl.
      now rewrite !orb_false_r.
    + unfold after_retry, set_timeout_left, advance, writes_of; simpl.
      rewrite !List.filter_app. simpl.
      rewrite app_nil_r, <- app_assoc. reflexivity.
Qed.

Lemma within_budget_app (q : Q) (es1 es2 : list Z) :
  within_budget q (es1 ++ es2)
  = within_budget q es1 && within_budget (spend q es1) es2.
Proof.
  revert q. induction es1 as [|e es1 IH]; intros q; [reflexivity|].
  simpl. rewrite IH, andb_assoc. reflexivity.
Qed.

(** A write of the header that neither would block nor took the whole
    buffer ends the call. *)
Lemma send_header_short (header : string) (s : istate) (w errno : Z)
    (rest : list sys_result) :
  would_block w errno = false → w ≠ strlen header →
  send_header header s (RWrite w errno :: rest)
  = Some (Return (Returns 0)
            (CLOSE (emit (c_log LError "[Influx]: Unable to send to %s:%d %s")
                      (emit (c_write (conn_socket (act s)) header) s))),
          rest).
Proof.
  intros Hw Hn. cbn [send_header]. rewrite Hw.
  destruct (Z.eqb_spec w (strlen header)); [lia | reflexivity].
Qed.

Lemma send_header_full (header : string) (s : istate) (errno : Z)
    (rest : list sys_result) :
  send_header header s (RWrite (strlen header) errno :: rest)
  = Some (Next tt (emit (c_write (conn_socket (act s)) header) s), rest).
Proof.
  cbn [send_header]. unfold strlen at 1. rewrite would_block_full.
  fold (strlen header). now rewrite Z.eqb_refl.
Qed.

Lemma send_body_short (body : string) (s : istate) (w errno : Z)
    (rest : list sys_result) :
  would_block w errno = false → w ≠ strlen body →
  send_body body s (RWrite w errno :: rest)
  = Some (Return (Returns 0)
            (CLOSE (emit (c_log LError "[Influx]: Unable to send body to %s:%d %s")
                      (emit (c_write (conn_socket (act s)) body) s))),
          rest).
Proof.
  intros Hw Hn. cbn [send_body]. rewrite Hw.
  destruct (Z.eqb_spec w (strlen body)); [lia | reflexivity].
Qed.

(** After [CLOSE] the connection field is empty and the socket closed. *)
Lemma CLOSE_facts (s : istate) :
  cleared (act (CLOSE s)) = true
  ∧ closes (conn_socket (act s)) (CLOSE s) = true
  ∧ writes_of (CLOSE s) = writes_of s.
Proof.
  unfold CLOSE, cleared, closes, writes_of; simpl. repeat split.
  - rewrite existsb_app; simpl. now rewrite Z.eqb_refl, orb_true_r.
  - rewrite List.filter_app. simpl. now rewrite app_nil_r.
Qed.

(** The state in which a failed write leaves the call. *)
Lemma failed_write_facts (buf lg : string) (s : istate) :
  let s' := CLOSE (emit (c_log LError lg)
                     (emit (c_write (conn_socket (act s)) buf) s)) in
  cleared (act s') = true
  ∧ closes (conn_socket (act s)) s' = true
  ∧ writes_of s' = writes_of s ++ [c_write (conn_socket (act s)) buf].
Proof.
  intros s'. subst s'.
  match goal with |- context [CLOSE ?x] =>
    destruct (CLOSE_facts x) as (Hc1 & Hc2 & Hc3) end.
  rewrite Hc1, Hc3. split; [reflexivity|]. split; [exact Hc2|].
  rewrite !writes_of_emit. simpl. now rewrite app_nil_r.
Qed.

Lemma repeat_snoc {A : Type} (x : A) (n : nat) :
  repeat x n ++ [x] = repeat x (S n).
Proof. simpl. symmetry. apply repeat_cons. Qed.

End WriteLoops.

(** *** The budget and the connection over all runs *)

Section InfluxRuns.
Import Influx.

Lemma script_ind2 {A : Type} (P : list A → Prop) :
  P [] → (∀ a, P [a]) → (∀ a b l, P l → P (a :: b :: l)) → ∀ l, P l.
Proof.
  intros Hnil Hone Hstep l.
  assert (H : P l ∧ ∀ a, P (a :: l)); [|exact (proj1 H)].
  induction l as [|b l [IH1 IH2]]; split; auto.
Qed.

Lemma spend_le (q : Q) (e : Z) : 0 ≤ e → (q - inject_Z e <= q)%Q.
Proof.
  intros He. unfold Qle, Qminus, Qplus, Qopp, inject_Z; simpl. nia.
Qed.

Lemma Forall_tail2 {A : Type} (P : A → Prop) (a b : A) (l : list A) :
  Forall P (a :: b :: l) → P b ∧ Forall P l.
Proof.
  intros H. inversion H as [|? ? _ H']; subst.
  inversion H' as [|? ? Hb Hl]; subst. auto.
Qed.

(** The header loop never adds to the budget. *)
Lemma send_header_budget (header : string) :
  ∀ (script : list sys_result) (s : istate) (f : iflow unit)
    (rest : list sys_result),
    Forall nonneg_wait script →
    send_header header s script = Some (f, rest) →
    (timeout_left (state_of f) <= timeout_left s)%Q ∧ Forall nonneg_wait rest.
Proof.
  induction script as [|a|a b script IH] using script_ind2;
    intros s f rest Hall H; [discriminate H| |].
  - destruct a; try discriminate H. cbn [send_header] in H.
    destruct (would_block written errno); [discriminate H|].
    destruct (written =? strlen header); inversion H; subst;
      (split; [apply Qle_refl | constructor]).
  - destruct a; try discriminate H. cbn [send_header] in H.
    apply Forall_tail2 in Hall as [Hb Hall].
    destruct (would_block written errno).
    + destruct b; try discriminate H.
      cbn [nonneg_wait] in Hb.
      cbn -[send_header ms_of Qle_bool Qminus] in H.
      rewrite Z.add_simpl_l in H.
      destruct (num_ready <=? 0).
      * inversion H; subst. split; [apply Qle_refl | exact Hall].
      * destruct (Qle_bool (timeout_left s - inject_Z elapsed) 0).
        -- inversion H; subst. split; [now apply spend_le | exact Hall].
        -- apply IH in H as [Hle Hrest]; [|exact Hall]. split; [|exact Hrest].
           eapply Qle_trans; [exact Hle|]. now apply spend_le.
    + assert (Hall' : Forall nonneg_wait (b :: script))
        by (constructor; assumption).
      destruct (written =? strlen header); inversion H; subst;
        (split; [apply Qle_refl | exact Hall']).
Qed.

(** The body loop never adds to the budget. *)
Lemma send_body_budget (body : string) :
  ∀ (script : list sys_result) (s : istate) (f : iflow unit)
    (rest : list sys_result),
    Forall nonneg_wait script →
    send_body body s script = Some (f, rest) →
    (timeout_left (state_of f) <= timeout_left s)%Q ∧ Forall nonneg_wait rest.
Proof.
  induction script as [|a|a b script IH] using script_ind2;
    intros s f rest Hall H; [discriminate H| |].
  - destruct a; try discriminate H. cbn [send_body] in H.
    destruct (would_block written errno); [discriminate H|].
    destruct (written =? strlen body); inversion H; subst;
      (split; [apply Qle_refl | constructor]).
  - destruct a; try discriminate H. cbn [send_body] in H.
    apply Forall_tail2 in Hall as [Hb Hall].
    destruct (would_block written errno).
    + destruct b; try discriminate H.
      cbn [nonneg_wait] in Hb.
      cbn -[send_body ms_of Qle_bool Qminus] in H.
      rewrite Z.add_simpl_l in H.
      destruct (num_ready <=? 0).
      * inversion H; subst. split; [apply Qle_refl | exact Hall].
      * destruct (Qle_bool (timeout_left s - inject_Z elapsed) 0).
        -- inversion H; subst. split; [now apply spend_le | exact Hall].
        -- apply IH in H as [Hle Hrest]; [|exact Hall]. split; [|exact Hrest].
           eapply Qle_trans; [exact Hle|]. now apply spend_le.
    + assert (Hall' : Forall nonneg_wait (b :: script))
        by (constructor; assumption).
      destruct (written =? strlen body); inversion H; subst;
        (split; [apply Qle_refl | exact Hall']).
Qed.

(** The response loop leaves the budget as it finds it, however long it
    waits. *)
Lemma read_answer_keeps_budget :
  ∀ (script : list sys_result) (s : istate) (f : iflow string)
    (rest : list sys_result),
    read_answer s script = Some (f, rest) →
    timeout_left (state_of f) = timeout_left s.
Proof.
  induction script as [|a|a b script IH] using script_ind2;
    intros s f rest H; [discriminate H| |].
  - destruct a; try discriminate H; cbn [read_answer] in H.
    + destruct (strlen (substring 0 128 data) >? 22); now inversion H.
    + destruct (would_block (-1) errno); [discriminate H | now inversion H].
  - destruct a; try discriminate H; cbn [read_answer] in H.
    + destruct (strlen (substring 0 128 data) >? 22); now inversion H.
    + destruct (would_block (-1) errno); [|now inversion H].
      destruct b; try discriminate H.
      destruct (num_ready <=? 0); [now inversion H|].
      now apply IH in H.
Qed.

(** The connect never adds to the budget. *)
Lemma connect_phase_budget (s : istate) (script : list sys_result)
    (f : iflow unit) (rest : list sys_result) :
  Forall nonneg_wait script →
  connect_phase s script = Some (f, rest) →
  (timeout_left (state_of f) <= timeout_left s)%Q ∧ Forall nonneg_wait rest.
Proof.
  intros Hall H. unfold connect_phase in H.
  destruct script as [|[s_ret fam0| | | | | | | |] script]; try discriminate H.
  apply Forall_cons in Hall as [_ Hall].
  match type of H with
  | andthen ?r _ = _ => destruct r as [[[fam s1|v s1] script1]|] eqn:Hr
  end; cbn [andthen] in H; [|inversion H; subst|discriminate H].
  - assert (Hs1 : timeout_left s1 = timeout_left s ∧ Forall nonneg_wait script1).
    { destruct (s_ret =? 0).
      - destruct script as [|[|ok fam'| | | | | | |] script]; try discriminate Hr.
        apply Forall_cons in Hall as [_ Hall].
        destruct ok; cbn [negb] in Hr; inversion Hr; subst. auto.
      - inversion Hr; subst. auto. }
    destruct Hs1 as [Ht1 Hall1]. rewrite <- Ht1. clear Hr Hall Ht1.
    destruct script1 as [|[| |fd| | | | | |] script1]; try discriminate H.
    apply Forall_cons in Hall1 as [_ Hall1].
    destruct (fd <? 0).
    { inversion H; subst. split; [apply Qle_refl | exact Hall1]. }
    destruct script1 as [|[| | |wfd| | | | |] script1]; try discriminate H.
    destruct script1 as [|[| | |rfd| | | | |] script1]; try discriminate H.
    destruct script1 as [|[| | | |c_ret errno| | | |] script1]; try discriminate H.
    apply Forall_cons in Hall1 as [_ Hall1].
    apply Forall_cons in Hall1 as [_ Hall1].
    apply Forall_cons in Hall1 as [_ Hall1].
    destruct (c_ret =? 0).
    { inversion H; subst. split; [apply Qle_refl | exact Hall1]. }
    destruct ((c_ret =? -1) && (errno =? EINPROGRESS)).
    + destruct script1 as [|[| | | | |num_ready elapsed| | |] script1];
        try discriminate H.
      apply Forall_cons in Hall1 as [He Hall1]. cbn [nonneg_wait] in He.
      destruct (num_ready <=? 0); inversion H; subst.
      * split; [apply Qle_refl | exact Hall1].
      * split; [|exact Hall1].
        cbn -[Qminus Qle]. rewrite Z.add_simpl_l. now apply spend_le.
    + inversion H; subst. split; [apply Qle_refl | exact Hall1].
  - assert (Hs1 : timeout_left s1 = timeout_left s ∧ Forall nonneg_wait rest).
    { destruct (s_ret =? 0).
      - destruct script as [|[|ok fam'| | | | | | |] script]; try discriminate Hr.
        apply Forall_cons in Hall as [_ Hall].
        destruct ok; cbn [negb] in Hr; inversion Hr; subst. auto.
      - inversion Hr. }
    destruct Hs1 as [Ht1 Hall1]. cbn [state_of]. rewrite Ht1.
    split; [apply Qle_refl | exact Hall1].
Qed.

(** X2.  The budget is never replenished: with a clock that does not run backwards,
    the budget at the return is never above the configured timeout. *)
Lemma influx_budget_never_grows (action : action_influx_t) (line : string)
    (now : Z) (script : list sys_result) (v : Z) (s' : istate) :
  Forall nonneg_wait script →
  influx action line now script = Some (v, s') →
  (timeout_left s' <= timeout action)%Q.
Proof.
  intros Hall H. apply influx_returns in H. unfold influx_outcome in H.
  destruct (entry action now script) as [[[[] s1|v1 s1] script1]|] eqn:He;
    cbn [andthen] in H; try discriminate H.
  - assert (H1 : (timeout_left s1 <= timeout action)%Q ∧ Forall nonneg_wait script1).
    { unfold entry in He. destruct (conn_socket action <=? 0).
      - apply connect_phase_budget in He; [exact He | exact Hall].
      - inversion He; subst. split; [apply Qle_refl | exact Hall]. }
    destruct H1 as [Hle1 Hall1]. unfold exchange in H.
    match type of H with
    | context [send_header ?h ?s ?sc] =>
        destruct (send_header h s sc) as [[[[] s2|v2 s2] script2]|] eqn:Hh
    end; cbn [andthen] in H; try discriminate H;
      apply send_header_budget in Hh as [Hle2 Hall2]; try exact Hall1;
      cbn [state_of] in Hle2.
    + match type of H with
      | context [send_body ?b ?s ?sc] =>
          destruct (send_body b s sc) as [[[[] s3|v3 s3] script3]|] eqn:Hb
      end; cbn [andthen] in H; try discriminate H;
        apply send_body_budget in Hb as [Hle3 Hall3]; try exact Hall2;
        cbn [state_of] in Hle3.
      * match type of H with
        | context [read_answer ?s ?sc] =>
            destruct (read_answer s sc) as [[[answer s4|v4 s4] script4]|] eqn:Hr
        end; cbn [andthen] in H; try discriminate H;
          apply read_answer_keeps_budget in Hr; cbn [state_of] in Hr.
        -- destruct (128 <=? strlen answer); [discriminate H|].
           destruct (strncmp_eq 23 answer start_success); inversion H; subst;
             cbn [timeout_left emit CLOSE set_act]; rewrite Hr;
             (eapply Qle_trans; [exact Hle3|]); (eapply Qle_trans; [exact Hle2|]);
             exact Hle1.
        -- inversion H; subst. rewrite Hr.
           eapply Qle_trans; [exact Hle3|]. eapply Qle_trans; [exact Hle2|].
           exact Hle1.
      * inversion H; subst.
        eapply Qle_trans; [exact Hle3|]. eapply Qle_trans; [exact Hle2|].
        exact Hle1.
    + inversion H; subst. eapply Qle_trans; [exact Hle2|]. exact Hle1.
  - inversion H; subst.
    unfold entry in He. destruct (conn_socket action <=? 0); [|discriminate He].
    apply connect_phase_budget in He as [Hle _]; [exact Hle | exact Hall].
Qed.

(** Where the header loop leaves the function, it has closed the
    connection, unless it leaves at line 391. *)
Lemma send_header_return (header : string) :
  ∀ (script : list sys_result) (s : istate) (v : outcome) (s' : istate)
    (rest : list sys_result),
    send_header header s script = Some (Return v s', rest) →
    v = Returns 0 ∧ (cleared (act s') = true ∨ last (calls s') = Some budget_log).
Proof.
  induction script as [|a|a b script IH] using script_ind2;
    intros s v s' rest H; [discriminate H| |].
  - destruct a; try discriminate H. cbn [send_header] in H.
    destruct (would_block written errno); [discriminate H|].
    destruct (written =? strlen header); inversion H; subst. auto.
  - destruct a; try discriminate H. cbn [send_header] in H.
    destruct (would_block written errno).
    + destruct b; try discriminate H.
      destruct (num_ready <=? 0); [inversion H; subst; auto|].
      match type of H with
      | (if ?c then _ else _) = _ => destruct c
      end; [|now apply IH in H].
      inversion H; subst. split; [reflexivity|]. right.
      cbn [calls emit]. apply last_snoc.
    + destruct (written =? strlen header); inversion H; subst. auto.
Qed.

Lemma send_body_return (body : string) :
  ∀ (script : list sys_result) (s : istate) (v : outcome) (s' : istate)
    (rest : list sys_result),
    send_body body s script = Some (Return v s', rest) →
    v = Returns 0 ∧ (cleared (act s') = true ∨ last (calls s') = Some budget_log).
Proof.
  induction script as [|a|a b script IH] using script_ind2;
    intros s v s' rest H; [discriminate H| |].
  - destruct a; try discriminate H. cbn [send_body] in H.
    destruct (would_block written errno); [discriminate H|].
    destruct (written =? strlen body); inversion H; subst. auto.
  - destruct a; try discriminate H. cbn [send_body] in H.
    destruct (would_block written errno).
    + destruct b; try discriminate H.
      destruct (num_ready <=? 0); [inversion H; subst; auto|].
      match type of H with
      | (if ?c then _ else _) = _ => destruct c
      end; [|now apply IH in H].
      inversion H; subst. split; [reflexivity|]. right.
      cbn [calls emit]. apply last_snoc.
    + destruct (written =? strlen body); inversion H; subst. auto.
Qed.

(** The response loop closes the connection wherever it leaves the
    function. *)
Lemma read_answer_return :
  ∀ (script : list sys_result) (s : istate) (v : outcome) (s' : istate)
    (rest : list sys_result),
    read_answer s script = Some (Return v s', rest) →
    v = Returns 0 ∧ cleared (act s') = true.
Proof.
  induction script as [|a|a b script IH] using script_ind2;
    intros s v s' rest H; [discriminate H| |].
  - destruct a; try discriminate H; cbn [read_answer] in H.
    + destruct (strlen (substring 0 128 data) >? 22); inversion H; subst. auto.
    + destruct (would_block (-1) errno); [discriminate H|].
      inversion H; subst. auto.
  - destruct a; try discriminate H; cbn [read_answer] in H.
    + destruct (strlen (substring 0 128 data) >? 22); inversion H; subst. auto.
    + destruct (would_block (-1) errno); [|inversion H; subst; auto].
      destruct b; try discriminate H.
      destruct (num_ready <=? 0); [inversion H; subst; auto|].
      now apply IH in H.
Qed.

(** A connect that fails leaves the connection field empty. *)
Lemma connect_phase_return (s : istate) (script : list sys_result)
    (v : outcome) (s' : istate) (rest : list sys_result) :
  conn_socket (act s) ≤ 0 →
  connect_phase s script = Some (Return v s', rest) →
  v = Returns 0 ∧ cleared (act s') = true.
Proof.
  intros Hempty H. unfold connect_phase in H.
  destruct script as [|[s_ret fam0| | | | | | | |] script]; try discriminate H.
  match type of H with
  | andthen ?r _ = _ => destruct r as [[[fam s1|v1 s1] script1]|] eqn:Hr
  end; cbn [andthen] in H; [|inversion H; subst|discriminate H].
  - destruct script1 as [|[| |fd| | | | | |] script1]; try discriminate H.
    destruct (Z.ltb_spec fd 0) as [Hfd|_].
    { inversion H; subst. split; [reflexivity|].
      unfold cleared; cbn. now apply Z.leb_le, Z.lt_le_incl. }
    destruct script1 as [|[| | |wfd| | | | |] script1]; try discriminate H.
    destruct script1 as [|[| | |rfd| | | | |] script1]; try discriminate H.
    destruct script1 as [|[| | | |c_ret errno| | | |] script1]; try discriminate H.
    destruct (c_ret =? 0); [discriminate H|].
    destruct ((c_ret =? -1) && (errno =? EINPROGRESS)).
    + destruct script1 as [|[| | | | |num_ready elapsed| | |] script1];
        try discriminate H.
      destruct (num_ready <=? 0); inversion H; subst. auto.
    + inversion H; subst. auto.
  - destruct (s_ret =? 0); [|discriminate Hr].
    destruct script as [|[|ok fam'| | | | | | |] script]; try discriminate Hr.
    destruct ok; cbn [negb] in Hr; inversion Hr; subst.
    split; [reflexivity|]. unfold cleared; cbn. now apply Z.leb_le.
Qed.

(** X1.  Over all runs: a call that returns 0 has cleared the
    connection field, unless it returned at line 391 or 426, where the
    budget is found used up after a wait. *)
Lemma influx_failure_clears_or_budget (action : action_influx_t)
    (line : string) (now : Z) (script : list sys_result) (s' : istate) :
  influx action line now script = Some (0, s') →
  cleared (act s') = true ∨ last (calls s') = Some budget_log.
Proof.
  intros H. apply influx_returns in H. unfold influx_outcome in H.
  destruct (entry action now script) as [[[[] s1|v1 s1] script1]|] eqn:He;
    cbn [andthen] in H; try discriminate H.
  - unfold exchange in H.
    match type of H with
    | context [send_header ?h ?s ?sc] =>
        destruct (send_header h s sc) as [[[[] s2|v2 s2] script2]|] eqn:Hh
    end; cbn [andthen] in H; try discriminate H.
    + match type of H with
      | context [send_body ?b ?s ?sc] =>
          destruct (send_body b s sc) as [[[[] s3|v3 s3] script3]|] eqn:Hb
      end; cbn [andthen] in H; try discriminate H.
      * match type of H with
        | context [read_answer ?s ?sc] =>
            destruct (read_answer s sc) as [[[answer s4|v4 s4] script4]|] eqn:Hr
        end; cbn [andthen] in H; try discriminate H.
        -- destruct (128 <=? strlen answer); [discriminate H|].
           destruct (strncmp_eq 23 answer start_success); inversion H; subst.
           left. reflexivity.
        -- inversion H; subst. apply read_answer_return in Hr as [_ Hr]. auto.
      * inversion H; subst. apply send_body_return in Hb as [_ Hb]. exact Hb.
    + inversion H; subst. apply send_header_return in Hh as [_ Hh]. exact Hh.
  - inversion H; subst. unfold entry in He.
    destruct (Z.leb_spec (conn_socket action) 0) as [Hle|_]; [|discriminate He].
    apply connect_phase_return in He as [_ He]; [auto | exact Hle].
Qed.

End InfluxRuns.

(** C10.  A write of the header or of the body that returns neither -1 with
    a would-block error nor the length of the buffer ends the call:
    [influx] returns 0, the socket is closed and the connection field
    cleared.  Whatever the number of attempts that would block before it,
    every write issued passes the whole buffer, and none follows the short
    one: the call never resumes from the partial offset.  The statement holds
    from any state [s] in which the exchange starts, with or without a
    connect before it. *)
Theorem influx_short_write_fatal :
  ∀ (action : Influx.action_influx_t) (line : string) (now : Z)
    (script : list Influx.sys_result) (s : Influx.istate)
    (es1 es2 : list Z) (w errno e1 : Z) (rest : list Influx.sys_result),
    let body := Influx.request_body line in
    let header := Influx.request_header (Influx.act s) body in
    let fd := Influx.conn_socket (Influx.act s) in
    Influx.would_block w errno = false →
    (Influx.entry action now script
       = Some (Next tt s, Influx.retries es1 ++ Influx.RWrite w errno :: rest) →
     Influx.within_budget (Influx.timeout_left s) es1 = true →
     w ≠ strlen header →
     ∃ s', Influx.influx action line now script = Some (0, s')
           ∧ Influx.cleared (Influx.act s') = true
           ∧ Influx.closes fd s' = true
           ∧ Influx.writes_of s'
             = Influx.writes_of s
               ++ repeat (Influx.c_write fd header) (S (length es1)))
    ∧ (Influx.entry action now script
         = Some (Next tt s,
                 Influx.retries es1 ++ Influx.RWrite (strlen header) e1
                   :: Influx.retries es2 ++ Influx.RWrite w errno :: rest) →
       Influx.within_budget (Influx.timeout_left s) (es1 ++ es2) = true →
       w ≠ strlen body →
       ∃ s', Influx.influx action line now script = Some (0, s')
             ∧ Influx.cleared (Influx.act s') = true
             ∧ Influx.closes fd s' = true
             ∧ Influx.writes_of s'
               = Influx.writes_of s
                 ++ repeat (Influx.c_write fd header) (S (length es1))
                 ++ repeat (Influx.c_write fd body) (S (length es2))).
Proof.
  intros action line now script s es1 es2 w errno e1 rest body header fd Hw.
  split.
  - intros Hentry Hb Hn.
    destruct (after_retries_facts header es1 s) as (Ha & _ & _ & Hws).
    unfold Influx.influx, Influx.influx_outcome. rewrite Hentry.
    cbn [andthen].
    unfold Influx.exchange. fold body. fold header.
    rewrite send_header_retries by exact Hb.
    rewrite send_header_short by (exact Hw || exact Hn).
    cbn [andthen]. eexists. split; [reflexivity|].
    match goal with |- context [Influx.c_log LError ?lg] =>
      destruct (failed_write_facts header lg (Influx.after_retries header es1 s))
        as (H1 & H2 & H3) end.
    rewrite Ha in H1, H2, H3. rewrite Ha. fold fd in H1, H2, H3 |- *.
    split; [exact H1|]. split; [exact H2|].
    rewrite H3, Hws, <- app_assoc. fold fd. now rewrite repeat_snoc.
  - intros Hentry Hb Hn.
    rewrite within_budget_app in Hb. apply andb_true_iff in Hb as [Hb1 Hb2].
    destruct (after_retries_facts header es1 s) as (Ha & Ht & _ & Hws).
    set (s1 := Influx.emit (Influx.c_write fd header)
                 (Influx.after_retries header es1 s)).
    destruct (after_retries_facts body es2 s1) as (Ha2 & _ & _ & Hws2).
    assert (Hs1 : Influx.act s1 = Influx.act s) by (subst s1; exact Ha).
    unfold Influx.influx, Influx.influx_outcome. rewrite Hentry.
    cbn [andthen].
    unfold Influx.exchange. fold body. fold header.
    rewrite send_header_retries by exact Hb1.
    rewrite send_header_full. cbn [andthen]. rewrite Ha. fold fd. fold s1.
    rewrite send_body_retries
      by (subst s1; cbn [Influx.timeout_left Influx.emit]; now rewrite Ht).
    rewrite send_body_short by (exact Hw || exact Hn).
    cbn [andthen]. eexists. split; [reflexivity|].
    match goal with |- context [Influx.c_log LError ?lg] =>
      destruct (failed_write_facts body lg (Influx.after_retries body es2 s1))
        as (H1 & H2 & H3) end.
    rewrite Ha2, Hs1 in H1, H2, H3. rewrite Ha2, Hs1. fold fd in H1, H2, H3 |- *.
    split; [exact H1|]. split; [exact H2|].
    rewrite H3, Hws2, Hs1. fold fd. subst s1.
    rewrite writes_of_emit, Hws. fold fd. cbn [Influx.is_write].
    rewrite <- !app_assoc, repeat_snoc.
    rewrite (app_assoc (repeat _ (length es1))), repeat_snoc. reflexivity.
Qed.

(** A short write of the header after one retry, and of the body after one
    retry, on the open connection of [sample_endpoint]. *)
Lemma influx_short_write_fatal_witness :
  (∃ s', Influx.influx Influx.sample_endpoint Influx.sample_line 100
           [Influx.RWrite (-1) EAGAIN; Influx.REpollWait 1 0; Influx.RWrite 40 0]
         = Some (0, s')
         ∧ Influx.cleared (Influx.act s') = true
         ∧ Influx.closes 5 s' = true
         ∧ Influx.writes_of s'
           = [Influx.c_write 5 Influx.sample_header;
              Influx.c_write 5 Influx.sample_header])
  ∧ (∃ s', Influx.influx Influx.sample_endpoint Influx.sample_line 100
             [Influx.RWrite 100 0; Influx.RWrite (-1) EAGAIN;
              Influx.REpollWait 1 0; Influx.RWrite 4 0]
           = Some (0, s')
           ∧ Influx.cleared (Influx.act s') = true
           ∧ Influx.closes 5 s' = true
           ∧ Influx.writes_of s'
             = [Influx.c_write 5 Influx.sample_header;
                Influx.c_write 5 "cpu load=1"; Influx.c_write 5 "cpu load=1"]).
Proof.
  split.
  - apply (proj1 (influx_short_write_fatal Influx.sample_endpoint Influx.sample_line
                    100 _ Influx.sample_start [0] [] 40 0 0 [] eq_refl)).
    + reflexivity.
    + reflexivity.
    + intros H; vm_compute in H; discriminate H.
  - apply (proj2 (influx_short_write_fatal Influx.sample_endpoint Influx.sample_line
                    100 _ Influx.sample_start [] [0] 4 0 0 [] eq_refl)).
    + reflexivity.
    + reflexivity.
    + intros H; vm_compute in H; discriminate H.
Defined.

(** ** [run_command] *)

(** C9.  When the user name resolves, the child calls [setuid] and goes on
    to [execl] whatever [setuid] returned: when it failed, the shell runs
    the command with the user id the daemon had. *)
Theorem run_command_setuid_unchecked :
  ∀ (calc : RunCommand.timespec → RunCommand.timespec → Z)
    (db : gmap string passwd) (cmd : RunCommand.action_cmd_t)
    (timeout_ms : Z) (actual_command : string) (uid rfd wfd : Z)
    (name : string) (a : passwd) (ret : Z) (rest : list RunCommand.sys_result),
    RunCommand.user cmd = Some name →
    db !! name = Some a →
    ret ≠ 0 →
    ∃ s, RunCommand.run_command calc db cmd timeout_ms actual_command uid
           (RunCommand.RPipe 0 rfd wfd :: RunCommand.RFork 0
              :: RunCommand.RSetuid ret :: RunCommand.RExecl true :: rest)
         = Some (RunCommand.Execs uid "/bin/sh" ["sh"; "-c"; actual_command]%string, s)
         ∧ RunCommand.calls s
           = [RunCommand.c_pipe; RunCommand.c_fork; RunCommand.c_dup2 wfd 1;
              RunCommand.c_getpwnam name; RunCommand.c_setuid (pw_uid a);
              RunCommand.c_execl "/bin/sh" ["sh"; "-c"; actual_command]%string].
Proof.
  intros calc db cmd timeout_ms actual_command uid rfd wfd name a ret rest
    Huser Hdb Hret.
  unfold RunCommand.run_command, RunCommand.child.
  cbn [negb Z.eqb Z.ltb Z.compare]. rewrite Huser, Hdb.
  destruct (Z.eqb_spec ret 0) as [E|_]; [contradiction|].
  eexists. split; reflexivity.
Qed.

(** The account [daemon] resolves, [setuid] fails, the shell runs as user 0. *)
Lemma run_command_setuid_unchecked_witness :
  ∃ s, RunCommand.run_command RunCommand.calculate_difference_ms_spec
         RunCommand.accounts (RunCommand.cmd_as "daemon") 1000
         "systemctl restart wg" 0
         [RunCommand.RPipe 0 3 4; RunCommand.RFork 0; RunCommand.RSetuid (-1);
          RunCommand.RExecl true]
       = Some (RunCommand.Execs 0 "/bin/sh"
                 ["sh"; "-c"; "systemctl restart wg"]%string, s)
       ∧ RunCommand.calls s
         = [RunCommand.c_pipe; RunCommand.c_fork; RunCommand.c_dup2 4 1;
            RunCommand.c_getpwnam "daemon"; RunCommand.c_setuid 2;
            RunCommand.c_execl "/bin/sh" ["sh"; "-c"; "systemctl restart wg"]%string].
Proof.
  apply (run_command_setuid_unchecked RunCommand.calculate_difference_ms_spec
           RunCommand.accounts (RunCommand.cmd_as "daemon") 1000
           "systemctl restart wg" 0 3 4 "daemon" {| pw_uid := 2; pw_gid := 2 |}
           (-1) []).
  - reflexivity.
  - reflexivity.
  - discriminate.
Defined.

(** A user name that the account database does not know: the child
    faults after [getpwnam], for every command, and never calls [execl]. *)
Lemma run_command_child_unresolved
    (calc : RunCommand.timespec → RunCommand.timespec → Z)
    (db : gmap string passwd) (cmd : RunCommand.action_cmd_t)
    (timeout_ms : Z) (actual_command : string) (uid rfd wfd : Z)
    (name : string) (rest : list RunCommand.sys_result) :
  RunCommand.user cmd = Some name →
  db !! name = None →
  RunCommand.run_command calc db cmd timeout_ms actual_command uid
    (RunCommand.RPipe 0 rfd wfd :: RunCommand.RFork 0 :: rest)
  = Some (RunCommand.Faults,
          {| RunCommand.euid := uid;
             RunCommand.calls :=
               [RunCommand.c_pipe; RunCommand.c_fork; RunCommand.c_dup2 wfd 1;
                RunCommand.c_getpwnam name] |}).
Proof.
  intros Huser Hdb. unfold RunCommand.run_command, RunCommand.child.
  cbn [negb Z.eqb Z.ltb Z.compare]. rewrite Huser, Hdb. reflexivity.
Qed.

(** C4.  The specification has it that [run_command] fails when the user
    name does not resolve.  With a user that the account database does not
    know, the child reads through the null pointer that [getpwnam] returned
    and is killed before it reaches [execl]; the parent polls, reaps the
    dead child within the deadline, and returns 1. *)
Theorem run_command_unresolved_user :
  (∃ s, RunCommand.run_command RunCommand.calculate_difference_ms_spec
          RunCommand.accounts (RunCommand.cmd_as "ghost") 1000
          "systemctl restart wg" 0
          [RunCommand.RPipe 0 3 4; RunCommand.RFork 0]
        = Some (RunCommand.Faults, s)
        ∧ existsb RunCommand.is_execl (RunCommand.calls s) = false)
  ∧ (∃ s, RunCommand.run_command RunCommand.calculate_difference_ms_spec
            RunCommand.accounts (RunCommand.cmd_as "ghost") 1000
            "systemctl restart wg" 0
            [RunCommand.RPipe 0 3 4; RunCommand.RFork 42;
             RunCommand.RClock (RunCommand.at_ms 0);
             RunCommand.RWaitpid 0 0; RunCommand.RClock (RunCommand.at_ms 100);
             RunCommand.RWaitpid 42 11; RunCommand.RRead 0]
          = Some (RunCommand.Returns 1, s)).
Proof.
  split; eexists; [split|]; vm_compute; reflexivity.
Qed.

(** *** The polling loop and the pipe *)

Section RunFacts.
Import RunCommand.

Variable calc : timespec → timespec → Z.
Variables (pid timeout_ms : Z) (start : timespec).

Lemma add_calls_nil (s : pstate) : add_calls [] s = s.
Proof. destruct s. unfold add_calls; simpl. now rewrite app_nil_r. Qed.

Lemma add_calls_app (cs1 cs2 : list call) (s : pstate) :
  add_calls cs2 (add_calls cs1 s) = add_calls (cs1 ++ cs2) s.
Proof. unfold add_calls; simpl. now rewrite app_assoc. Qed.

Lemma emit_add_calls (c : call) (s : pstate) : emit c s = add_calls [c] s.
Proof. reflexivity. Qed.

(** Polls that find the child running before the deadline bring the loop
    back to its start. *)
Lemma wait_child_pending (polls : list (Z * timespec)) :
  ∀ (s : pstate) (rest : list sys_result),
    Forall (in_time calc start timeout_ms) polls →
    wait_child calc pid timeout_ms start s (pending polls ++ rest)
    = wait_child calc pid timeout_ms start
        (add_calls (poll_calls pid (length polls)) s) rest.
Proof.
  induction polls as [|p polls IH]; intros s rest Hin.
  - simpl. now rewrite add_calls_nil.
  - inversion Hin as [|p' polls' Hp Hps]; subst.
    change (pending (p :: polls) ++ rest)
      with (RWaitpid 0 (fst p) :: RClock (snd p) :: (pending polls ++ rest)).
    cbn [wait_child Z.eqb Z.ltb Z.compare].
    unfold in_time in Hp.
    destruct (Z.geb_spec (to_uint32 (calc start (snd p))) timeout_ms) as [Hge|_];
      [lia|].
    rewrite IH by exact Hps.
    rewrite !emit_add_calls, !add_calls_app. reflexivity.
Qed.

(** The pipe is read to its end. *)
Lemma drain_output (rfd : Z) (chunks : list Z) :
  ∀ (s : pstate) (last : Z) (rest : list sys_result),
    Forall (λ n, 0 < n) chunks → last ≤ 0 →
    drain rfd s (output chunks ++ RRead last :: rest)
    = Some (Next tt (add_calls (read_calls rfd (length chunks)
                                  ++ [c_read rfd (buf_size - 1)]) s),
            rest).
Proof.
  induction chunks as [|n chunks IH]; intros s last rest Hpos Hlast.
  - cbn [output map app drain length read_calls].
    destruct (Z.gtb_spec last 0) as [Hgt|_]; [lia|]. reflexivity.
  - inversion Hpos as [|n' chunks' Hn Hns]; subst.
    cbn [output map app drain length read_calls].
    destruct (Z.gtb_spec n 0) as [_|Hle]; [|lia].
    fold (output chunks). rewrite IH by assumption.
    rewrite !emit_add_calls, !add_calls_app. reflexivity.
Qed.

(** What the polling loop can have seen when it ends: it falls through
    with the first value of [waitpid] other than 0, after polls that were
    all short of the deadline; it leaves the function only with 0. *)
Lemma wait_child_inv :
  ∀ (script : list sys_result) (s : pstate) (f : pflow Z)
    (rest : list sys_result),
    wait_child calc pid timeout_ms start s script = Some (f, rest) →
    match f with
    | Next res _ =>
        res ≠ 0 ∧
        ∃ polls wstatus,
          script = pending polls ++ RWaitpid res wstatus :: rest
          ∧ Forall (in_time calc start timeout_ms) polls
    | Return o _ => o = Returns 0
    end.
Proof.
  intros script. remember (length script) as n eqn:Hn.
  revert script Hn.
  induction n as [n IH] using lt_wf_ind. intros script Hn s f rest H.
  destruct script as [|[| | | | |res wstatus|] script]; try discriminate H.
  cbn [wait_child] in H.
  destruct (Z.eqb_spec res 0) as [->|Hres].
  - cbn [Z.ltb Z.compare] in H.
    destruct script as [|[| | | |now| |] script]; try discriminate H.
    destruct (Z.geb_spec (to_uint32 (calc start now)) timeout_ms) as [Hge|Hlt].
    + destruct script as [|[| | | | |r st|] script]; try discriminate H.
      now inversion H.
    + apply IH with (m := length script) in H; [|simpl in Hn; lia|reflexivity].
      destruct f as [res s'|o s']; [|exact H].
      destruct H as (Hne & polls & st & -> & Hall).
      split; [exact Hne|].
      exists ((wstatus, now) :: polls), st. split; [reflexivity|].
      constructor; [exact Hlt | exact Hall].
  - inversion H; subst. split; [exact Hres|].
    exists [], wstatus. split; [reflexivity | constructor].
Qed.

Lemma poll_calls_snoc (n : nat) :
  poll_calls pid (S n)
  = poll_calls pid n ++ [c_waitpid pid WNOHANG; c_usleep delta_ms; c_clock_gettime].
Proof.
  induction n as [|n IH]; [reflexivity|].
  cbn [poll_calls app] in IH |- *. now rewrite <- IH.
Qed.

(** The child never returns 1 to the caller of [run_command]. *)
Lemma child_inv (db : gmap string passwd) (cmd : action_cmd_t)
    (actual_command : string) (wfd : Z) (s s' : pstate)
    (script rest : list sys_result) (o : outcome) :
  child db cmd actual_command wfd s script = Some (Return o s', rest) →
  o ≠ Returns 1.
Proof.
  unfold child. intros H.
  destruct (user cmd) as [name|].
  - destruct (db !! name) as [a|].
    + destruct script as [|[| |ret| | | |] script]; try discriminate H.
      cbn [andthen] in H.
      destruct script as [|[| | |ok| | |] script]; try discriminate H.
      destruct ok; inversion H; discriminate.
    + cbn [andthen] in H. inversion H; discriminate.
  - cbn [andthen] in H.
    destruct script as [|[| | |ok| | |] script]; try discriminate H.
    destruct ok; inversion H; discriminate.
Qed.

Lemma drain_inv (rfd : Z) :
  ∀ (script : list sys_result) (s : pstate) (f : pflow unit)
    (rest : list sys_result),
    drain rfd s script = Some (f, rest) → ∃ s', f = Next tt s'.
Proof.
  induction script as [|r script IH]; intros s f rest H; [discriminate H|].
  destruct r; try discriminate H. cbn [drain] in H.
  destruct (bytes_read >? 0).
  - now apply IH in H.
  - inversion H. now eexists.
Qed.

End RunFacts.

(** C5.  [run_command] returns 1 exactly when a poll of the child's state
    returns the child's pid before a clock sample reaches the deadline,
    whatever status the child ended with; and when a clock sample reaches
    the deadline while the child is still running, it sends [SIGTERM],
    waits for the child without [WNOHANG], and returns 0. *)
Theorem run_command_success_iff_reaped :
  ∀ (calc : RunCommand.timespec → RunCommand.timespec → Z)
    (db : gmap string passwd) (cmd : RunCommand.action_cmd_t)
    (timeout_ms : Z) (actual_command : string) (uid : Z),
    (* reaped before the deadline: success, for every exit status *)
    (∀ rfd wfd pid start polls wstatus chunks last rest,
        0 < pid →
        Forall (RunCommand.in_time calc start timeout_ms) polls →
        Forall (λ n, 0 < n) chunks → last ≤ 0 →
        ∃ s, RunCommand.run_command calc db cmd timeout_ms actual_command uid
               (RunCommand.RPipe 0 rfd wfd :: RunCommand.RFork pid
                  :: RunCommand.RClock start
                  :: RunCommand.pending polls
                  ++ RunCommand.RWaitpid pid wstatus
                  :: RunCommand.output chunks ++ RunCommand.RRead last :: rest)
             = Some (RunCommand.Returns 1, s)
             ∧ RunCommand.calls s
               = [RunCommand.c_pipe; RunCommand.c_fork; RunCommand.c_close wfd;
                  RunCommand.c_clock_gettime]
                 ++ RunCommand.poll_calls pid (length polls)
                 ++ [RunCommand.c_waitpid pid WNOHANG;
                     RunCommand.c_log LDebug "Command output: "]
                 ++ RunCommand.read_calls rfd (length chunks)
                 ++ [RunCommand.c_read rfd (RunCommand.buf_size - 1);
                     RunCommand.c_log LDebug ""; RunCommand.c_close rfd])
    (* success only so *)
    ∧ (∀ script s,
          RunCommand.run_command calc db cmd timeout_ms actual_command uid script
          = Some (RunCommand.Returns 1, s) →
          ∃ rfd wfd pid start polls wstatus tail,
            script = RunCommand.RPipe 0 rfd wfd :: RunCommand.RFork pid
                       :: RunCommand.RClock start
                       :: RunCommand.pending polls
                       ++ RunCommand.RWaitpid pid wstatus :: tail
            ∧ 0 < pid
            ∧ Forall (RunCommand.in_time calc start timeout_ms) polls)
    (* the deadline passes: SIGTERM, a blocking wait, failure *)
    ∧ (∀ rfd wfd pid start polls wstatus now r st rest,
          0 < pid →
          Forall (RunCommand.in_time calc start timeout_ms) polls →
          timeout_ms ≤ RunCommand.to_uint32 (calc start now) →
          ∃ s, RunCommand.run_command calc db cmd timeout_ms actual_command uid
                 (RunCommand.RPipe 0 rfd wfd :: RunCommand.RFork pid
                    :: RunCommand.RClock start
                    :: RunCommand.pending polls
                    ++ RunCommand.RWaitpid 0 wstatus :: RunCommand.RClock now
                    :: RunCommand.RWaitpid r st :: rest)
               = Some (RunCommand.Returns 0, s)
               ∧ RunCommand.calls s
                 = [RunCommand.c_pipe; RunCommand.c_fork; RunCommand.c_close wfd;
                    RunCommand.c_clock_gettime]
                   ++ RunCommand.poll_calls pid (S (length polls))
                   ++ [RunCommand.c_log LError
                         "Command %s took too long. Killing it and continuing.";
                       RunCommand.c_kill pid SIGTERM;
                       RunCommand.c_waitpid pid WUNTRACED]).
Proof.
  intros calc db cmd timeout_ms actual_command uid. split; [|split].
  - intros rfd wfd pid start polls wstatus chunks last rest Hpid Hin Hpos Hlast.
    unfold RunCommand.run_command, RunCommand.parent.
    cbn [negb Z.eqb].
    destruct (Z.ltb_spec pid 0) as [?|_]; [lia|].
    destruct (Z.eqb_spec pid 0) as [?|_]; [lia|].
    rewrite wait_child_pending by exact Hin.
    cbn [RunCommand.wait_child].
    destruct (Z.eqb_spec pid 0) as [?|_]; [lia|].
    cbn [andthen]. rewrite drain_output by assumption.
    cbn [andthen]. rewrite Z.eqb_refl.
    eexists. split; [reflexivity|].
    cbn [RunCommand.calls RunCommand.emit RunCommand.add_calls].
    rewrite <- !app_assoc. reflexivity.
  - intros script s H. unfold RunCommand.run_command in H.
    destruct script as [|[ret rfd wfd| | | | | |] script]; try discriminate H.
    destruct (Z.eqb_spec ret 0) as [->|_]; cbn [negb] in H; [|discriminate H].
    destruct script as [|[|pid| | | | |] script]; try discriminate H.
    destruct (Z.ltb_spec pid 0) as [_|Hge]; [discriminate H|].
    destruct (Z.eqb_spec pid 0) as [_|Hne].
    + match type of H with
      | match ?c with _ => _ end = _ => destruct c as [[[[] s1|o s1] rest]|] eqn:Hc
      end; try discriminate H.
      apply child_inv in Hc. congruence.
    + unfold RunCommand.parent in H.
      destruct script as [|[| | | |start| |] script]; try discriminate H.
      match type of H with
      | context [RunCommand.wait_child ?a ?b ?c ?d ?e ?f] =>
          destruct (RunCommand.wait_child a b c d e f) as [[fl rest]|] eqn:Hw
      end; [|discriminate H].
      apply wait_child_inv in Hw.
      destruct fl as [res s1|o s1]; cbn [andthen] in H.
      * destruct Hw as (_ & polls & wstatus & -> & Hall).
        match type of H with
        | context [RunCommand.drain ?a ?b ?c] =>
            destruct (RunCommand.drain a b c) as [[fl rest']|] eqn:Hd
        end; [|discriminate H].
        apply drain_inv in Hd as [s2 ->]. cbn [andthen] in H.
        destruct (Z.eqb_spec res pid) as [->|_]; [|discriminate H].
        exists rfd, wfd, pid, start, polls, wstatus, rest.
        split; [reflexivity|]. split; [lia | exact Hall].
      * subst o. discriminate H.
  - intros rfd wfd pid start polls wstatus now r st rest Hpid Hin Hlate.
    unfold RunCommand.run_command, RunCommand.parent.
    cbn [negb Z.eqb].
    destruct (Z.ltb_spec pid 0) as [?|_]; [lia|].
    destruct (Z.eqb_spec pid 0) as [?|_]; [lia|].
    rewrite wait_child_pending by exact Hin.
    cbn [RunCommand.wait_child Z.eqb Z.ltb Z.compare].
    destruct (Z.geb_spec (RunCommand.to_uint32 (calc start now)) timeout_ms)
      as [_|?]; [|lia].
    cbn [andthen]. eexists. split; [reflexivity|].
    cbn [RunCommand.calls RunCommand.emit RunCommand.add_calls].
    rewrite poll_calls_snoc, <- !app_assoc. reflexivity.
Qed.

(** A child reaped at the second poll with exit status 1; the shape of a
    successful run; a child still running when the clock reads the deadline. *)
Lemma run_command_success_iff_reaped_witness :
  (∃ s, RunCommand.run_command RunCommand.calculate_difference_ms_spec
          RunCommand.accounts (RunCommand.cmd_as "daemon") 1000
          "systemctl restart wg" 0
          [RunCommand.RPipe 0 3 4; RunCommand.RFork 42;
           RunCommand.RClock (RunCommand.at_ms 0);
           RunCommand.RWaitpid 0 0; RunCommand.RClock (RunCommand.at_ms 100);
           RunCommand.RWaitpid 42 256; RunCommand.RRead 12; RunCommand.RRead 0]
        = Some (RunCommand.Returns 1, s)
        ∧ RunCommand.calls s
          = [RunCommand.c_pipe; RunCommand.c_fork; RunCommand.c_close 4;
             RunCommand.c_clock_gettime;
             RunCommand.c_waitpid 42 WNOHANG; RunCommand.c_usleep 100000;
             RunCommand.c_clock_gettime;
             RunCommand.c_waitpid 42 WNOHANG;
             RunCommand.c_log LDebug "Command output: ";
             RunCommand.c_read 3 31; RunCommand.c_log LDebug "%s";
             RunCommand.c_read 3 31; RunCommand.c_log LDebug "";
             RunCommand.c_close 3])
  ∧ (∃ rfd wfd pid start polls wstatus tail,
        [RunCommand.RPipe 0 3 4; RunCommand.RFork 42;
         RunCommand.RClock (RunCommand.at_ms 0);
         RunCommand.RWaitpid 42 256; RunCommand.RRead 0]
        = RunCommand.RPipe 0 rfd wfd :: RunCommand.RFork pid
            :: RunCommand.RClock start
            :: RunCommand.pending polls ++ RunCommand.RWaitpid pid wstatus :: tail
        ∧ 0 < pid
        ∧ Forall (RunCommand.in_time RunCommand.calculate_difference_ms_spec
                    start 1000) polls)
  ∧ (∃ s, RunCommand.run_command RunCommand.calculate_difference_ms_spec
            RunCommand.accounts (RunCommand.cmd_as "daemon") 1000
            "systemctl restart wg" 0
            [RunCommand.RPipe 0 3 4; RunCommand.RFork 42;
             RunCommand.RClock (RunCommand.at_ms 0);
             RunCommand.RWaitpid 0 0; RunCommand.RClock (RunCommand.at_ms 100);
             RunCommand.RWaitpid 0 0; RunCommand.RClock (RunCommand.at_ms 1000);
             RunCommand.RWaitpid 42 15]
          = Some (RunCommand.Returns 0, s)
          ∧ RunCommand.calls s
            = [RunCommand.c_pipe; RunCommand.c_fork; RunCommand.c_close 4;
               RunCommand.c_clock_gettime;
               RunCommand.c_waitpid 42 WNOHANG; RunCommand.c_usleep 100000;
               RunCommand.c_clock_gettime;
               RunCommand.c_waitpid 42 WNOHANG; RunCommand.c_usleep 100000;
               RunCommand.c_clock_gettime;
               RunCommand.c_log LError
                 "Command %s took too long. Killing it and continuing.";
               RunCommand.c_kill 42 SIGTERM; RunCommand.c_waitpid 42 WUNTRACED]).
Proof.
  pose proof (run_command_success_iff_reaped
                RunCommand.calculate_difference_ms_spec RunCommand.accounts
                (RunCommand.cmd_as "daemon") 1000 "systemctl restart wg" 0)
    as (Hreaped & Honly & Hlate).
  split; [|split].
  - apply (Hreaped 3 4 42 (RunCommand.at_ms 0) [(0, RunCommand.at_ms 100)]
             256 [12] 0 []).
    + reflexivity.
    + repeat constructor.
    + repeat constructor.
    + discriminate.
  - eapply Honly. vm_compute. reflexivity.
  - apply (Hlate 3 4 42 (RunCommand.at_ms 0) [(0, RunCommand.at_ms 100)]
             0 (RunCommand.at_ms 1000) 42 15 []).
    + reflexivity.
    + repeat constructor.
    + discriminate.
Defined.

(** *** The order of polls and reads *)

Section ReadOrder.
Import RunCommand.

Lemma rwp_no_reads (cs : list call) :
  existsb is_read cs = false → reads_while_polling cs = false.
Proof.
  induction cs as [|c cs IH]; [reflexivity|]. simpl. intros H.
  apply orb_false_iff in H as [Hc Hcs]. rewrite Hc. simpl. exact (IH Hcs).
Qed.

Lemma rwp_no_polls (cs : list call) :
  existsb is_poll cs = false → reads_while_polling cs = false.
Proof.
  induction cs as [|c cs IH]; [reflexivity|]. simpl. intros H.
  apply orb_false_iff in H as [Hc Hcs]. rewrite Hcs, andb_false_r. simpl.
  exact (IH Hcs).
Qed.

Lemma rwp_app (l1 l2 : list call) :
  reads_while_polling (l1 ++ l2)
  = reads_while_polling l1
    || (existsb is_read l1 && existsb is_poll l2)
    || reads_while_polling l2.
Proof.
  induction l1 as [|c l1 IH]; [reflexivity|]. simpl.
  rewrite IH, existsb_app.
  destruct (is_read c), (existsb is_poll l1), (existsb is_poll l2),
    (reads_while_polling l1), (existsb is_read l1), (reads_while_polling l2);
    reflexivity.
Qed.

Variable calc : timespec → timespec → Z.

(** The polling loop reads nothing. *)
Lemma wait_child_calls (pid timeout_ms : Z) (start : timespec) :
  ∀ (script : list sys_result) (s : pstate) (f : pflow Z)
    (rest : list sys_result),
    wait_child calc pid timeout_ms start s script = Some (f, rest) →
    ∃ cs, calls (state_of f) = calls s ++ cs ∧ existsb is_read cs = false.
Proof.
  intros script. remember (length script) as n eqn:Hn.
  revert script Hn.
  induction n as [n IH] using lt_wf_ind. intros script Hn s f rest H.
  destruct script as [|[| | | | |res wstatus|] script]; try discriminate H.
  cbn [wait_child] in H.
  destruct (Z.eqb_spec res 0) as [->|Hres].
  - cbn [Z.ltb Z.compare] in H.
    destruct script as [|[| | | |now| |] script]; try discriminate H.
    destruct (to_uint32 (calc start now) >=? timeout_ms).
    + destruct script as [|[| | | | |r st|] script]; try discriminate H.
      inversion H; subst. cbn [state_of calls emit].
      rewrite <- !app_assoc. eexists. split; reflexivity.
    + apply IH with (m := length script) in H; [|simpl in Hn; lia|reflexivity].
      destruct H as (cs & Hc & Hcs). rewrite Hc. cbn [calls emit].
      rewrite <- !app_assoc. eexists. split; [reflexivity|].
      rewrite !existsb_app, Hcs. reflexivity.
  - inversion H; subst. cbn [state_of calls emit].
    eexists. split; reflexivity.
Qed.

(** The draining loop polls nothing. *)
Lemma drain_calls (rfd : Z) :
  ∀ (script : list sys_result) (s : pstate) (f : pflow unit)
    (rest : list sys_result),
    drain rfd s script = Some (f, rest) →
    ∃ cs, calls (state_of f) = calls s ++ cs ∧ existsb is_poll cs = false.
Proof.
  induction script as [|r script IH]; intros s f rest H; [discriminate H|].
  destruct r; try discriminate H. cbn [drain] in H.
  destruct (bytes_read >? 0).
  - apply IH in H as (cs & Hc & Hcs). rewrite Hc. cbn [calls emit].
    rewrite <- !app_assoc. eexists. split; [reflexivity|].
    rewrite !existsb_app, Hcs. reflexivity.
  - inversion H; subst. cbn [state_of calls emit].
    eexists. split; reflexivity.
Qed.

(** The child neither polls nor reads. *)
Lemma child_calls (db : gmap string passwd) (cmd : action_cmd_t)
    (actual_command : string) (wfd : Z) (s : pstate)
    (script rest : list sys_result) (f : pflow unit) :
  child db cmd actual_command wfd s script = Some (f, rest) →
  ∃ cs, calls (state_of f) = calls s ++ cs ∧ existsb is_read cs = false.
Proof.
  unfold child. intros H.
  destruct (user cmd) as [name|].
  - destruct (db !! name) as [a|].
    + destruct script as [|[| |ret| | | |] script]; try discriminate H.
      cbn [andthen] in H.
      destruct script as [|[| | |ok| | |] script]; try discriminate H.
      destruct ok, (ret =? 0); inversion H; subst;
        cbn [state_of calls emit set_euid]; rewrite <- !app_assoc;
        (eexists; split; [reflexivity | reflexivity]).
    + cbn [andthen] in H. inversion H; subst.
      cbn [state_of calls emit]. rewrite <- !app_assoc.
      eexists. split; reflexivity.
  - cbn [andthen] in H.
    destruct script as [|[| | |ok| | |] script]; try discriminate H.
    destruct ok; inversion H; subst;
      cbn [state_of calls emit]; rewrite <- ?app_assoc;
      (eexists; split; [reflexivity | reflexivity]).
Qed.

End ReadOrder.

Section RunDescriptors.
Import RunCommand.

Variable calc : timespec → timespec → Z.

Lemma wait_child_descriptors (fd pid timeout_ms : Z) (start : timespec) :
  ∀ (script : list sys_result) (s : pstate) (f : pflow Z)
    (rest : list sys_result),
    wait_child calc pid timeout_ms start s script = Some (f, rest) →
    ∃ cs, calls (state_of f) = calls s ++ cs
          ∧ existsb (closes_fd fd) cs = false
          ∧ existsb is_kill cs
            = match f with Next _ _ => false | Return _ _ => true end.
Proof.
  intros script. remember (length script) as n eqn:Hn.
  revert script Hn.
  induction n as [n IH] using lt_wf_ind. intros script Hn s f rest H.
  destruct script as [|[| | | | |res wstatus|] script]; try discriminate H.
  cbn [wait_child] in H.
  destruct (Z.eqb_spec res 0) as [->|Hres].
  - cbn [Z.ltb Z.compare] in H.
    destruct script as [|[| | | |now| |] script]; try discriminate H.
    destruct (to_uint32 (calc start now) >=? timeout_ms).
    + destruct script as [|[| | | | |r st|] script]; try discriminate H.
      inversion H; subst. cbn [state_of calls emit].
      rewrite <- !app_assoc. eexists. repeat split; reflexivity.
    + apply IH with (m := length script) in H; [|simpl in Hn; lia|reflexivity].
      destruct H as (cs & Hc & Hcl & Hk). rewrite Hc. cbn [calls emit].
      rewrite <- !app_assoc. eexists. split; [reflexivity|].
      rewrite !existsb_app, Hcl, Hk. split; reflexivity.
  - inversion H; subst. cbn [state_of calls emit].
    eexists. repeat split; reflexivity.
Qed.

Lemma drain_descriptors (fd rfd : Z) :
  ∀ (script : list sys_result) (s : pstate) (f : pflow unit)
    (rest : list sys_result),
    drain rfd s script = Some (f, rest) →
    ∃ cs, calls (state_of f) = calls s ++ cs
          ∧ existsb (closes_fd fd) cs = false
          ∧ existsb is_kill cs = false.
Proof.
  induction script as [|r script IH]; intros s f rest H; [discriminate H|].
  destruct r; try discriminate H. cbn [drain] in H.
  destruct (bytes_read >? 0).
  - apply IH in H as (cs & Hc & Hcl & Hk). rewrite Hc. cbn [calls emit].
    rewrite <- !app_assoc. eexists. split; [reflexivity|].
    rewrite !existsb_app, Hcl, Hk. split; reflexivity.
  - inversion H; subst. cbn [state_of calls emit].
    eexists. repeat split; reflexivity.
Qed.

End RunDescriptors.

(** C8, as the specification has it: while the child runs, the parent
    reads the pipe between its polls.  In this run the child is found
    running twice and writes two chunks of output; every [read] of the pipe
    is issued after the last poll. *)
Lemma run_command_drains_while_polling_counterexample :
  ∃ s, RunCommand.run_command RunCommand.calculate_difference_ms_spec
         RunCommand.accounts (RunCommand.cmd_as "daemon") 1000
         "systemctl restart wg" 0
         [RunCommand.RPipe 0 3 4; RunCommand.RFork 42;
          RunCommand.RClock (RunCommand.at_ms 0);
          RunCommand.RWaitpid 0 0; RunCommand.RClock (RunCommand.at_ms 100);
          RunCommand.RWaitpid 0 0; RunCommand.RClock (RunCommand.at_ms 200);
          RunCommand.RWaitpid 42 0;
          RunCommand.RRead 31; RunCommand.RRead 7; RunCommand.RRead 0]
       = Some (RunCommand.Returns 1, s)
       ∧ RunCommand.reads_while_polling (RunCommand.calls s) = false
       ∧ RunCommand.calls s
         = [RunCommand.c_pipe; RunCommand.c_fork; RunCommand.c_close 4;
            RunCommand.c_clock_gettime;
            RunCommand.c_waitpid 42 WNOHANG; RunCommand.c_usleep 100000;
            RunCommand.c_clock_gettime;
            RunCommand.c_waitpid 42 WNOHANG; RunCommand.c_usleep 100000;
            RunCommand.c_clock_gettime;
            RunCommand.c_waitpid 42 WNOHANG;
            RunCommand.c_log LDebug "Command output: ";
            RunCommand.c_read 3 31; RunCommand.c_log LDebug "%s";
            RunCommand.c_read 3 31; RunCommand.c_log LDebug "%s";
            RunCommand.c_read 3 31; RunCommand.c_log LDebug "";
            RunCommand.c_close 3].
Proof.
  eexists. split; [vm_compute; reflexivity|]. split; reflexivity.
Qed.

(** C8, amended.  The parent does not drain the pipe while it polls: in
    every run of [run_command] that ends, no [read] of the pipe is issued
    before a poll of the child's state, and when the run ends at the
    deadline, with the child killed, the pipe is not read at all. *)
Theorem run_command_reads_after_polling :
  ∀ (calc : RunCommand.timespec → RunCommand.timespec → Z)
    (db : gmap string passwd) (cmd : RunCommand.action_cmd_t)
    (timeout_ms : Z) (actual_command : string) (uid : Z)
    (script : list RunCommand.sys_result)
    (o : RunCommand.outcome) (s : RunCommand.pstate),
    RunCommand.run_command calc db cmd timeout_ms actual_command uid script
    = Some (o, s) →
    RunCommand.reads_while_polling (RunCommand.calls s) = false
    ∧ (existsb RunCommand.is_kill (RunCommand.calls s) = true →
       existsb RunCommand.is_read (RunCommand.calls s) = false).
Proof.
  intros calc db cmd timeout_ms actual_command uid script o s H.
  unfold RunCommand.run_command in H.
  destruct script as [|[ret rfd wfd| | | | | |] script]; try discriminate H.
  destruct (negb (ret =? 0)); [inversion H; split; reflexivity|].
  destruct script as [|[|pid| | | | |] script]; try discriminate H.
  destruct (pid <? 0); [inversion H; split; reflexivity|].
  destruct (pid =? 0).
  - match type of H with
    | match ?c with _ => _ end = _ => destruct c as [[fl rest]|] eqn:Hc
    end; [|discriminate H].
    apply child_calls in Hc as (cs & Hcalls & Hcs).
    destruct fl as [[] s1|o1 s1]; [discriminate H|].
    inversion H; subst. cbn [state_of] in Hcalls. rewrite Hcalls.
    assert (Hnone : existsb RunCommand.is_read
                      (RunCommand.calls
                         (RunCommand.emit RunCommand.c_fork
                            (RunCommand.emit RunCommand.c_pipe
                               {| RunCommand.euid := uid;
                                  RunCommand.calls := [] |})) ++ cs) = false)
      by (rewrite existsb_app, Hcs; reflexivity).
    split; [apply rwp_no_reads; exact Hnone | intros _; exact Hnone].
  - unfold RunCommand.parent in H.
    destruct script as [|[| | | |start| |] script]; try discriminate H.
    match type of H with
    | context [RunCommand.wait_child ?a ?b ?c ?d ?e ?f] =>
        destruct (RunCommand.wait_child a b c d e f) as [[fl rest]|] eqn:Hw
    end; [|discriminate H].
    pose proof (wait_child_descriptors calc rfd _ _ _ _ _ _ _ Hw)
      as (cs1' & Hcalls1' & _ & Hk1).
    apply wait_child_calls in Hw as (cs1 & Hcalls1 & Hcs1).
    rewrite Hcalls1 in Hcalls1'. apply app_inv_head in Hcalls1'. subst cs1'.
    destruct fl as [res s1|o1 s1]; cbn [andthen state_of] in H, Hcalls1.
    + match type of H with
      | context [RunCommand.drain ?a ?b ?c] =>
          destruct (RunCommand.drain a b c) as [[fl rest']|] eqn:Hd
      end; [|discriminate H].
      pose proof (drain_descriptors rfd _ _ _ _ _ Hd)
        as (cs2' & Hcalls2' & _ & Hk2).
      pose proof (drain_inv _ _ _ _ _ Hd) as [s2 ->].
      apply drain_calls in Hd as (cs2 & Hcalls2 & Hcs2).
      rewrite Hcalls2 in Hcalls2'. apply app_inv_head in Hcalls2'. subst cs2'.
      cbn [andthen state_of] in H, Hcalls2. inversion H; subst.
      cbn [RunCommand.calls RunCommand.emit] in Hcalls2 |- *.
      rewrite Hcalls2, Hcalls1. cbn [RunCommand.calls RunCommand.emit].
      split.
      * pose proof (rwp_no_reads _ Hcs1) as Hr1.
        pose proof (rwp_no_polls _ Hcs2) as Hr2.
        rewrite !rwp_app, !existsb_app, Hr1, Hr2, Hcs1, Hcs2. cbn.
        destruct (existsb RunCommand.is_poll cs1),
          (existsb RunCommand.is_read cs2); reflexivity.
      * rewrite !existsb_app, Hk1, Hk2. cbn. discriminate.
    + inversion H; subst. rewrite Hcalls1.
      assert (Hnone : existsb RunCommand.is_read
                        (RunCommand.calls
                           (RunCommand.emit RunCommand.c_clock_gettime
                              (RunCommand.emit (RunCommand.c_close wfd)
                                 (RunCommand.emit RunCommand.c_fork
                                    (RunCommand.emit RunCommand.c_pipe
                                       {| RunCommand.euid := uid;
                                          RunCommand.calls := [] |}))))
                         ++ cs1) = false)
        by (rewrite !existsb_app, Hcs1; reflexivity).
      split; [apply rwp_no_reads; exact Hnone | intros _; exact Hnone].
Qed.

(** The run of a child that is reaped at the second poll and has written
    one chunk of output, and the run of a child that is still running when
    the deadline of one second passes. *)
Lemma run_command_reads_after_polling_witness :
  (RunCommand.reads_while_polling
     [RunCommand.c_pipe; RunCommand.c_fork; RunCommand.c_close 4;
      RunCommand.c_clock_gettime;
      RunCommand.c_waitpid 42 WNOHANG; RunCommand.c_usleep 100000;
      RunCommand.c_clock_gettime;
      RunCommand.c_waitpid 42 WNOHANG;
      RunCommand.c_log LDebug "Command output: ";
      RunCommand.c_read 3 31; RunCommand.c_log LDebug "%s";
      RunCommand.c_read 3 31; RunCommand.c_log LDebug "";
      RunCommand.c_close 3] = false)
  ∧ (existsb RunCommand.is_read
       [RunCommand.c_pipe; RunCommand.c_fork; RunCommand.c_close 4;
        RunCommand.c_clock_gettime;
        RunCommand.c_waitpid 42 WNOHANG; RunCommand.c_usleep 100000;
        RunCommand.c_clock_gettime;
        RunCommand.c_log LError
          "Command %s took too long. Killing it and continuing.";
        RunCommand.c_kill 42 SIGTERM; RunCommand.c_waitpid 42 WUNTRACED]
     = false).
Proof.
  split.
  - apply (run_command_reads_after_polling
             RunCommand.calculate_difference_ms_spec RunCommand.accounts
             (RunCommand.cmd_as "daemon") 1000 "systemctl restart wg" 0
             [RunCommand.RPipe 0 3 4; RunCommand.RFork 42;
              RunCommand.RClock (RunCommand.at_ms 0);
              RunCommand.RWaitpid 0 0; RunCommand.RClock (RunCommand.at_ms 100);
              RunCommand.RWaitpid 42 0; RunCommand.RRead 12; RunCommand.RRead 0]
             (RunCommand.Returns 1)
             {| RunCommand.euid := 0;
                RunCommand.calls :=
                  [RunCommand.c_pipe; RunCommand.c_fork; RunCommand.c_close 4;
                   RunCommand.c_clock_gettime;
                   RunCommand.c_waitpid 42 WNOHANG; RunCommand.c_usleep 100000;
                   RunCommand.c_clock_gettime;
                   RunCommand.c_waitpid 42 WNOHANG;
                   RunCommand.c_log LDebug "Command output: ";
                   RunCommand.c_read 3 31; RunCommand.c_log LDebug "%s";
                   RunCommand.c_read 3 31; RunCommand.c_log LDebug "";
                   RunCommand.c_close 3] |}).
    vm_compute. reflexivity.
  - apply (run_command_reads_after_polling
             RunCommand.calculate_difference_ms_spec RunCommand.accounts
             (RunCommand.cmd_as "daemon") 1000 "systemctl restart wg" 0
             [RunCommand.RPipe 0 3 4; RunCommand.RFork 42;
              RunCommand.RClock (RunCommand.at_ms 0);
              RunCommand.RWaitpid 0 0; RunCommand.RClock (RunCommand.at_ms 1000);
              RunCommand.RWaitpid 42 0]
             (RunCommand.Returns 0)
             {| RunCommand.euid := 0;
                RunCommand.calls :=
                  [RunCommand.c_pipe; RunCommand.c_fork; RunCommand.c_close 4;
                   RunCommand.c_clock_gettime;
                   RunCommand.c_waitpid 42 WNOHANG; RunCommand.c_usleep 100000;
                   RunCommand.c_clock_gettime;
                   RunCommand.c_log LError
                     "Command %s took too long. Killing it and continuing.";
                   RunCommand.c_kill 42 SIGTERM;
                   RunCommand.c_waitpid 42 WUNTRACED] |}).
    + vm_compute. reflexivity.
    + reflexivity.
Defined.

(** ** [log_to_file] *)

Section LogFacts.
Import LogToFile.

Lemma string_app_assoc (a b c : string) : (a +:+ b) +:+ c = a +:+ b +:+ c.
Proof.
  induction a as [|x a IH]; [reflexivity|].
  change (String x ((a +:+ b) +:+ c) = String x (a +:+ b +:+ c)).
  now f_equal.
Qed.

Lemma read_file_create (p : string) (me : Z * Z) (fs : gmap string file) :
  fs !! p = None →
  read_file p (create_if_absent p me fs) = Some EmptyString.
Proof.
  intros H. unfold read_file, create_if_absent. rewrite H.
  now rewrite lookup_insert_eq.
Qed.

Lemma read_file_keep (p : string) (me : Z * Z) (fs : gmap string file)
    (c : string) :
  read_file p fs = Some c → read_file p (create_if_absent p me fs) = Some c.
Proof.
  unfold read_file, create_if_absent. intros H.
  destruct (fs !! p) eqn:E; [now rewrite E | discriminate H].
Qed.

Lemma read_file_append (p text : string) (fs : gmap string file) :
  read_file p (append_to p text fs) = (λ c, c +:+ text) <$> read_file p fs.
Proof.
  unfold read_file, append_to. rewrite lookup_alter_eq.
  now destruct (fs !! p).
Qed.

Lemma read_file_set_owner (p : string) (o : Z * Z) (fs : gmap string file) :
  read_file p (set_owner p o fs) = read_file p fs.
Proof.
  unfold read_file, set_owner. rewrite lookup_alter_eq.
  now destruct (fs !! p).
Qed.

(** The file after a call in which the stream was opened and closed
    without error: the header and a newline if the file was not there and
    a header is configured, then the line and a newline, whatever becomes
    of the change of owner. *)
Lemma log_to_file_contents (db : gmap string passwd) (me : Z * Z)
    (os : os_answers) (fs : gmap string file) (action_log : action_log_t)
    (actual_line : string) :
  fopen_ok os = true → fclose_ret os = 0 →
  let s := (log_to_file db me os fs action_log actual_line).2 in
  read_file (path action_log) (files s)
  = Some (match read_file (path action_log) fs, header action_log with
          | None, Some h => h +:+ LF +:+ actual_line +:+ LF
          | None, None => actual_line +:+ LF
          | Some c, _ => c +:+ actual_line +:+ LF
          end)
  ∧ fputs_of s
    = match read_file (path action_log) fs, header action_log with
      | None, Some h => [c_fputs h; c_fputs LF; c_fputs actual_line; c_fputs LF]
      | _, _ => [c_fputs actual_line; c_fputs LF]
      end.
Proof.
  intros Hopen Hclose. unfold log_to_file. rewrite Hopen, Hclose.
  cbn [negb Z.eqb]. unfold read_file at 2 3.
  destruct (fs !! path action_log) as [f|] eqn:Hfs; cbn [fmap option_fmap option_map].
  - assert (Hc : read_file (path action_log)
                   (create_if_absent (path action_log) me fs) = Some (contents f)).
    { apply read_file_keep. unfold read_file. now rewrite Hfs. }
    destruct (header action_log) as [h|], (username action_log) as [name|];
      cbn [snd files set_files emit];
      rewrite read_file_append, Hc; (split; reflexivity).
  - pose proof (read_file_create (path action_log) me fs Hfs) as Hc.
    destruct (header action_log) as [h|], (username action_log) as [name|];
      try destruct (db !! name) as [pw|];
      try destruct (chown_ret os =? 0); try destruct (chown_ret os <? 0);
      cbn [snd files set_files emit];
      rewrite ?read_file_set_owner, read_file_append, Hc;
      cbn [fmap option_fmap option_map append];
      rewrite ?string_app_assoc; (split; reflexivity).
Qed.

(** X21.  Ownership is best effort: when the owner resolves and [chown] fails,
    the failure is logged and the call returns what [fclose] decided. *)
Lemma log_to_file_chown_best_effort (db : gmap string passwd) (me : Z * Z)
    (os : os_answers) (fs : gmap string file) (action_log : action_log_t)
    (actual_line name : string) (user_passwd : passwd) :
  username action_log = Some name →
  db !! name = Some user_passwd →
  fs !! path action_log = None →
  fopen_ok os = true →
  chown_ret os < 0 →
  (log_to_file db me os fs action_log actual_line).1
  = Returns (if fclose_ret os =? 0 then 1 else 0)
  ∧ last (calls (log_to_file db me os fs action_log actual_line).2)
    = Some (c_log LError "Unable to chown log file %s: %s").
Proof.
  intros Hname Hdb Hnew Hopen Hr. unfold log_to_file.
  rewrite Hopen, Hnew, Hname, Hdb. cbn [negb].
  destruct (Z.eqb_spec (chown_ret os) 0) as [?|_]; [lia|].
  destruct (Z.ltb_spec (chown_ret os) 0) as [_|?]; [|lia].
  destruct (header action_log) as [h|]; cbn [fst snd calls emit set_files];
    (split; [reflexivity | apply last_snoc]).
Qed.

(** An owner that the account database does not know, on a file that the
    call creates: the call faults after the stream is closed, for every
    line and whatever [fclose] returned. *)
Lemma log_to_file_owner_unresolved (db : gmap string passwd) (me : Z * Z)
    (os : os_answers) (fs : gmap string file) (action_log : action_log_t)
    (actual_line name : string) :
  username action_log = Some name →
  db !! name = None →
  fs !! path action_log = None →
  fopen_ok os = true →
  (log_to_file db me os fs action_log actual_line).1 = Faults
  ∧ last (calls (log_to_file db me os fs action_log actual_line).2)
    = Some (c_getpwnam name).
Proof.
  intros Hname Hdb Hnew Hopen. unfold log_to_file.
  rewrite Hopen, Hnew, Hname, Hdb. cbn [negb].
  destruct (header action_log) as [h|]; cbn [fst snd calls emit set_files];
    (split; [reflexivity | apply last_snoc]).
Qed.

End LogFacts.

(** C7.  With a header configured and no file at the path, two calls that
    open and close their stream without error leave the header line, then
    the two lines in call order: the first call writes the header and its
    line, the second its line only.  On a file that is already there the
    header is not written. *)
Theorem log_to_file_header_once :
  ∀ (db : gmap string passwd) (me : Z * Z)
    (os1 os2 : LogToFile.os_answers) (fs : gmap string LogToFile.file)
    (action_log : LogToFile.action_log_t) (h line1 line2 : string),
    LogToFile.header action_log = Some h →
    LogToFile.fopen_ok os1 = true → LogToFile.fclose_ret os1 = 0 →
    LogToFile.fopen_ok os2 = true → LogToFile.fclose_ret os2 = 0 →
    let p := LogToFile.path action_log in
    (fs !! p = None →
     let s1 := (LogToFile.log_to_file db me os1 fs action_log line1).2 in
     let s2 := (LogToFile.log_to_file db me os2 (LogToFile.files s1)
                  action_log line2).2 in
     LogToFile.read_file p (LogToFile.files s1) = Some (h +:+ LF +:+ line1 +:+ LF)
     ∧ LogToFile.fputs_of s1
       = [LogToFile.c_fputs h; LogToFile.c_fputs LF;
          LogToFile.c_fputs line1; LogToFile.c_fputs LF]
     ∧ LogToFile.read_file p (LogToFile.files s2)
       = Some (h +:+ LF +:+ line1 +:+ LF +:+ line2 +:+ LF)
     ∧ LogToFile.fputs_of s2 = [LogToFile.c_fputs line2; LogToFile.c_fputs LF])
    ∧ (∀ c, LogToFile.read_file p fs = Some c →
        let s := (LogToFile.log_to_file db me os2 fs action_log line2).2 in
        LogToFile.read_file p (LogToFile.files s) = Some (c +:+ line2 +:+ LF)
        ∧ LogToFile.fputs_of s = [LogToFile.c_fputs line2; LogToFile.c_fputs LF]).
Proof.
  intros db me os1 os2 fs action_log h line1 line2 Hh Ho1 Hc1 Ho2 Hc2 p.
  split.
  - intros Hnew s1 s2.
    destruct (log_to_file_contents db me os1 fs action_log line1 Ho1 Hc1)
      as [Hr1 Hf1].
    fold s1 in Hr1, Hf1. fold p in Hr1, Hf1.
    unfold LogToFile.read_file at 2 in Hr1. unfold LogToFile.read_file in Hf1.
    fold p in Hr1, Hf1. rewrite Hnew, Hh in Hr1, Hf1.
    cbn [fmap option_fmap option_map] in Hr1, Hf1.
    destruct (log_to_file_contents db me os2 (LogToFile.files s1) action_log
                line2 Ho2 Hc2) as [Hr2 Hf2].
    fold s2 in Hr2, Hf2. fold p in Hr2, Hf2. rewrite Hr1 in Hr2, Hf2.
    rewrite !string_app_assoc in Hr2. auto.
  - intros c Hc s.
    destruct (log_to_file_contents db me os2 fs action_log line2 Ho2 Hc2)
      as [Hr Hf].
    fold s in Hr, Hf. fold p in Hr, Hf. rewrite Hc in Hr, Hf. auto.
Qed.

(** Two lines logged to a file that does not exist, with a header. *)
Lemma log_to_file_header_once_witness :
  LogToFile.read_file "/var/log/srd.log"
    (LogToFile.files
       (LogToFile.log_to_file LogToFile.accounts (0, 0) LogToFile.all_fine
          ∅ LogToFile.daemon_log "boot").2)
  = Some ("time,event" +:+ LF +:+ "boot" +:+ LF)
  ∧ LogToFile.fputs_of
      (LogToFile.log_to_file LogToFile.accounts (0, 0) LogToFile.all_fine
         ∅ LogToFile.daemon_log "boot").2
    = [LogToFile.c_fputs "time,event"; LogToFile.c_fputs LF;
       LogToFile.c_fputs "boot"; LogToFile.c_fputs LF]
  ∧ LogToFile.read_file "/var/log/srd.log"
      (LogToFile.files
         (LogToFile.log_to_file LogToFile.accounts (0, 0) LogToFile.all_fine
            (LogToFile.files
               (LogToFile.log_to_file LogToFile.accounts (0, 0)
                  LogToFile.all_fine ∅ LogToFile.daemon_log "boot").2)
            LogToFile.daemon_log "link down").2)
    = Some ("time,event" +:+ LF +:+ "boot" +:+ LF +:+ "link down" +:+ LF)
  ∧ LogToFile.fputs_of
      (LogToFile.log_to_file LogToFile.accounts (0, 0) LogToFile.all_fine
         (LogToFile.files
            (LogToFile.log_to_file LogToFile.accounts (0, 0)
               LogToFile.all_fine ∅ LogToFile.daemon_log "boot").2)
         LogToFile.daemon_log "link down").2
    = [LogToFile.c_fputs "link down"; LogToFile.c_fputs LF].
Proof.
  apply (proj1 (log_to_file_header_once LogToFile.accounts (0, 0)
                  LogToFile.all_fine LogToFile.all_fine ∅ LogToFile.daemon_log
                  "time,event" "boot" "link down"
                  eq_refl eq_refl eq_refl eq_refl eq_refl)).
  reflexivity.
Defined.

(** C6.  The specification has it that a failure to resolve the owner is
    only logged and leaves the return value alone.  With an owner that the
    account database does not know and a file that is not there, the stream
    is written and closed, then the call reads through the null pointer that
    [getpwnam] returned: it does not return 1, it does not return at all,
    and nothing is logged. *)
Theorem log_to_file_unresolved_owner :
  ∃ s, LogToFile.log_to_file LogToFile.accounts (0, 0) LogToFile.all_fine ∅
         LogToFile.ghost_log "boot" = (LogToFile.Faults, s)
       ∧ LogToFile.read_file "/var/log/srd.log" (LogToFile.files s)
         = Some ("time,event" +:+ LF +:+ "boot" +:+ LF)
       ∧ existsb LogToFile.is_error_log (LogToFile.calls s) = false
       ∧ LogToFile.calls s
         = [LogToFile.c_access "/var/log/srd.log";
            LogToFile.c_fopen "/var/log/srd.log" "a";
            LogToFile.c_fputs "time,event"; LogToFile.c_fputs LF;
            LogToFile.c_fputs "boot"; LogToFile.c_fputs LF;
            LogToFile.c_fclose; LogToFile.c_getpwnam "ghost"].
Proof.
  eexists. split; [vm_compute; reflexivity|]. repeat split.
Qed.

(** * Further properties of the code *)

(** ** [influx]: the connection across calls *)

Section InfluxCalls.
Import Influx.

Lemma existsb_snoc {A : Type} (p : A → bool) (l : list A) (x : A) :
  existsb p (l ++ [x]) = existsb p l || p x.
Proof. rewrite existsb_app. simpl. now rewrite orb_false_r. Qed.

(** The header loop sets nothing up; where it falls through it has closed
    nothing and left [*action] alone; it leaves the function only with 0. *)
Lemma send_header_calls (header : string) :
  ∀ (script : list sys_result) (s : istate) (f : iflow unit)
    (rest : list sys_result),
    send_header header s script = Some (f, rest) →
    ∃ cs, calls (state_of f) = calls s ++ cs
          ∧ existsb influx_is_setup cs = false
          ∧ match f with
            | Next _ s1 => act s1 = act s ∧ existsb influx_is_close cs = false
            | Return v _ => v = Returns 0
            end.
Proof.
  induction script as [|a|a b script IH] using script_ind2;
    intros s f rest H; [discriminate H| |].
  - destruct a; try discriminate H. cbn [send_header] in H.
    destruct (would_block written errno); [discriminate H|].
    destruct (written =? strlen header); inversion H; subst;
      cbn [state_of calls emit CLOSE set_act act]; rewrite <- ?app_assoc;
      (eexists; split; [reflexivity|]); auto.
  - destruct a; try discriminate H. cbn [send_header] in H.
    destruct (would_block written errno).
    + destruct b; try discriminate H.
      destruct (num_ready <=? 0).
      { inversion H; subst.
        cbn [state_of calls emit CLOSE set_act act advance]; rewrite <- ?app_assoc.
        eexists; split; [reflexivity|]; auto. }
      match type of H with
      | (if ?c then _ else _) = _ => destruct c
      end.
      { inversion H; subst.
        cbn [state_of calls emit set_timeout_left set_act act advance];
          rewrite <- ?app_assoc.
        eexists; split; [reflexivity|]; auto. }
      apply IH in H as (cs & Hc & Hs & Hf). rewrite Hc.
      cbn [calls emit set_timeout_left advance]. rewrite <- !app_assoc.
      eexists. split; [reflexivity|]. split.
      * rewrite !existsb_app, Hs. reflexivity.
      * destruct f as [[] s1|v s1]; [|exact Hf].
        destruct Hf as [Ha Hcl]. split; [exact Ha|].
        rewrite !existsb_app, Hcl. reflexivity.
    + destruct (written =? strlen header); inversion H; subst;
        cbn [state_of calls emit CLOSE set_act act]; rewrite <- ?app_assoc;
        (eexists; split; [reflexivity|]); auto.
Qed.

Lemma send_body_calls (body : string) :
  ∀ (script : list sys_result) (s : istate) (f : iflow unit)
    (rest : list sys_result),
    send_body body s script = Some (f, rest) →
    ∃ cs, calls (state_of f) = calls s ++ cs
          ∧ existsb influx_is_setup cs = false
          ∧ match f with
            | Next _ s1 => act s1 = act s ∧ existsb influx_is_close cs = false
            | Return v _ => v = Returns 0
            end.
Proof.
  induction script as [|a|a b script IH] using script_ind2;
    intros s f rest H; [discriminate H| |].
  - destruct a; try discriminate H. cbn [send_body] in H.
    destruct (would_block written errno); [discriminate H|].
    destruct (written =? strlen body); inversion H; subst;
      cbn [state_of calls emit CLOSE set_act act]; rewrite <- ?app_assoc;
      (eexists; split; [reflexivity|]); auto.
  - destruct a; try discriminate H. cbn [send_body] in H.
    destruct (would_block written errno).
    + destruct b; try discriminate H.
      destruct (num_ready <=? 0).
      { inversion H; subst.
        cbn [state_of calls emit CLOSE set_act act advance]; rewrite <- ?app_assoc.
        eexists; split; [reflexivity|]; auto. }
      match type of H with
      | (if ?c then _ else _) = _ => destruct c
      end.
      { inversion H; subst.
        cbn [state_of calls emit set_timeout_left set_act act advance];
          rewrite <- ?app_assoc.
        eexists; split; [reflexivity|]; auto. }
      apply IH in H as (cs & Hc & Hs & Hf). rewrite Hc.
      cbn [calls emit set_timeout_left advance]. rewrite <- !app_assoc.
      eexists. split; [reflexivity|]. split.
      * rewrite !existsb_app, Hs. reflexivity.
      * destruct f as [[] s1|v s1]; [|exact Hf].
        destruct Hf as [Ha Hcl]. split; [exact Ha|].
        rewrite !existsb_app, Hcl. reflexivity.
    + destruct (written =? strlen body); inversion H; subst;
        cbn [state_of calls emit CLOSE set_act act]; rewrite <- ?app_assoc;
        (eexists; split; [reflexivity|]); auto.
Qed.

Lemma read_answer_calls :
  ∀ (script : list sys_result) (s : istate) (f : iflow string)
    (rest : list sys_result),
    read_answer s script = Some (f, rest) →
    ∃ cs, calls (state_of f) = calls s ++ cs
          ∧ existsb influx_is_setup cs = false
          ∧ match f with
            | Next _ s1 => act s1 = act s ∧ existsb influx_is_close cs = false
            | Return v _ => v = Returns 0
            end.
Proof.
  induction script as [|a|a b script IH] using script_ind2;
    intros s f rest H; [discriminate H| |].
  - destruct a; try discriminate H; cbn [read_answer] in H.
    + destruct (strlen (substring 0 128 data) >? 22); inversion H; subst;
        cbn [state_of calls emit CLOSE set_act act]; rewrite <- ?app_assoc;
        (eexists; split; [reflexivity|]); auto.
    + destruct (would_block (-1) errno); [discriminate H|].
      inversion H; subst.
      cbn [state_of calls emit CLOSE set_act act]; rewrite <- ?app_assoc.
      eexists; split; [reflexivity|]; auto.
  - destruct a; try discriminate H; cbn [read_answer] in H.
    + destruct (strlen (substring 0 128 data) >? 22); inversion H; subst;
        cbn [state_of calls emit CLOSE set_act act]; rewrite <- ?app_assoc;
        (eexists; split; [reflexivity|]); auto.
    + destruct (would_block (-1) errno).
      * destruct b; try discriminate H.
        destruct (num_ready <=? 0).
        { inversion H; subst.
          cbn [state_of calls emit CLOSE set_act act advance]; rewrite <- ?app_assoc.
          eexists; split; [reflexivity|]; auto. }
        apply IH in H as (cs & Hc & Hs & Hf). rewrite Hc.
        cbn [calls emit advance]. rewrite <- !app_assoc.
        eexists. split; [reflexivity|]. split.
        -- rewrite !existsb_app, Hs. reflexivity.
        -- destruct f as [answer s1|v s1]; [|exact Hf].
           destruct Hf as [Ha Hcl]. split; [exact Ha|].
           rewrite !existsb_app, Hcl. reflexivity.
      * inversion H; subst.
        cbn [state_of calls emit CLOSE set_act act]; rewrite <- ?app_assoc.
        eexists; split; [reflexivity|]; auto.
Qed.

(** The exchange sets nothing up; it returns 0 or 1 or faults, and when it
    returns 1 it has closed nothing and left [*action] alone. *)
Lemma exchange_calls (line : string) (s : istate) (script : list sys_result)
    (f : iflow unit) (rest : list sys_result) :
  exchange line s script = Some (f, rest) →
  ∃ cs v s', f = Return v s'
             ∧ calls s' = calls s ++ cs
             ∧ existsb influx_is_setup cs = false
             ∧ (v = Returns 0 ∨ v = Returns 1 ∨ v = Faults)
             ∧ (v = Returns 1 →
                act s' = act s ∧ existsb influx_is_close cs = false).
Proof.
  unfold exchange. intros H.
  match type of H with
  | context [send_header ?h ?s ?sc] =>
      destruct (send_header h s sc) as [[f1 script1]|] eqn:Hh
  end; [|discriminate H].
  apply send_header_calls in Hh as (cs1 & Hc1 & Hs1 & Hf1).
  destruct f1 as [[] s1|v1 s1]; cbn [andthen state_of] in H, Hc1.
  2:{ inversion H; subst. exists cs1, (Returns 0), s1. repeat split; auto; discriminate. }
  destruct Hf1 as [Ha1 Hcl1].
  match type of H with
  | context [send_body ?b ?s ?sc] =>
      destruct (send_body b s sc) as [[f2 script2]|] eqn:Hb
  end; [|discriminate H].
  apply send_body_calls in Hb as (cs2 & Hc2 & Hs2 & Hf2).
  destruct f2 as [[] s2|v2 s2]; cbn [andthen state_of] in H, Hc2.
  2:{ inversion H; subst. exists (cs1 ++ cs2), (Returns 0), s2.
      rewrite Hc2, Hc1, <- app_assoc, existsb_app, Hs1, Hs2.
      repeat split; auto; discriminate. }
  destruct Hf2 as [Ha2 Hcl2].
  match type of H with
  | context [read_answer ?s ?sc] =>
      destruct (read_answer s sc) as [[f3 script3]|] eqn:Hr
  end; [|discriminate H].
  apply read_answer_calls in Hr as (cs3 & Hc3 & Hs3 & Hf3).
  destruct f3 as [answer s3|v3 s3]; cbn [andthen state_of] in H, Hc3.
  2:{ inversion H; subst. exists (cs1 ++ cs2 ++ cs3), (Returns 0), s3.
      rewrite Hc3, Hc2, Hc1, <- !app_assoc, !existsb_app, Hs1, Hs2, Hs3.
      repeat split; auto; discriminate. }
  destruct Hf3 as [Ha3 Hcl3].
  destruct (128 <=? strlen answer).
  { inversion H; subst. eexists _, Faults, _. split; [reflexivity|].
    rewrite Hc3, Hc2, Hc1, <- !app_assoc. split; [reflexivity|].
    rewrite !existsb_app, Hs1, Hs2, Hs3.
    repeat split; auto; discriminate. }
  destruct (strncmp_eq 23 answer start_success); inversion H; subst.
  - eexists _, (Returns 1), _. split; [reflexivity|].
    cbn [calls emit act]. rewrite Hc3, Hc2, Hc1, <- !app_assoc.
    split; [reflexivity|].
    rewrite !existsb_app, Hs1, Hs2, Hs3, Hcl1, Hcl2, Hcl3.
    repeat split; auto; congruence.
  - eexists _, (Returns 0), _. split; [reflexivity|].
    cbn [calls emit act CLOSE set_act]. rewrite Hc3, Hc2, Hc1, <- !app_assoc.
    split; [reflexivity|].
    rewrite !existsb_app, Hs1, Hs2, Hs3.
    repeat split; auto; discriminate.
Qed.

(** A connect that goes through has closed nothing. *)
Lemma connect_phase_next (s : istate) (script : list sys_result)
    (s1 : istate) (rest : list sys_result) :
  connect_phase s script = Some (Next tt s1, rest) →
  ∃ cs, calls s1 = calls s ++ cs ∧ existsb influx_is_close cs = false.
Proof.
  intros H. unfold connect_phase in H.
  destruct script as [|[s_ret fam0| | | | | | | |] script]; try discriminate H.
  match type of H with
  | andthen ?r _ = _ => destruct r as [[[fam s0|v0 s0] script0]|] eqn:Hr
  end; cbn [andthen] in H; try discriminate H.
  assert (Hs0 : ∃ cs0, calls s0 = calls s ++ cs0
                       ∧ existsb influx_is_close cs0 = false).
  { destruct (s_ret =? 0).
    - destruct script as [|[|ok fam'| | | | | | |] script]; try discriminate Hr.
      destruct ok; cbn [negb] in Hr; inversion Hr; subst.
      cbn [calls emit]. rewrite <- app_assoc. eexists. split; reflexivity.
    - inversion Hr; subst. cbn [calls emit]. eexists. split; reflexivity. }
  destruct Hs0 as (cs0 & Hc0 & Hcl0). clear Hr.
  destruct script0 as [|[| |fd| | | | | |] script0]; try discriminate H.
  destruct (fd <? 0); [discriminate H|].
  destruct script0 as [|[| | |wfd| | | | |] script0]; try discriminate H.
  destruct script0 as [|[| | |rfd| | | | |] script0]; try discriminate H.
  destruct script0 as [|[| | | |c_ret errno| | | |] script0]; try discriminate H.
  destruct (c_ret =? 0).
  { inversion H; subst. cbn [calls emit set_act]. rewrite Hc0, <- !app_assoc.
    eexists. split; [reflexivity|]. rewrite !existsb_app, Hcl0. reflexivity. }
  destruct ((c_ret =? -1) && (errno =? EINPROGRESS)); [|discriminate H].
  destruct script0 as [|[| | | | |num_ready elapsed| | |] script0];
    try discriminate H.
  destruct (num_ready <=? 0); [discriminate H|].
  inversion H; subst.
  cbn [calls emit set_act set_timeout_left advance]. rewrite Hc0, <- !app_assoc.
  eexists. split; [reflexivity|]. rewrite !existsb_app, Hcl0. reflexivity.
Qed.

End InfluxCalls.

(** X3.  A call that returns 1 has closed no descriptor.  When a connection
    is open at entry, a call that ends issues none of the calls that set a
    connection up, and one that returns 1 leaves every field of [*action]
    as it found it, so that the next call finds the same connection. *)
Theorem influx_success_keeps_connection :
  ∀ (action : Influx.action_influx_t) (line : string) (now : Z)
    (script : list Influx.sys_result) (v : Z) (s' : Influx.istate),
    Influx.influx action line now script = Some (v, s') →
    (v = 1 → existsb influx_is_close (Influx.calls s') = false)
    ∧ (0 < Influx.conn_socket action →
       existsb influx_is_setup (Influx.calls s') = false
       ∧ (v = 1 → Influx.act s' = action)).
Proof.
  intros action line now script v s' H. apply influx_returns in H.
  unfold Influx.influx_outcome in H.
  destruct (Influx.entry action now script) as [[[[] s1|v1 s1] script1]|] eqn:He;
    cbn [andthen] in H; try discriminate H.
  - destruct (Influx.exchange line s1 script1) as [[f rest]|] eqn:Hx;
      [|discriminate H].
    apply exchange_calls in Hx as (cs & v2 & s2 & -> & Hc & Hs & Hv & H1).
    inversion H; subst. unfold Influx.entry in He.
    destruct (Z.leb_spec (Influx.conn_socket action) 0) as [Hle|Hgt].
    + apply connect_phase_next in He as (cs0 & Hc0 & Hcl0).
      split; [|lia]. intros ->. destruct (H1 eq_refl) as [_ Hcl].
      rewrite Hc, Hc0. cbn [Influx.calls].
      rewrite !existsb_app, Hcl0, Hcl. reflexivity.
    + inversion He; subst. cbn [Influx.calls Influx.act] in Hc, H1.
      split; [|intros _; split].
      * intros ->. destruct (H1 eq_refl) as [_ Hcl].
        rewrite Hc, existsb_app, Hcl. reflexivity.
      * rewrite Hc, existsb_app, Hs. reflexivity.
      * intros ->. now destruct (H1 eq_refl).
  - inversion H; subst. unfold Influx.entry in He.
    destruct (Z.leb_spec (Influx.conn_socket action) 0) as [Hle|Hgt];
      [|discriminate He].
    apply connect_phase_return in He as [Hv _]; [|exact Hle].
    inversion Hv; subst. split; [discriminate | lia].
Qed.

(** The run of [sample_endpoint] that C2 evaluates: one call, answered
    with 204, on the open connection. *)
Lemma influx_success_keeps_connection_witness :
  ∃ s', Influx.influx Influx.sample_endpoint Influx.sample_line 100
          [Influx.RWrite 100 0; Influx.RWrite 10 0;
           Influx.RReadData "HTTP/1.1 204 No Content"] = Some (1, s')
        ∧ existsb influx_is_close (Influx.calls s') = false
        ∧ existsb influx_is_setup (Influx.calls s') = false
        ∧ Influx.act s' = Influx.sample_endpoint.
Proof.
  eexists. split; [vm_compute; reflexivity|].
  match goal with
  | |- existsb _ (Influx.calls ?s) = _ ∧ _ =>
      destruct (influx_success_keeps_connection Influx.sample_endpoint
                  Influx.sample_line 100
                  [Influx.RWrite 100 0; Influx.RWrite 10 0;
                   Influx.RReadData "HTTP/1.1 204 No Content"] 1 s eq_refl)
        as [Hclose Hopen]
  end.
  destruct (Hopen eq_refl) as [Hsetup Hact].
  split; [exact (Hclose eq_refl)|]. split; [exact Hsetup | exact (Hact eq_refl)].
Defined.

(** ** [influx]: the classification of the answer *)

Section InfluxAnswer.
Import Influx.

Lemma substring_length (n : nat) (s : string) :
  String.length (substring 0 n s) = Nat.min n (String.length s).
Proof.
  revert n. induction s as [|c s IH]; intros [|n]; simpl; try reflexivity.
  now rewrite IH.
Qed.

Lemma prefix_length (b a : string) :
  String.prefix b a = true → (String.length b ≤ String.length a)%nat.
Proof.
  revert b. induction a as [|y a IH]; intros [|x b] H; simpl in *;
    try lia; try discriminate H.
  destruct (ascii_dec x y); [|discriminate H]. apply IH in H. lia.
Qed.

Lemma prefix_substring (n : nat) (b a : string) :
  (String.length b ≤ n)%nat →
  String.prefix b (substring 0 n a) = String.prefix b a.
Proof.
  revert n b. induction a as [|y a IH]; intros n b Hn.
  - destruct n; reflexivity.
  - destruct b as [|x b]; [destruct n; reflexivity|].
    destruct n as [|n]; [simpl in Hn; lia|]. simpl.
    destruct (ascii_dec x y); [|reflexivity].
    apply IH. simpl in Hn. lia.
Qed.

(** On a pattern without terminator, [strncmp] over the length of the
    pattern tests whether the pattern starts the other string. *)
Lemma strncmp_eq_prefix (b a : string) :
  nul_free b = true →
  strncmp_eq (String.length b) a b = String.prefix b a.
Proof.
  revert a. induction b as [|y b IH]; intros a Hb.
  - destruct a; reflexivity.
  - simpl in Hb. apply andb_true_iff in Hb as [Hy Hb].
    apply negb_true_iff in Hy.
    destruct a as [|x a]; simpl.
    + exact Hy.
    + destruct (ascii_dec y x) as [->|Hne].
      * rewrite Ascii.eqb_refl, Hy. now apply IH.
      * destruct (Ascii.eqb_spec x y); [congruence | reflexivity].
Qed.

Lemma send_body_full (body : string) (s : istate) (errno : Z)
    (rest : list sys_result) :
  send_body body s (RWrite (strlen body) errno :: rest)
  = Some (Next tt (emit (c_write (conn_socket (act s)) body) s), rest).
Proof.
  cbn [send_body]. unfold strlen at 1. rewrite would_block_full.
  fold (strlen body). now rewrite Z.eqb_refl.
Qed.

End InfluxAnswer.



(** ** [influx]: the budget and the clock *)

Section InfluxClock.
Import Influx.

Lemma Qle_bool_sub_zero (q : Q) :
  (0 < q)%Q → Qle_bool (q - inject_Z 0) 0 = false.
Proof.
  intros Hq. destruct (Qle_bool (q - inject_Z 0) 0) eqn:E; [|reflexivity].
  apply Qle_bool_iff in E. revert Hq E.
  unfold Qlt, Qle, Qminus, Qplus, Qopp, inject_Z; simpl. nia.
Qed.

Lemma Qlt_sub_zero (q : Q) : (0 < q)%Q → (0 < q - inject_Z 0)%Q.
Proof.
  unfold Qlt, Qminus, Qplus, Qopp, inject_Z; simpl. nia.
Qed.

(** Waits during which the clock of [time] does not tick cost nothing. *)
Lemma within_budget_zeros (k : nat) :
  ∀ q : Q, (0 < q)%Q → within_budget q (repeat 0 k) = true.
Proof.
  induction k as [|k IH]; intros q Hq; [reflexivity|].
  cbn [repeat within_budget]. rewrite Qle_bool_sub_zero by exact Hq.
  cbn [negb andb]. apply IH. now apply Qlt_sub_zero.
Qed.

Lemma spend_zeros (k : nat) : ∀ q : Q, (spend q (repeat 0%Z k) == q)%Q.
Proof.
  induction k as [|k IH]; intros q; [reflexivity|].
  cbn [repeat spend fold_left]. fold (spend (q - inject_Z 0)%Q (repeat 0 k)).
  rewrite IH. unfold Qeq, Qminus, Qplus, Qopp, inject_Z; simpl. nia.
Qed.

End InfluxClock.

(** X5.  [time] counts whole seconds: a wait during which it does not tick
    is deducted as zero.  After any number of attempts to write the header
    and the body that would block, each followed by such a wait, a call with
    a positive budget still succeeds on a 204 answer that leaves room for
    the terminator in [answer], with its budget intact. *)
Theorem influx_subsecond_waits_free :
  ∀ (action : Influx.action_influx_t) (line : string) (now : Z)
    (script : list Influx.sys_result) (s : Influx.istate)
    (k1 k2 : nat) (data : string) (e1 e2 : Z) (rest : list Influx.sys_result),
    let body := Influx.request_body line in
    let header := Influx.request_header (Influx.act s) body in
    (0 < Influx.timeout_left s)%Q →
    String.prefix Influx.start_success data = true →
    strlen data < 128 →
    Influx.entry action now script
    = Some (Next tt s,
            Influx.retries (repeat 0 k1) ++ Influx.RWrite (strlen header) e1
              :: Influx.retries (repeat 0 k2) ++ Influx.RWrite (strlen body) e2
              :: Influx.RReadData data :: rest) →
    ∃ s', Influx.influx action line now script = Some (1, s')
          ∧ (Influx.timeout_left s' == Influx.timeout_left s)%Q
          ∧ Influx.writes_of s'
            = Influx.writes_of s
              ++ repeat (Influx.c_write (Influx.conn_socket (Influx.act s)) header)
                   (S k1)
              ++ repeat (Influx.c_write (Influx.conn_socket (Influx.act s)) body)
                   (S k2).
Proof.
  intros action line now script s k1 k2 data e1 e2 rest body header
    Hq Hpre Hsmall Hentry.
  set (fd := Influx.conn_socket (Influx.act s)).
  destruct (after_retries_facts header (repeat 0 k1) s) as (Ha & Ht & _ & Hws).
  set (s1 := Influx.emit (Influx.c_write fd header)
               (Influx.after_retries header (repeat 0 k1) s)).
  destruct (after_retries_facts body (repeat 0 k2) s1) as (Ha2 & Ht2 & _ & Hws2).
  assert (Hs1 : Influx.act s1 = Influx.act s) by (subst s1; exact Ha).
  assert (Hq1 : (0 < Influx.timeout_left s1)%Q).
  { subst s1. cbn [Influx.timeout_left Influx.emit]. rewrite Ht.
    now rewrite spend_zeros. }
  unfold Influx.influx, Influx.influx_outcome. rewrite Hentry.
  cbn [andthen].
  unfold Influx.exchange. fold body. fold header.
  rewrite send_header_retries by (now apply within_budget_zeros).
  rewrite send_header_full. cbn [andthen]. rewrite Ha. fold fd. fold s1.
  rewrite send_body_retries by (now apply within_budget_zeros).
  rewrite send_body_full. cbn [andthen]. rewrite Ha2, Hs1. fold fd.
  cbn [Influx.read_answer].
  assert (Hp : String.prefix Influx.start_success (substring 0 128 data) = true)
    by (rewrite prefix_substring; [exact Hpre | vm_compute; lia]).
  assert (Hlen : (strlen (substring 0 128 data) >? 22) = true).
  { pose proof (prefix_length _ _ Hp) as Hl. unfold strlen.
    change (String.length Influx.start_success) with 23%nat in Hl.
    apply Z.gtb_lt. lia. }
  assert (Hfits : (128 <=? strlen (substring 0 128 data)) = false).
  { apply Z.leb_gt. unfold strlen in *. rewrite substring_length. lia. }
  rewrite Hlen. cbn [andthen]. rewrite Hfits.
  change (strncmp_eq 23) with (strncmp_eq (String.length Influx.start_success)).
  rewrite strncmp_eq_prefix by reflexivity. rewrite Hp.
  eexists. split; [reflexivity|]. split.
  - cbn [Influx.timeout_left Influx.emit]. rewrite Ht2.
    rewrite spend_zeros. subst s1. cbn [Influx.timeout_left Influx.emit].
    rewrite Ht. apply spend_zeros.
  - rewrite !writes_of_emit. cbn [Influx.is_write]. rewrite !app_nil_r.
    rewrite Hws2, Hs1. fold fd. subst s1.
    rewrite writes_of_emit, Hws. fold fd. cbn [Influx.is_write].
    rewrite !repeat_length, <- !app_assoc, repeat_snoc.
    rewrite (app_assoc (repeat _ k1)), repeat_snoc. reflexivity.
Qed.

(** Three blocked attempts on the header and two on the body, no tick. *)
Lemma influx_subsecond_waits_free_witness :
  ∃ s', Influx.influx Influx.sample_endpoint Influx.sample_line 100
          (Influx.retries [0; 0; 0] ++ Influx.RWrite 100 0
             :: Influx.retries [0; 0] ++ Influx.RWrite 10 0
             :: [Influx.RReadData "HTTP/1.1 204 No Content"]) = Some (1, s')
        ∧ (Influx.timeout_left s' == 1)%Q
        ∧ Influx.writes_of s'
          = repeat (Influx.c_write 5 Influx.sample_header) 4
            ++ repeat (Influx.c_write 5 "cpu load=1") 3.
Proof.
  apply (influx_subsecond_waits_free Influx.sample_endpoint Influx.sample_line
           100 _ Influx.sample_start 3 2 "HTTP/1.1 204 No Content" 0 0 []).
  - reflexivity.
  - reflexivity.
  - reflexivity.
  - reflexivity.
Defined.

(** ** [influx]: the 256 bytes of [header] *)

Section HeaderBuffer.

Lemma substring_all (n : nat) (s : string) :
  (String.length s ≤ n)%nat → substring 0 n s = s.
Proof.
  revert n. induction s as [|c s IH]; intros [|n] H; simpl in *;
    try reflexivity; try lia.
  f_equal. apply IH. lia.
Qed.

Lemma substring_is_prefix (n : nat) (s : string) :
  String.prefix (substring 0 n s) s = true.
Proof.
  revert n. induction s as [|c s IH]; intros [|n]; simpl; try reflexivity.
  destruct (ascii_dec c c); [apply IH | congruence].
Qed.

End HeaderBuffer.

(** X6.  The request head that is written is the head that the format
    describes, cut to 255 bytes: it is the whole head when that fits, and
    its first 255 bytes otherwise, without the rest of the head. *)
Theorem request_header_bounded :
  ∀ (action : Influx.action_influx_t) (body : string),
    strlen (Influx.request_header action body)
    = Z.min 255 (strlen (request_text action body))
    ∧ String.prefix (Influx.request_header action body)
        (request_text action body) = true
    ∧ (strlen (request_text action body) ≤ 255 →
       Influx.request_header action body = request_text action body)
    ∧ (255 < strlen (request_text action body) →
       Influx.request_header action body ≠ request_text action body).
Proof.
  intros action body.
  assert (Hdef : Influx.request_header action body
                 = substring 0 255 (request_text action body)) by reflexivity.
  assert (Hlen : strlen (Influx.request_header action body)
                 = Z.min 255 (strlen (request_text action body))).
  { rewrite Hdef. unfold strlen. rewrite substring_length. lia. }
  split; [exact Hlen|]. split; [rewrite Hdef; apply substring_is_prefix|]. split.
  - intros Hfit. rewrite Hdef. apply substring_all. unfold strlen in Hfit. lia.
  - intros Hlong Heq. rewrite Heq in Hlen. lia.
Qed.

(** With a token of 250 bytes the head is 339 bytes long: 255 are written. *)
Lemma request_header_bounded_witness :
  strlen (request_text long_token_endpoint "cpu load=1") = 339
  ∧ strlen (Influx.request_header long_token_endpoint "cpu load=1") = 255
  ∧ Influx.request_header long_token_endpoint "cpu load=1"
    ≠ request_text long_token_endpoint "cpu load=1"
  ∧ Influx.request_header Influx.sample_endpoint "cpu load=1"
    = request_text Influx.sample_endpoint "cpu load=1".
Proof.
  destruct (request_header_bounded long_token_endpoint "cpu load=1")
    as (Hlen & _ & _ & Hlong).
  destruct (request_header_bounded Influx.sample_endpoint "cpu load=1")
    as (_ & _ & Hfit & _).
  split; [reflexivity|]. split; [exact Hlen|]. split.
  - apply Hlong. reflexivity.
  - apply Hfit. discriminate.
Defined.

(** ** [influx]: a connect that outlasts the budget *)

Section SlowConnect.


End SlowConnect.



(** ** [influx]: what every run keeps *)

(** A short write of the header: the call fails with the connection field
    cleared. *)
Lemma influx_failure_clears_or_budget_witness :
  ∃ s', Influx.influx Influx.sample_endpoint Influx.sample_line 100
          [Influx.RWrite 40 0] = Some (0, s')
        ∧ (Influx.cleared (Influx.act s') = true
           ∨ last (Influx.calls s') = Some Influx.budget_log).
Proof.
  eexists. split; [vm_compute; reflexivity|].
  match goal with
  | |- Influx.cleared (Influx.act ?s) = _ ∨ _ =>
      apply (influx_failure_clears_or_budget Influx.sample_endpoint
               Influx.sample_line 100 [Influx.RWrite 40 0] s)
  end.
  reflexivity.
Defined.

(** The budget of one second after three seconds of waits. *)
Lemma influx_budget_never_grows_witness :
  ∃ s', Influx.influx Influx.sample_endpoint Influx.sample_line 100
          [Influx.RWrite (-1) EAGAIN; Influx.REpollWait 1 3] = Some (0, s')
        ∧ (Influx.timeout_left s' <= 1)%Q.
Proof.
  eexists. split; [vm_compute; reflexivity|].
  match goal with
  | |- (Influx.timeout_left ?s <= _)%Q =>
      apply (influx_budget_never_grows Influx.sample_endpoint Influx.sample_line
               100 [Influx.RWrite (-1) EAGAIN; Influx.REpollWait 1 3] 0 s)
  end.
  - repeat constructor. discriminate.
  - reflexivity.
Defined.

(** ** [run_command]: a poll that fails, and what the child executes *)

(** X8.  A poll that returns neither 0 nor the child's pid, as [waitpid]
    does on error, ends the polling like the child's exit: the pipe is
    read to its end and closed, no signal is sent, and 0 is returned. *)
Theorem run_command_wait_error :
  ∀ (calc : RunCommand.timespec → RunCommand.timespec → Z)
    (db : gmap string passwd) (cmd : RunCommand.action_cmd_t)
    (timeout_ms : Z) (actual_command : string) (uid rfd wfd pid : Z)
    (start : RunCommand.timespec) (polls : list (Z * RunCommand.timespec))
    (res wstatus : Z) (chunks : list Z) (last : Z)
    (rest : list RunCommand.sys_result),
    0 < pid → res ≠ 0 → res ≠ pid →
    Forall (RunCommand.in_time calc start timeout_ms) polls →
    Forall (λ n, 0 < n) chunks → last ≤ 0 →
    ∃ s, RunCommand.run_command calc db cmd timeout_ms actual_command uid
           (RunCommand.RPipe 0 rfd wfd :: RunCommand.RFork pid
              :: RunCommand.RClock start
              :: RunCommand.pending polls
              ++ RunCommand.RWaitpid res wstatus
              :: RunCommand.output chunks ++ RunCommand.RRead last :: rest)
         = Some (RunCommand.Returns 0, s)
         ∧ RunCommand.calls s
           = [RunCommand.c_pipe; RunCommand.c_fork; RunCommand.c_close wfd;
              RunCommand.c_clock_gettime]
             ++ RunCommand.poll_calls pid (length polls)
             ++ [RunCommand.c_waitpid pid WNOHANG;
                 RunCommand.c_log LDebug "Command output: "]
             ++ RunCommand.read_calls rfd (length chunks)
             ++ [RunCommand.c_read rfd (RunCommand.buf_size - 1);
                 RunCommand.c_log LDebug ""; RunCommand.c_close rfd].
Proof.
  intros calc db cmd timeout_ms actual_command uid rfd wfd pid start polls
    res wstatus chunks last rest Hpid Hres Hne Hin Hpos Hlast.
  unfold RunCommand.run_command, RunCommand.parent.
  cbn [negb Z.eqb].
  destruct (Z.ltb_spec pid 0) as [?|_]; [lia|].
  destruct (Z.eqb_spec pid 0) as [?|_]; [lia|].
  rewrite wait_child_pending by exact Hin.
  cbn [RunCommand.wait_child].
  destruct (Z.eqb_spec res 0) as [?|_]; [contradiction|].
  cbn [andthen]. rewrite drain_output by assumption.
  cbn [andthen].
  destruct (Z.eqb_spec res pid) as [?|_]; [contradiction|].
  eexists. split; [reflexivity|].
  cbn [RunCommand.calls RunCommand.emit RunCommand.add_calls].
  rewrite <- !app_assoc. reflexivity.
Qed.

(** The second poll fails with -1. *)
Lemma run_command_wait_error_witness :
  ∃ s, RunCommand.run_command RunCommand.calculate_difference_ms_spec
         RunCommand.accounts (RunCommand.cmd_as "daemon") 1000
         "systemctl restart wg" 0
         [RunCommand.RPipe 0 3 4; RunCommand.RFork 42;
          RunCommand.RClock (RunCommand.at_ms 0);
          RunCommand.RWaitpid 0 0; RunCommand.RClock (RunCommand.at_ms 100);
          RunCommand.RWaitpid (-1) 0; RunCommand.RRead 0]
       = Some (RunCommand.Returns 0, s)
       ∧ RunCommand.calls s
         = [RunCommand.c_pipe; RunCommand.c_fork; RunCommand.c_close 4;
            RunCommand.c_clock_gettime;
            RunCommand.c_waitpid 42 WNOHANG; RunCommand.c_usleep 100000;
            RunCommand.c_clock_gettime;
            RunCommand.c_waitpid 42 WNOHANG;
            RunCommand.c_log LDebug "Command output: ";
            RunCommand.c_read 3 31; RunCommand.c_log LDebug "";
            RunCommand.c_close 3].
Proof.
  apply (run_command_wait_error RunCommand.calculate_difference_ms_spec
           RunCommand.accounts (RunCommand.cmd_as "daemon") 1000
           "systemctl restart wg" 0 3 4 42 (RunCommand.at_ms 0)
           [(0, RunCommand.at_ms 100)] (-1) 0 [] 0 []).
  - reflexivity.
  - discriminate.
  - discriminate.
  - repeat constructor.
  - constructor.
  - discriminate.
Defined.

Section RunNever.
Import RunCommand.

Variable calc : timespec → timespec → Z.

Lemma wait_child_no_wait_error (pid timeout_ms : Z) (start : timespec) :
  ∀ (script : list sys_result) (s : pstate) (f : pflow Z)
    (rest : list sys_result),
    wait_child calc pid timeout_ms start s script = Some (f, rest) →
    ∃ cs, calls (state_of f) = calls s ++ cs
          ∧ existsb is_wait_error_log cs = false.
Proof.
  intros script. remember (length script) as n eqn:Hn.
  revert script Hn.
  induction n as [n IH] using lt_wf_ind. intros script Hn s f rest H.
  destruct script as [|[| | | | |res wstatus|] script]; try discriminate H.
  cbn [wait_child] in H.
  destruct (Z.eqb_spec res 0) as [->|Hres].
  - cbn [Z.ltb Z.compare] in H.
    destruct script as [|[| | | |now| |] script]; try discriminate H.
    destruct (to_uint32 (calc start now) >=? timeout_ms).
    + destruct script as [|[| | | | |r st|] script]; try discriminate H.
      inversion H; subst. cbn [state_of calls emit].
      rewrite <- !app_assoc. eexists. split; reflexivity.
    + apply IH with (m := length script) in H; [|simpl in Hn; lia|reflexivity].
      destruct H as (cs & Hc & Hcs). rewrite Hc. cbn [calls emit].
      rewrite <- !app_assoc. eexists. split; [reflexivity|].
      rewrite !existsb_app, Hcs. reflexivity.
  - inversion H; subst. cbn [state_of calls emit].
    eexists. split; reflexivity.
Qed.

Lemma drain_no_wait_error (rfd : Z) :
  ∀ (script : list sys_result) (s : pstate) (f : pflow unit)
    (rest : list sys_result),
    drain rfd s script = Some (f, rest) →
    ∃ cs, calls (state_of f) = calls s ++ cs
          ∧ existsb is_wait_error_log cs = false.
Proof.
  induction script as [|r script IH]; intros s f rest H; [discriminate H|].
  destruct r; try discriminate H. cbn [drain] in H.
  destruct (bytes_read >? 0).
  - apply IH in H as (cs & Hc & Hcs). rewrite Hc. cbn [calls emit].
    rewrite <- !app_assoc. eexists. split; [reflexivity|].
    rewrite !existsb_app, Hcs. reflexivity.
  - inversion H; subst. cbn [state_of calls emit].
    eexists. split; reflexivity.
Qed.

Lemma child_no_wait_error (db : gmap string passwd) (cmd : action_cmd_t)
    (actual_command : string) (wfd : Z) (s : pstate)
    (script rest : list sys_result) (f : pflow unit) :
  child db cmd actual_command wfd s script = Some (f, rest) →
  ∃ cs, calls (state_of f) = calls s ++ cs
        ∧ existsb is_wait_error_log cs = false.
Proof.
  unfold child. intros H.
  destruct (user cmd) as [name|].
  - destruct (db !! name) as [a|].
    + destruct script as [|[| |ret| | | |] script]; try discriminate H.
      cbn [andthen] in H.
      destruct script as [|[| | |ok| | |] script]; try discriminate H.
      destruct ok, (ret =? 0); inversion H; subst;
        cbn [state_of calls emit set_euid]; rewrite <- !app_assoc;
        (eexists; split; [reflexivity | reflexivity]).
    + cbn [andthen] in H. inversion H; subst.
      cbn [state_of calls emit]. rewrite <- !app_assoc.
      eexists. split; reflexivity.
  - cbn [andthen] in H.
    destruct script as [|[| | |ok| | |] script]; try discriminate H.
    destruct ok; inversion H; subst;
      cbn [state_of calls emit]; rewrite <- ?app_assoc;
      (eexists; split; [reflexivity | reflexivity]).
Qed.

End RunNever.

(** X9.  The branch of line 184 sits inside the loop that runs only while
    [waitpid] returned 0: no run of [run_command] logs
    [Unable to wait for pid]. *)
Theorem run_command_wait_error_never_logged :
  ∀ (calc : RunCommand.timespec → RunCommand.timespec → Z)
    (db : gmap string passwd) (cmd : RunCommand.action_cmd_t)
    (timeout_ms : Z) (actual_command : string) (uid : Z)
    (script : list RunCommand.sys_result)
    (o : RunCommand.outcome) (s : RunCommand.pstate),
    RunCommand.run_command calc db cmd timeout_ms actual_command uid script
    = Some (o, s) →
    existsb is_wait_error_log (RunCommand.calls s) = false.
Proof.
  intros calc db cmd timeout_ms actual_command uid script o s H.
  unfold RunCommand.run_command in H.
  destruct script as [|[ret rfd wfd| | | | | |] script]; try discriminate H.
  destruct (negb (ret =? 0)); [inversion H; reflexivity|].
  destruct script as [|[|pid| | | | |] script]; try discriminate H.
  destruct (pid <? 0); [inversion H; reflexivity|].
  destruct (pid =? 0).
  - match type of H with
    | match ?c with _ => _ end = _ => destruct c as [[fl rest]|] eqn:Hc
    end; [|discriminate H].
    apply child_no_wait_error in Hc as (cs & Hcalls & Hcs).
    destruct fl as [[] s1|o1 s1]; [discriminate H|].
    inversion H; subst. cbn [state_of] in Hcalls. rewrite Hcalls.
    rewrite existsb_app, Hcs. reflexivity.
  - unfold RunCommand.parent in H.
    destruct script as [|[| | | |start| |] script]; try discriminate H.
    match type of H with
    | context [RunCommand.wait_child ?a ?b ?c ?d ?e ?f] =>
        destruct (RunCommand.wait_child a b c d e f) as [[fl rest]|] eqn:Hw
    end; [|discriminate H].
    apply wait_child_no_wait_error in Hw as (cs1 & Hcalls1 & Hcs1).
    destruct fl as [res s1|o1 s1]; cbn [andthen state_of] in H, Hcalls1.
    + match type of H with
      | context [RunCommand.drain ?a ?b ?c] =>
          destruct (RunCommand.drain a b c) as [[fl rest']|] eqn:Hd
      end; [|discriminate H].
      apply drain_no_wait_error in Hd as (cs2 & Hcalls2 & Hcs2).
      destruct fl as [[] s2|o2 s2]; cbn [andthen state_of] in H, Hcalls2;
        inversion H; subst;
        cbn [RunCommand.calls RunCommand.emit] in Hcalls2 |- *;
        rewrite Hcalls2, Hcalls1; cbn [RunCommand.calls RunCommand.emit];
        rewrite !existsb_app, Hcs1, Hcs2; reflexivity.
    + inversion H; subst. rewrite Hcalls1.
      rewrite !existsb_app, Hcs1. reflexivity.
Qed.

(** The run in which the second poll fails with -1. *)
Lemma run_command_wait_error_never_logged_witness :
  existsb is_wait_error_log
    [RunCommand.c_pipe; RunCommand.c_fork; RunCommand.c_close 4;
     RunCommand.c_clock_gettime;
     RunCommand.c_waitpid 42 WNOHANG; RunCommand.c_usleep 100000;
     RunCommand.c_clock_gettime;
     RunCommand.c_waitpid 42 WNOHANG;
     RunCommand.c_log LDebug "Command output: ";
     RunCommand.c_read 3 31; RunCommand.c_log LDebug "";
     RunCommand.c_close 3] = false.
Proof.
  apply (run_command_wait_error_never_logged
           RunCommand.calculate_difference_ms_spec RunCommand.accounts
           (RunCommand.cmd_as "daemon") 1000 "systemctl restart wg" 0
           [RunCommand.RPipe 0 3 4; RunCommand.RFork 42;
            RunCommand.RClock (RunCommand.at_ms 0);
            RunCommand.RWaitpid 0 0; RunCommand.RClock (RunCommand.at_ms 100);
            RunCommand.RWaitpid (-1) 0; RunCommand.RRead 0]
           (RunCommand.Returns 0)
           {| RunCommand.euid := 0;
              RunCommand.calls :=
                [RunCommand.c_pipe; RunCommand.c_fork; RunCommand.c_close 4;
                 RunCommand.c_clock_gettime;
                 RunCommand.c_waitpid 42 WNOHANG; RunCommand.c_usleep 100000;
                 RunCommand.c_clock_gettime;
                 RunCommand.c_waitpid 42 WNOHANG;
                 RunCommand.c_log LDebug "Command output: ";
                 RunCommand.c_read 3 31; RunCommand.c_log LDebug "";
                 RunCommand.c_close 3] |}).
  vm_compute. reflexivity.
Defined.

(** X10.  The only program that [run_command] ever executes is the shell,
    on the command it was given, and in the child only.  Its user id is
    the caller's when no user is configured; with a configured user it is
    the account's when [setuid] returned 0, and still the caller's when
    [setuid] failed. *)
Theorem run_command_execs_only_shell :
  ∀ (calc : RunCommand.timespec → RunCommand.timespec → Z)
    (db : gmap string passwd) (cmd : RunCommand.action_cmd_t)
    (timeout_ms : Z) (actual_command : string) (uid : Z)
    (script : list RunCommand.sys_result)
    (uid' : Z) (path : string) (argv : list string) (s : RunCommand.pstate),
    RunCommand.run_command calc db cmd timeout_ms actual_command uid script
    = Some (RunCommand.Execs uid' path argv, s) →
    path = "/bin/sh"%string
    ∧ argv = ["sh"; "-c"; actual_command]%string
    ∧ ∃ rfd wfd rest,
        match RunCommand.user cmd with
        | None =>
            script = RunCommand.RPipe 0 rfd wfd :: RunCommand.RFork 0
                       :: RunCommand.RExecl true :: rest
            ∧ uid' = uid
        | Some name =>
            ∃ a ret,
              db !! name = Some a
              ∧ script = RunCommand.RPipe 0 rfd wfd :: RunCommand.RFork 0
                           :: RunCommand.RSetuid ret
                           :: RunCommand.RExecl true :: rest
              ∧ uid' = if ret =? 0 then pw_uid a else uid
        end.
Proof.
  intros calc db cmd timeout_ms actual_command uid script uid' path argv s H.
  unfold RunCommand.run_command in H.
  destruct script as [|[ret rfd wfd| | | | | |] script]; try discriminate H.
  destruct (Z.eqb_spec ret 0) as [->|_]; cbn [negb] in H; [|discriminate H].
  destruct script as [|[|pid| | | | |] script]; try discriminate H.
  destruct (pid <? 0); [discriminate H|].
  destruct (Z.eqb_spec pid 0) as [->|Hne].
  - unfold RunCommand.child in H.
    destruct (RunCommand.user cmd) as [name|].
    + destruct (db !! name) as [a|] eqn:Hdb; [|discriminate H].
      destruct script as [|[| |r| | | |] script]; try discriminate H.
      cbn [andthen] in H.
      destruct script as [|[| | |ok| | |] script]; try discriminate H.
      destruct ok; [|discriminate H].
      destruct (r =? 0) eqn:Hr; inversion H; subst;
        (split; [reflexivity|]); (split; [reflexivity|]);
        exists rfd, wfd, script, a, r; rewrite Hr;
        (split; [reflexivity|]); split; reflexivity.
    + cbn [andthen] in H.
      destruct script as [|[| | |ok| | |] script]; try discriminate H.
      destruct ok; [|discriminate H].
      inversion H; subst. split; [reflexivity|]. split; [reflexivity|].
      exists rfd, wfd, script. split; reflexivity.
  - unfold RunCommand.parent in H.
    destruct script as [|[| | | |start| |] script]; try discriminate H.
    match type of H with
    | context [RunCommand.wait_child ?a ?b ?c ?d ?e ?f] =>
        destruct (RunCommand.wait_child a b c d e f) as [[fl rest]|] eqn:Hw
    end; [|discriminate H].
    apply wait_child_inv in Hw.
    destruct fl as [res s1|o s1]; cbn [andthen] in H.
    + match type of H with
      | context [RunCommand.drain ?a ?b ?c] =>
          destruct (RunCommand.drain a b c) as [[fl rest']|] eqn:Hd
      end; [|discriminate H].
      apply drain_inv in Hd as [s2 ->]. cbn [andthen] in H. discriminate H.
    + subst o. discriminate H.
Qed.

(** The child of a run in which [setuid] succeeds, and of one in which it
    fails. *)
Lemma run_command_execs_only_shell_witness :
  (("/bin/sh" = "/bin/sh")%string
   ∧ ["sh"; "-c"; "systemctl restart wg"]%string
     = ["sh"; "-c"; "systemctl restart wg"]%string
   ∧ ∃ rfd wfd rest a ret,
       RunCommand.accounts !! "daemon"%string = Some a
       ∧ [RunCommand.RPipe 0 3 4; RunCommand.RFork 0; RunCommand.RSetuid 0;
          RunCommand.RExecl true]
         = RunCommand.RPipe 0 rfd wfd :: RunCommand.RFork 0
             :: RunCommand.RSetuid ret :: RunCommand.RExecl true :: rest
       ∧ 2 = if ret =? 0 then pw_uid a else 1000)
  ∧ (("/bin/sh" = "/bin/sh")%string
     ∧ ["sh"; "-c"; "systemctl restart wg"]%string
       = ["sh"; "-c"; "systemctl restart wg"]%string
     ∧ ∃ rfd wfd rest a ret,
         RunCommand.accounts !! "daemon"%string = Some a
         ∧ [RunCommand.RPipe 0 3 4; RunCommand.RFork 0;
            RunCommand.RSetuid (-1); RunCommand.RExecl true]
           = RunCommand.RPipe 0 rfd wfd :: RunCommand.RFork 0
               :: RunCommand.RSetuid ret :: RunCommand.RExecl true :: rest
         ∧ 1000 = if ret =? 0 then pw_uid a else 1000).
Proof.
  split.
  - apply (run_command_execs_only_shell
             RunCommand.calculate_difference_ms_spec
             RunCommand.accounts (RunCommand.cmd_as "daemon") 1000
             "systemctl restart wg" 1000
             [RunCommand.RPipe 0 3 4; RunCommand.RFork 0; RunCommand.RSetuid 0;
              RunCommand.RExecl true]
             2 "/bin/sh" ["sh"; "-c"; "systemctl restart wg"]%string
             {| RunCommand.euid := 2;
                RunCommand.calls :=
                  [RunCommand.c_pipe; RunCommand.c_fork; RunCommand.c_dup2 4 1;
                   RunCommand.c_getpwnam "daemon"; RunCommand.c_setuid 2;
                   RunCommand.c_execl "/bin/sh"
                     ["sh"; "-c"; "systemctl restart wg"]%string] |}).
    vm_compute. reflexivity.
  - apply (run_command_execs_only_shell
             RunCommand.calculate_difference_ms_spec
             RunCommand.accounts (RunCommand.cmd_as "daemon") 1000
             "systemctl restart wg" 1000
             [RunCommand.RPipe 0 3 4; RunCommand.RFork 0;
              RunCommand.RSetuid (-1); RunCommand.RExecl true]
             1000 "/bin/sh" ["sh"; "-c"; "systemctl restart wg"]%string
             {| RunCommand.euid := 1000;
                RunCommand.calls :=
                  [RunCommand.c_pipe; RunCommand.c_fork; RunCommand.c_dup2 4 1;
                   RunCommand.c_getpwnam "daemon"; RunCommand.c_setuid 2;
                   RunCommand.c_execl "/bin/sh"
                     ["sh"; "-c"; "systemctl restart wg"]%string] |}).
    vm_compute. reflexivity.
Defined.

(** X22.  The parent closes the write end of the pipe in every run, and
    the read end exactly when it did not kill the child: a call that ends
    at the deadline leaves the read end open. *)
Theorem run_command_read_end_closed_unless_killed :
  ∀ (calc : RunCommand.timespec → RunCommand.timespec → Z)
    (db : gmap string passwd) (cmd : RunCommand.action_cmd_t)
    (timeout_ms : Z) (actual_command : string) (uid rfd wfd pid : Z)
    (rest : list RunCommand.sys_result)
    (o : RunCommand.outcome) (s : RunCommand.pstate),
    0 < pid → rfd ≠ wfd →
    RunCommand.run_command calc db cmd timeout_ms actual_command uid
      (RunCommand.RPipe 0 rfd wfd :: RunCommand.RFork pid :: rest)
    = Some (o, s) →
    existsb (closes_fd wfd) (RunCommand.calls s) = true
    ∧ existsb (closes_fd rfd) (RunCommand.calls s)
      = negb (existsb RunCommand.is_kill (RunCommand.calls s)).
Proof.
  intros calc db cmd timeout_ms actual_command uid rfd wfd pid rest o s
    Hpid Hne H.
  unfold RunCommand.run_command in H. cbn [negb Z.eqb] in H.
  destruct (Z.ltb_spec pid 0) as [?|_]; [lia|].
  destruct (Z.eqb_spec pid 0) as [?|_]; [lia|].
  unfold RunCommand.parent in H.
  destruct rest as [|[| | | |start| |] script]; try discriminate H.
  match type of H with
  | context [RunCommand.wait_child ?a ?b ?c ?d ?e ?f] =>
      destruct (RunCommand.wait_child a b c d e f) as [[fl rest]|] eqn:Hw
  end; [|discriminate H].
  pose proof (wait_child_descriptors calc wfd _ _ _ _ _ _ _ Hw)
    as (cs1 & Hcalls1 & _ & Hk1).
  pose proof (wait_child_descriptors calc rfd _ _ _ _ _ _ _ Hw)
    as (cs1' & Hcalls1' & Hcl1 & _).
  rewrite Hcalls1 in Hcalls1'. apply app_inv_head in Hcalls1'. subst cs1'.
  assert (Hw_rfd : (wfd =? rfd) = false) by (apply Z.eqb_neq; congruence).
  destruct fl as [res s1|o1 s1]; cbn [andthen state_of] in H, Hcalls1.
  - match type of H with
    | context [RunCommand.drain ?a ?b ?c] =>
        destruct (RunCommand.drain a b c) as [[fl rest']|] eqn:Hd
    end; [|discriminate H].
    pose proof (drain_descriptors rfd _ _ _ _ _ Hd) as (cs2 & Hcalls2 & _ & Hk2).
    apply drain_inv in Hd as [s2 ->]. cbn [andthen state_of] in H, Hcalls2.
    inversion H; subst.
    cbn [RunCommand.calls RunCommand.emit] in Hcalls2 |- *.
    rewrite Hcalls2, Hcalls1. cbn [RunCommand.calls RunCommand.emit].
    rewrite !existsb_app, Hk1, Hk2.
    cbn [existsb closes_fd RunCommand.is_kill app orb negb].
    rewrite !Z.eqb_refl, ?orb_true_r. split; reflexivity.
  - inversion H; subst. rewrite Hcalls1.
    cbn [RunCommand.calls RunCommand.emit].
    rewrite !existsb_app, Hk1, Hcl1.
    cbn [existsb closes_fd RunCommand.is_kill app orb negb].
    rewrite Z.eqb_refl, Hw_rfd, ?orb_true_r. split; reflexivity.
Qed.

(** The child is still running when the deadline of one second passes. *)
Lemma run_command_read_end_closed_unless_killed_witness :
  existsb (closes_fd 4)
    [RunCommand.c_pipe; RunCommand.c_fork; RunCommand.c_close 4;
     RunCommand.c_clock_gettime;
     RunCommand.c_waitpid 42 WNOHANG; RunCommand.c_usleep 100000;
     RunCommand.c_clock_gettime;
     RunCommand.c_log LError
       "Command %s took too long. Killing it and continuing.";
     RunCommand.c_kill 42 SIGTERM; RunCommand.c_waitpid 42 WUNTRACED] = true
  ∧ existsb (closes_fd 3)
      [RunCommand.c_pipe; RunCommand.c_fork; RunCommand.c_close 4;
       RunCommand.c_clock_gettime;
       RunCommand.c_waitpid 42 WNOHANG; RunCommand.c_usleep 100000;
       RunCommand.c_clock_gettime;
       RunCommand.c_log LError
         "Command %s took too long. Killing it and continuing.";
       RunCommand.c_kill 42 SIGTERM; RunCommand.c_waitpid 42 WUNTRACED]
    = negb (existsb RunCommand.is_kill
      [RunCommand.c_pipe; RunCommand.c_fork; RunCommand.c_close 4;
       RunCommand.c_clock_gettime;
       RunCommand.c_waitpid 42 WNOHANG; RunCommand.c_usleep 100000;
       RunCommand.c_clock_gettime;
       RunCommand.c_log LError
         "Command %s took too long. Killing it and continuing.";
       RunCommand.c_kill 42 SIGTERM; RunCommand.c_waitpid 42 WUNTRACED]).
Proof.
  apply (run_command_read_end_closed_unless_killed
           RunCommand.calculate_difference_ms_spec RunCommand.accounts
           (RunCommand.cmd_as "daemon") 1000 "systemctl restart wg" 0 3 4 42
           [RunCommand.RClock (RunCommand.at_ms 0);
            RunCommand.RWaitpid 0 0; RunCommand.RClock (RunCommand.at_ms 1000);
            RunCommand.RWaitpid 42 0]
           (RunCommand.Returns 0)
           {| RunCommand.euid := 0;
              RunCommand.calls :=
                [RunCommand.c_pipe; RunCommand.c_fork; RunCommand.c_close 4;
                 RunCommand.c_clock_gettime;
                 RunCommand.c_waitpid 42 WNOHANG; RunCommand.c_usleep 100000;
                 RunCommand.c_clock_gettime;
                 RunCommand.c_log LError
                   "Command %s took too long. Killing it and continuing.";
                 RunCommand.c_kill 42 SIGTERM;
                 RunCommand.c_waitpid 42 WUNTRACED] |}).
  - reflexivity.
  - discriminate.
  - vm_compute. reflexivity.
Defined.

(** ** [log_to_file]: what a call does to the file system *)

Section LogMore.
Import LogToFile.

Lemma lookup_create_ne (p q : string) (me : Z * Z) (fs : gmap string file) :
  q ≠ p → create_if_absent p me fs !! q = fs !! q.
Proof.
  intros Hne. unfold create_if_absent.
  destruct (fs !! p); [reflexivity|]. now rewrite lookup_insert_ne.
Qed.

Lemma lookup_append_ne (p q text : string) (fs : gmap string file) :
  q ≠ p → append_to p text fs !! q = fs !! q.
Proof. intros Hne. unfold append_to. now rewrite lookup_alter_ne. Qed.

Lemma lookup_set_owner_ne (p q : string) (o : Z * Z) (fs : gmap string file) :
  q ≠ p → set_owner p o fs !! q = fs !! q.
Proof. intros Hne. unfold set_owner. now rewrite lookup_alter_ne. Qed.

Lemma lookup_create_some (p : string) (me : Z * Z) (fs : gmap string file)
    (f : file) :
  fs !! p = Some f → create_if_absent p me fs = fs.
Proof. intros H. unfold create_if_absent. now rewrite H. Qed.

Lemma lookup_append (p text : string) (fs : gmap string file) (f : file) :
  fs !! p = Some f →
  append_to p text fs !! p
  = Some {| contents := contents f +:+ text; owner := owner f |}.
Proof. intros H. unfold append_to. now rewrite lookup_alter_eq, H. Qed.

Lemma string_app_nil_r (s : string) : s +:+ EmptyString = s.
Proof.
  induction s as [|c s IH]; [reflexivity|].
  change (String c (s +:+ EmptyString) = String c s). now f_equal.
Qed.

End LogMore.

(** X11.  A call changes no file other than the one at [path], whatever
    the system answers. *)
Theorem log_to_file_frame :
  ∀ (db : gmap string passwd) (me : Z * Z) (os : LogToFile.os_answers)
    (fs : gmap string LogToFile.file) (action_log : LogToFile.action_log_t)
    (actual_line q : string),
    q ≠ LogToFile.path action_log →
    LogToFile.files (LogToFile.log_to_file db me os fs action_log actual_line).2
      !! q = fs !! q.
Proof.
  intros db me os fs action_log actual_line q Hne. unfold LogToFile.log_to_file.
  destruct (LogToFile.fopen_ok os); cbn [negb]; [|reflexivity].
  destruct (fs !! LogToFile.path action_log) as [f|] eqn:Hfs;
    destruct (LogToFile.header action_log) as [h|];
    destruct (LogToFile.username action_log) as [name|];
    try destruct (db !! name) as [pw|];
    try destruct (LogToFile.chown_ret os =? 0);
    try destruct (LogToFile.chown_ret os <? 0);
    cbn [snd LogToFile.files LogToFile.set_files LogToFile.emit];
    rewrite ?lookup_set_owner_ne, lookup_append_ne, lookup_create_ne by exact Hne;
    reflexivity.
Qed.

(** A line logged next to another file. *)
Lemma log_to_file_frame_witness :
  LogToFile.files
    (LogToFile.log_to_file LogToFile.accounts (0, 0) LogToFile.all_fine
       two_files LogToFile.daemon_log "boot").2 !! "/etc/motd"%string
  = Some {| LogToFile.contents := "hello"; LogToFile.owner := (0, 0) |}.
Proof.
  rewrite (log_to_file_frame LogToFile.accounts (0, 0) LogToFile.all_fine
             two_files LogToFile.daemon_log "boot" "/etc/motd");
    [reflexivity | discriminate].
Defined.

(** X12.  On a file that is already there, a call only appends: the old
    bytes stay, what is added is the line and a newline, or a first part of
    them when [fclose] fails, and never the header; the owner stays; the
    account database is not consulted, so that the call returns even when
    the configured owner is unknown. *)
Theorem log_to_file_existing_file :
  ∀ (db : gmap string passwd) (me : Z * Z) (os : LogToFile.os_answers)
    (fs : gmap string LogToFile.file) (action_log : LogToFile.action_log_t)
    (actual_line : string) (f : LogToFile.file),
    fs !! LogToFile.path action_log = Some f →
    let r := LogToFile.log_to_file db me os fs action_log actual_line in
    (∃ added,
        LogToFile.files r.2 !! LogToFile.path action_log
        = Some {| LogToFile.contents := LogToFile.contents f +:+ added;
                  LogToFile.owner := LogToFile.owner f |}
        ∧ String.prefix added (actual_line +:+ LF) = true
        ∧ (LogToFile.fopen_ok os = true → LogToFile.fclose_ret os = 0 →
           added = actual_line +:+ LF))
    ∧ r.1 ≠ LogToFile.Faults
    ∧ existsb is_owner_call (LogToFile.calls r.2) = false.
Proof.
  intros db me os fs action_log actual_line f Hfs r. subst r.
  unfold LogToFile.log_to_file. rewrite Hfs.
  destruct (LogToFile.fopen_ok os); cbn [negb].
  - set (written := if LogToFile.fclose_ret os =? 0
                    then EmptyString +:+ actual_line +:+ LF
                    else substring 0 (LogToFile.flushed os)
                           (EmptyString +:+ actual_line +:+ LF)).
    assert (Hw : String.prefix written (actual_line +:+ LF) = true
                 ∧ (LogToFile.fclose_ret os = 0 → written = actual_line +:+ LF)).
    { subst written. destruct (Z.eqb_spec (LogToFile.fclose_ret os) 0).
      - split; [|reflexivity].
        change (EmptyString +:+ actual_line +:+ LF) with (actual_line +:+ LF).
        rewrite <- (substring_all (String.length (actual_line +:+ LF))
                      (actual_line +:+ LF)) at 1 by lia.
        apply substring_is_prefix.
      - split; [apply substring_is_prefix | contradiction]. }
    destruct Hw as [Hpre Hall].
    destruct (LogToFile.header action_log) as [h|];
      destruct (LogToFile.username action_log) as [name|];
      cbn [fst snd LogToFile.files LogToFile.set_files LogToFile.emit
           LogToFile.calls];
      rewrite (lookup_create_some _ _ _ _ Hfs);
      (split; [exists written; split; [now apply lookup_append|]; split;
               [exact Hpre | intros _; exact Hall]
              | split; [discriminate | reflexivity]]).
  - cbn [fst snd LogToFile.files LogToFile.emit LogToFile.calls].
    split; [|split; [discriminate | reflexivity]].
    exists EmptyString. rewrite string_app_nil_r. destruct f.
    split; [exact Hfs|]. split; [|discriminate].
    destruct (actual_line +:+ LF); reflexivity.
Qed.

(** The log file is there, its configured owner is unknown, and [fclose]
    fails after three bytes. *)
Lemma log_to_file_existing_file_witness :
  (∃ added,
      LogToFile.files
        (LogToFile.log_to_file LogToFile.accounts (0, 0) close_fails
           two_files LogToFile.ghost_log "boot").2 !! "/var/log/srd.log"%string
      = Some {| LogToFile.contents := ("time,event" +:+ LF) +:+ added;
                LogToFile.owner := (2, 2) |}
      ∧ String.prefix added ("boot" +:+ LF) = true
      ∧ (LogToFile.fopen_ok close_fails = true →
         LogToFile.fclose_ret close_fails = 0 → added = "boot" +:+ LF))
  ∧ (LogToFile.log_to_file LogToFile.accounts (0, 0) close_fails
       two_files LogToFile.ghost_log "boot").1 ≠ LogToFile.Faults
  ∧ existsb is_owner_call
      (LogToFile.calls
         (LogToFile.log_to_file LogToFile.accounts (0, 0) close_fails
            two_files LogToFile.ghost_log "boot").2) = false.
Proof.
  apply (log_to_file_existing_file LogToFile.accounts (0, 0) close_fails
           two_files LogToFile.ghost_log "boot"
           {| LogToFile.contents := "time,event" +:+ LF;
              LogToFile.owner := (2, 2) |}).
  reflexivity.
Defined.

(** X13.  When the call returns, it returns 1 exactly when [fopen] gave a
    stream and [fclose] returned 0, and 0 otherwise; a failing [fopen]
    leaves the file system as it was. *)
Theorem log_to_file_return_value :
  ∀ (db : gmap string passwd) (me : Z * Z) (os : LogToFile.os_answers)
    (fs : gmap string LogToFile.file) (action_log : LogToFile.action_log_t)
    (actual_line : string) (v : Z),
    (LogToFile.log_to_file db me os fs action_log actual_line).1
    = LogToFile.Returns v →
    (v = 1 ↔ LogToFile.fopen_ok os = true ∧ LogToFile.fclose_ret os = 0)
    ∧ (v = 0 ∨ v = 1)
    ∧ (LogToFile.fopen_ok os = false →
       LogToFile.files
         (LogToFile.log_to_file db me os fs action_log actual_line).2 = fs).
Proof.
  intros db me os fs action_log actual_line v. unfold LogToFile.log_to_file.
  destruct (LogToFile.fopen_ok os); cbn [negb].
  - destruct (Z.eqb_spec (LogToFile.fclose_ret os) 0) as [Hc|Hc];
      destruct (fs !! LogToFile.path action_log) as [f|];
      destruct (LogToFile.header action_log) as [h|];
      destruct (LogToFile.username action_log) as [name|];
      try destruct (db !! name) as [pw|];
      cbn [fst]; intros H; inversion H; subst;
      (split;
       [split;
        [intros E; first [discriminate E | split; [reflexivity | assumption]]
        |intros [_ E]; first [reflexivity | contradiction]]
       |split; [auto | discriminate]]).
  - cbn [fst snd LogToFile.files LogToFile.emit]. intros H. inversion H; subst.
    split; [split; [discriminate | intros [? _]; discriminate] | auto].
Qed.

(** A call whose [fclose] fails returns 0. *)
Lemma log_to_file_return_value_witness :
  (0 = 1 ↔ LogToFile.fopen_ok close_fails = true
           ∧ LogToFile.fclose_ret close_fails = 0)
  ∧ (0 = 0 ∨ 0 = 1)
  ∧ (LogToFile.fopen_ok close_fails = false →
     LogToFile.files
       (LogToFile.log_to_file LogToFile.accounts (0, 0) close_fails
          two_files LogToFile.daemon_log "boot").2 = two_files).
Proof.
  apply (log_to_file_return_value LogToFile.accounts (0, 0) close_fails
           two_files LogToFile.daemon_log "boot" 0).
  reflexivity.
Defined.

(** X14.  A file that the call creates is owned by the caller, unless an
    owner is configured, resolves, and [chown] returns 0: then it is owned
    by that account. *)
Theorem log_to_file_owner_at_creation :
  ∀ (db : gmap string passwd) (me : Z * Z) (os : LogToFile.os_answers)
    (fs : gmap string LogToFile.file) (action_log : LogToFile.action_log_t)
    (actual_line : string),
    fs !! LogToFile.path action_log = None →
    LogToFile.fopen_ok os = true →
    LogToFile.owner
    <$> LogToFile.files
          (LogToFile.log_to_file db me os fs action_log actual_line).2
        !! LogToFile.path action_log
    = Some (match LogToFile.username action_log with
            | None => me
            | Some name =>
                match db !! name with
                | None => me
                | Some user_passwd =>
                    if LogToFile.chown_ret os =? 0
                    then (pw_uid user_passwd, pw_gid user_passwd)
                    else me
                end
            end).
Proof.
  intros db me os fs action_log actual_line Hnew Hopen.
  unfold LogToFile.log_to_file, LogToFile.create_if_absent.
  cbn [LogToFile.files]. rewrite Hnew, Hopen. cbn [negb].
  destruct (LogToFile.header action_log) as [h|];
    destruct (LogToFile.username action_log) as [name|];
    try destruct (db !! name) as [pw|];
    try destruct (LogToFile.chown_ret os =? 0);
    try destruct (LogToFile.chown_ret os <? 0);
    cbn [snd LogToFile.files LogToFile.set_files LogToFile.emit];
    unfold LogToFile.set_owner, LogToFile.append_to;
    rewrite Hnew, ?lookup_alter_eq, lookup_insert_eq; reflexivity.
Qed.

(** A new file for the account [daemon], with [chown] succeeding and with
    [chown] failing. *)
Lemma log_to_file_owner_at_creation_witness :
  LogToFile.owner
  <$> LogToFile.files
        (LogToFile.log_to_file LogToFile.accounts (0, 0) LogToFile.all_fine
           ∅ LogToFile.daemon_log "boot").2 !! "/var/log/srd.log"%string
  = Some (2, 2)
  ∧ LogToFile.owner
    <$> LogToFile.files
          (LogToFile.log_to_file LogToFile.accounts (0, 0) chown_fails
             ∅ LogToFile.daemon_log "boot").2 !! "/var/log/srd.log"%string
    = Some (0, 0).
Proof.
  split.
  - apply (log_to_file_owner_at_creation LogToFile.accounts (0, 0)
             LogToFile.all_fine ∅ LogToFile.daemon_log "boot");
      reflexivity.
  - apply (log_to_file_owner_at_creation LogToFile.accounts (0, 0)
             chown_fails ∅ LogToFile.daemon_log "boot");
      reflexivity.
Defined.

(** A new file for the account [daemon], with [chown] failing. *)
Lemma log_to_file_chown_best_effort_witness :
  (LogToFile.log_to_file LogToFile.accounts (0, 0) chown_fails ∅
     LogToFile.daemon_log "boot").1 = LogToFile.Returns 1
  ∧ last (LogToFile.calls
            (LogToFile.log_to_file LogToFile.accounts (0, 0) chown_fails ∅
               LogToFile.daemon_log "boot").2)
    = Some (LogToFile.c_log LError "Unable to chown log file %s: %s").
Proof.
  apply (log_to_file_chown_best_effort LogToFile.accounts (0, 0) chown_fails ∅
           LogToFile.daemon_log "boot" "daemon" {| pw_uid := 2; pw_gid := 2 |}).
  - reflexivity.
  - reflexivity.
  - reflexivity.
  - reflexivity.
  - reflexivity.
Defined.

(** ** [restart_system] and [restart_service] *)

Section BusFacts.
Import Bus.

Lemma length_bytes (s : string) :
  length (list_ascii_of_string s) = String.length s.
Proof. induction s as [|c s IH]; simpl; [reflexivity | now rewrite IH]. Qed.

Lemma list_ascii_app (s t : string) :
  list_ascii_of_string (s +:+ t)
  = list_ascii_of_string s ++ list_ascii_of_string t.
Proof.
  induction s as [|c s IH]; [reflexivity|].
  change (c :: list_ascii_of_string (s +:+ t)
          = c :: (list_ascii_of_string s ++ list_ascii_of_string t)).
  now f_equal.
Qed.

(** A string without terminator is read back from memory as it was
    written, whatever follows its terminator. *)
Lemma c_string_bytes (s : string) (tail : buffer) :
  nul_free s = true →
  c_string ((Some <$> (list_ascii_of_string s ++ [NUL])) ++ tail) = Some s.
Proof.
  induction s as [|c s IH]; intros Hs; [reflexivity|].
  simpl in Hs. apply andb_true_iff in Hs as [Hc Hs].
  apply negb_true_iff in Hc.
  cbn [list_ascii_of_string app fmap list_fmap c_string].
  rewrite Hc. fold (fmap (M:=list) (@Some ascii)).
  change (String c <$> c_string
            ((Some <$> (list_ascii_of_string s ++ [NUL])) ++ tail)
          = Some (String c s)).
  now rewrite IH.
Qed.

(** Memory that holds written bytes up to a terminator holds a C string. *)
Lemma c_string_total (l : list ascii) (tail : buffer) :
  is_Some (c_string ((Some <$> (l ++ [NUL])) ++ tail)).
Proof.
  induction l as [|c l IH].
  - cbn. eauto.
  - cbn [app fmap list_fmap c_string].
    destruct (Ascii.eqb c NUL); [eauto|].
    fold (fmap (M:=list) (@Some ascii)).
    change (is_Some (String c <$> c_string ((Some <$> (l ++ [NUL])) ++ tail))).
    destruct IH as [x ->]. cbn. eauto.
Qed.

(** A copy to the start of fresh memory that has room for it. *)
Lemma strcpy_at_start (p : string) (k : nat) :
  strcpy (replicate (String.length p + 1 + k) None) 0 p
  = Some ((Some <$> (list_ascii_of_string p ++ [NUL])) ++ replicate k None).
Proof.
  unfold strcpy.
  rewrite length_fmap, length_app, length_replicate, length_bytes. cbn [length].
  destruct (Z.leb_spec (0 + Z.of_nat (String.length p + 1))
              (Z.of_nat (String.length p + 1 + k))) as [_|?]; [|lia].
  cbn [andb Z.leb Z.compare Z.to_nat take Nat.add].
  rewrite drop_replicate_add. reflexivity.
Qed.

(** A copy over the terminator of the string that is there, into the room
    that was left for it. *)
Lemma strcpy_over_terminator (p n : string) :
  strcpy ((Some <$> (list_ascii_of_string p ++ [NUL]))
            ++ replicate (String.length n) None) (strlen p) n
  = Some (Some <$> (list_ascii_of_string (p +:+ n) ++ [NUL])).
Proof.
  unfold strcpy, strlen.
  rewrite !length_app, !length_fmap, !length_app, length_replicate, !length_bytes.
  cbn [length].
  destruct (Z.leb_spec 0 (Z.of_nat (String.length p))) as [_|?]; [|lia].
  destruct (Z.leb_spec
              (Z.of_nat (String.length p) + Z.of_nat (String.length n + 1))
              (Z.of_nat (String.length p + 1 + String.length n)))
    as [_|?]; [|lia].
  cbn [andb]. rewrite Nat2Z.id. f_equal.
  rewrite (fmap_app _ (list_ascii_of_string p)), <- app_assoc.
  replace (String.length p)
    with (length (Some <$> list_ascii_of_string p)) at 1
    by (now rewrite length_fmap, length_bytes).
  rewrite take_app_length.
  rewrite drop_ge
    by (rewrite !length_app, !length_fmap, length_replicate, length_bytes;
        cbn [length]; lia).
  rewrite app_nil_r, list_ascii_app, <- fmap_app, <- app_assoc. reflexivity.
Qed.

(** The two copies of lines 91-92 fit the memory of line 89 exactly, and
    leave the bytes of the prefix, those of the name and one terminator. *)
Lemma service_name_written (name : string) :
  (b ← strcpy (malloc (strlen prefix + strlen name + 1)) 0 prefix;
   b ← strcpy b (strlen prefix) name;
   c_string b)
  = c_string (Some <$> (list_ascii_of_string (prefix +:+ name) ++ [NUL])).
Proof.
  unfold malloc.
  replace (Z.to_nat (strlen prefix + strlen name + 1))
    with (String.length prefix + 1 + String.length name)%nat
    by (unfold strlen; lia).
  rewrite strcpy_at_start. cbn [mbind option_bind].
  rewrite strcpy_over_terminator. reflexivity.
Qed.

Lemma service_name_some (name : string) :
  is_Some (b ← strcpy (malloc (strlen prefix + strlen name + 1)) 0 prefix;
           b ← strcpy b (strlen prefix) name;
           c_string b).
Proof.
  rewrite service_name_written.
  rewrite <- (app_nil_r (Some <$> _)). apply c_string_total.
Qed.

Lemma nul_free_app (s t : string) :
  nul_free (s +:+ t) = nul_free s && nul_free t.
Proof.
  induction s as [|c s IH]; [reflexivity|].
  change (negb (Ascii.eqb c NUL) && nul_free (s +:+ t)
          = negb (Ascii.eqb c NUL) && nul_free s && nul_free t).
  now rewrite IH, andb_assoc.
Qed.

Lemma service_name_path (name : string) :
  nul_free name = true →
  (b ← strcpy (malloc (strlen prefix + strlen name + 1)) 0 prefix;
   b ← strcpy b (strlen prefix) name;
   c_string b)
  = Some (prefix +:+ name).
Proof.
  intros Hn. rewrite service_name_written.
  rewrite <- (app_nil_r (Some <$> _)). apply c_string_bytes.
  rewrite nul_free_app, Hn. reflexivity.
Qed.

End BusFacts.

(** X15.  For a name without terminator, the object path handed to the
    bus is the unit prefix followed by the name: the memory requested at
    line 89 holds both copies and the terminator, with no byte to spare and
    none written past its end.  The method is [Restart], with the one
    argument ["fail"]. *)
Theorem restart_service_object_path :
  ∀ (os : Bus.bus_answers) (name : string),
    nul_free name = true →
    0 ≤ Bus.open_r os →
    Bus.malloc_ok os = true →
    (Bus.restart_service os name).1 ≠ Bus.Faults
    ∧ List.filter Bus.is_method_call (Bus.restart_service os name).2
      = [Bus.c_bus_call_method "org.freedesktop.systemd1"
           ("/org/freedesktop/systemd1/unit/" +:+ name)
           "org.freedesktop.systemd1.Unit" "Restart" "s" ["fail"%string]]
    ∧ List.filter Bus.is_malloc (Bus.restart_service os name).2
      = [Bus.c_malloc
           (strlen ("/org/freedesktop/systemd1/unit/" +:+ name) + 1)].
Proof.
  intros os name Hname Hopen Hmalloc. unfold Bus.restart_service.
  destruct (Z.ltb_spec (Bus.open_r os) 0) as [?|_]; [lia|].
  rewrite Hmalloc. cbn [negb].
  rewrite (service_name_path name Hname).
  assert (Hsize : strlen Bus.prefix + strlen name + 1
                  = strlen ("/org/freedesktop/systemd1/unit/" +:+ name) + 1).
  { unfold strlen. rewrite length_append. fold Bus.prefix. lia. }
  rewrite Hsize.
  destruct (Bus.call_r os <? 0); [|destruct (Bus.read_r os <? 0)];
    (split; [discriminate | split; reflexivity]).
Qed.

(** The unit [wg-quick@wg0.service] on a bus that accepts the request. *)
Lemma restart_service_object_path_witness :
  (Bus.restart_service Bus.all_fine "wg-quick@wg0.service").1 ≠ Bus.Faults
  ∧ List.filter Bus.is_method_call
      (Bus.restart_service Bus.all_fine "wg-quick@wg0.service").2
    = [Bus.c_bus_call_method "org.freedesktop.systemd1"
         "/org/freedesktop/systemd1/unit/wg-quick@wg0.service"
         "org.freedesktop.systemd1.Unit" "Restart" "s" ["fail"%string]]
  ∧ List.filter Bus.is_malloc
      (Bus.restart_service Bus.all_fine "wg-quick@wg0.service").2
    = [Bus.c_malloc 52].
Proof.
  apply (restart_service_object_path Bus.all_fine "wg-quick@wg0.service").
  - reflexivity.
  - discriminate.
  - reflexivity.
Defined.

(** X16.  Both requests report success exactly when every step went
    through: the connection to the bus, the method call and the reading of
    the reply, and for [restart_service] the allocation of the object path,
    whatever the name.  Built with [DEBUG], [restart_system] reports
    success without touching the bus. *)
Theorem restart_result :
  ∀ (os : Bus.bus_answers) (name : string),
    Bus.restart_system true os = (Bus.Returns 1, [])
    ∧ ((Bus.restart_system false os).1 = Bus.Returns 1
       ↔ 0 ≤ Bus.open_r os ∧ 0 ≤ Bus.call_r os ∧ 0 ≤ Bus.read_r os)
    ∧ ((Bus.restart_service os name).1 = Bus.Returns 1
       ↔ 0 ≤ Bus.open_r os ∧ Bus.malloc_ok os = true
         ∧ 0 ≤ Bus.call_r os ∧ 0 ≤ Bus.read_r os).
Proof.
  intros os name. split; [reflexivity|]. split.
  - unfold Bus.restart_system, Bus.finish.
    destruct (Z.ltb_spec (Bus.open_r os) 0) as [Ho|Ho];
      [|destruct (Z.ltb_spec (Bus.call_r os) 0) as [Hc|Hc];
        [|destruct (Z.ltb_spec (Bus.read_r os) 0) as [Hr|Hr]]];
      cbn [fst];
      match goal with
      | |- context [?r >=? 0] => destruct (Z.geb_spec r 0)
      end;
      (split; [intros E; first [discriminate E | lia] | intros (? & ? & ?)];
       first [reflexivity | lia]).
  - unfold Bus.restart_service, Bus.finish.
    destruct (service_name_some name) as [service_name ->].
    destruct (Z.ltb_spec (Bus.open_r os) 0) as [Ho|Ho].
    { cbn [fst]. destruct (Z.geb_spec (Bus.open_r os) 0); try lia.
      split; [discriminate | lia]. }
    destruct (Bus.malloc_ok os); cbn [negb fst].
    2:{ split; [discriminate | intros (_ & ? & _); discriminate]. }
    destruct (Z.ltb_spec (Bus.call_r os) 0) as [Hc|Hc];
      [|destruct (Z.ltb_spec (Bus.read_r os) 0) as [Hr|Hr]];
      cbn [fst];
      match goal with
      | |- context [?r >=? 0] => destruct (Z.geb_spec r 0)
      end;
      (split; [intros E; first [discriminate E | lia] | intros (? & ? & ? & ?)];
       first [reflexivity | lia]).
Qed.

(** X17.  Whenever either request returns, the error, the reply and the
    bus are released, each once, as the last three calls; and
    [restart_service] has freed the object path as often as it allocated it. *)
Theorem restart_releases :
  ∀ (os : Bus.bus_answers) (name : string),
    (∃ pre, (Bus.restart_system false os).2
            = pre ++ [Bus.c_bus_error_free; Bus.c_bus_message_unref;
                      Bus.c_bus_unref]
            ∧ existsb Bus.is_release pre = false)
    ∧ (∀ v, (Bus.restart_service os name).1 = Bus.Returns v →
         ∃ pre, (Bus.restart_service os name).2
                = pre ++ [Bus.c_bus_error_free; Bus.c_bus_message_unref;
                          Bus.c_bus_unref]
                ∧ existsb Bus.is_release pre = false
                ∧ length (List.filter Bus.is_free pre)
                  = length (List.filter Bus.is_malloc pre)).
Proof.
  intros os name. split.
  - unfold Bus.restart_system, Bus.finish.
    destruct (Bus.open_r os <? 0);
      [|destruct (Bus.call_r os <? 0); [|destruct (Bus.read_r os <? 0)]];
      cbn [snd]; eexists; split; reflexivity.
  - intros v. unfold Bus.restart_service, Bus.finish.
    destruct (service_name_some name) as [service_name ->].
    destruct (Bus.open_r os <? 0).
    { intros _. cbn [snd]. eexists. split; [reflexivity|]. split; reflexivity. }
    destruct (Bus.malloc_ok os); cbn [negb fst]; [|discriminate].
    destruct (Bus.call_r os <? 0); [|destruct (Bus.read_r os <? 0)];
      intros _; cbn [snd]; rewrite <- ?app_assoc;
      (eexists; split; [rewrite ?app_assoc; reflexivity|]);
      split; reflexivity.
Qed.

(** X18.  No step is taken after one that failed: when the bus cannot be
    opened, no method is called and nothing is allocated; when the method
    call fails, no reply is read. *)
Theorem restart_stops_at_failure :
  ∀ (os : Bus.bus_answers) (name : string),
    (Bus.open_r os < 0 →
     existsb Bus.is_method_call (Bus.restart_system false os).2 = false
     ∧ existsb Bus.is_method_call (Bus.restart_service os name).2 = false
     ∧ existsb Bus.is_malloc (Bus.restart_service os name).2 = false)
    ∧ (Bus.call_r os < 0 →
       existsb Bus.is_message_read (Bus.restart_system false os).2 = false
       ∧ existsb Bus.is_message_read (Bus.restart_service os name).2 = false).
Proof.
  intros os name. split.
  - intros Ho. unfold Bus.restart_system, Bus.restart_service, Bus.finish.
    destruct (Z.ltb_spec (Bus.open_r os) 0) as [_|?]; [|lia].
    repeat split.
  - intros Hc. unfold Bus.restart_system, Bus.restart_service, Bus.finish.
    destruct (service_name_some name) as [service_name ->].
    destruct (Z.ltb_spec (Bus.call_r os) 0) as [_|?]; [|lia].
    destruct (Bus.open_r os <? 0); [repeat split|].
    destruct (Bus.malloc_ok os); repeat split.
Qed.

(** A bus that refuses the method call for [foo.service]. *)
Lemma restart_releases_witness :
  ∃ pre, (Bus.restart_service Bus.call_refused "foo.service").2
         = pre ++ [Bus.c_bus_error_free; Bus.c_bus_message_unref;
                   Bus.c_bus_unref]
         ∧ existsb Bus.is_release pre = false
         ∧ length (List.filter Bus.is_free pre)
           = length (List.filter Bus.is_malloc pre).
Proof.
  apply (proj2 (restart_releases Bus.call_refused "foo.service") 0).
  reflexivity.
Defined.

Lemma restart_stops_at_failure_witness :
  existsb Bus.is_message_read (Bus.restart_system false Bus.call_refused).2 = false
  ∧ existsb Bus.is_message_read
      (Bus.restart_service Bus.call_refused "foo.service").2 = false.
Proof.
  apply (proj2 (restart_stops_at_failure Bus.call_refused "foo.service")).
  reflexivity.
Defined.

(** ** The earlier [run_command] *)

Section Part000Facts.
Import RunCommand.

Variable calc : timespec → timespec → Z.

Lemma rac_no_clock (cs : list call) :
  existsb Part000.is_clock cs = false → Part000.reads_after_clock cs = false.
Proof.
  induction cs as [|c cs IH]; [reflexivity|]. simpl. intros H.
  apply orb_false_iff in H as [Hc Hcs]. rewrite Hc. simpl. exact (IH Hcs).
Qed.

Lemma rac_no_reads (cs : list call) :
  existsb is_read cs = false → Part000.reads_after_clock cs = false.
Proof.
  induction cs as [|c cs IH]; [reflexivity|]. simpl. intros H.
  apply orb_false_iff in H as [Hc Hcs]. rewrite Hcs, andb_false_r. simpl.
  exact (IH Hcs).
Qed.

Lemma rac_app (l1 l2 : list call) :
  Part000.reads_after_clock (l1 ++ l2)
  = Part000.reads_after_clock l1
    || (existsb Part000.is_clock l1 && existsb is_read l2)
    || Part000.reads_after_clock l2.
Proof.
  induction l1 as [|c l1 IH]; [reflexivity|]. simpl.
  rewrite IH, existsb_app.
  destruct (Part000.is_clock c), (existsb is_read l1), (existsb is_read l2),
    (Part000.reads_after_clock l1), (existsb Part000.is_clock l1),
    (Part000.reads_after_clock l2); reflexivity.
Qed.

(** Reading the output samples no clock. *)
Lemma await_output_calls (out_r : Z) :
  ∀ (script : list sys_result) (s : pstate) (f : pflow unit)
    (rest : list sys_result),
    Part000.await_output out_r s script = Some (f, rest) →
    ∃ s1 cs, f = Next tt s1 ∧ calls s1 = calls s ++ cs
             ∧ existsb Part000.is_clock cs = false.
Proof.
  induction script as [|r script IH]; intros s f rest H; [discriminate H|].
  destruct r; try discriminate H. cbn [Part000.await_output] in H.
  destruct (bytes_read >? 0).
  - apply IH in H as (s1 & cs & -> & Hc & Hcs).
    exists s1. eexists. split; [reflexivity|].
    rewrite Hc. cbn [calls emit]. rewrite <- !app_assoc.
    split; [reflexivity|]. rewrite !existsb_app, Hcs. reflexivity.
  - inversion H; subst. cbn [calls emit].
    eexists _, _. split; [reflexivity|]. split; reflexivity.
Qed.

(** Polling reads nothing. *)
Lemma old_wait_child_calls (pid timeout_ms : Z) (start : timespec) :
  ∀ (script : list sys_result) (s : pstate) (f : pflow Z)
    (rest : list sys_result),
    Part000.wait_child calc pid timeout_ms start s script = Some (f, rest) →
    ∃ cs, calls (state_of f) = calls s ++ cs ∧ existsb is_read cs = false.
Proof.
  intros script. remember (length script) as n eqn:Hn.
  revert script Hn.
  induction n as [n IH] using lt_wf_ind. intros script Hn s f rest H.
  destruct script as [|[| | | | |res wstatus|] script]; try discriminate H.
  cbn [Part000.wait_child] in H.
  destruct (Z.eqb_spec res 0) as [->|Hres].
  - cbn [Z.ltb Z.compare] in H.
    destruct script as [|[| | | |now| |] script]; try discriminate H.
    destruct (to_uint32 (calc start now) >=? timeout_ms).
    + destruct script as [|[| | | | |r st|] script]; try discriminate H.
      inversion H; subst. cbn [state_of calls emit].
      rewrite <- !app_assoc. eexists. split; reflexivity.
    + apply IH with (m := length script) in H; [|simpl in Hn; lia|reflexivity].
      destruct H as (cs & Hc & Hcs). rewrite Hc. cbn [calls emit].
      rewrite <- !app_assoc. eexists. split; [reflexivity|].
      rewrite !existsb_app, Hcs. reflexivity.
  - inversion H; subst. cbn [state_of calls emit].
    eexists. split; reflexivity.
Qed.

Lemma old_child_calls (db : gmap string passwd) (cmd : action_cmd_t)
    (in_r in_w out_r out_w : Z) (s : pstate)
    (script rest : list sys_result) (f : pflow unit) :
  Part000.child db cmd in_r in_w out_r out_w s script = Some (f, rest) →
  ∃ cs, calls (state_of f) = calls s ++ cs ∧ existsb is_read cs = false.
Proof.
  unfold Part000.child. intros H.
  destruct (user cmd) as [name|].
  - destruct (db !! name) as [a|].
    + destruct script as [|[| |ret| | | |] script]; try discriminate H.
      cbn [andthen] in H.
      destruct script as [|[| | |ok| | |] script]; try discriminate H.
      destruct ok, (ret =? 0); inversion H; subst;
        cbn [state_of calls emit set_euid]; rewrite <- !app_assoc;
        (eexists; split; [reflexivity | reflexivity]).
    + cbn [andthen] in H. inversion H; subst.
      cbn [state_of calls emit]. rewrite <- !app_assoc.
      eexists. split; reflexivity.
  - cbn [andthen] in H.
    destruct script as [|[| | |ok| | |] script]; try discriminate H.
    destruct ok; inversion H; subst;
      cbn [state_of calls emit]; rewrite <- ?app_assoc;
      (eexists; split; [reflexivity | reflexivity]).
Qed.

End Part000Facts.

(** X19.  The earlier [run_command] reads the child's output to its end
    before it samples the clock for the first time: in every run that ends,
    no [read] of the pipe follows a sample of the clock, so that the time
    the child takes to close its output is not measured against
    [timeout_ms]. *)
Theorem old_run_command_reads_before_clock :
  ∀ (calc : RunCommand.timespec → RunCommand.timespec → Z)
    (db : gmap string passwd) (cmd : RunCommand.action_cmd_t)
    (timeout_ms uid : Z) (script : list RunCommand.sys_result)
    (o : RunCommand.outcome) (s : RunCommand.pstate),
    Part000.run_command calc db cmd timeout_ms uid script = Some (o, s) →
    Part000.reads_after_clock (RunCommand.calls s) = false.
Proof.
  intros calc db cmd timeout_ms uid script o s H.
  unfold Part000.run_command in H.
  destruct script as [|[ret1 in_r in_w| | | | | |] script]; try discriminate H.
  destruct (negb (ret1 =? 0)); [inversion H; reflexivity|].
  destruct script as [|[ret2 out_r out_w| | | | | |] script]; try discriminate H.
  destruct (negb (ret2 =? 0)); [inversion H; reflexivity|].
  destruct script as [|[|pid| | | | |] script]; try discriminate H.
  destruct (pid <? 0); [inversion H; reflexivity|].
  destruct (pid =? 0).
  - match type of H with
    | match ?c with _ => _ end = _ => destruct c as [[fl rest]|] eqn:Hc
    end; [|discriminate H].
    apply old_child_calls in Hc as (cs & Hcalls & Hcs).
    destruct fl as [[] s1|o1 s1]; [discriminate H|].
    inversion H; subst. cbn [state_of] in Hcalls. rewrite Hcalls.
    apply rac_no_reads. rewrite existsb_app, Hcs. reflexivity.
  - unfold Part000.parent in H.
    match type of H with
    | context [Part000.await_output ?a ?b ?c] =>
        destruct (Part000.await_output a b c) as [[fl rest]|] eqn:Ha
    end; [|discriminate H].
    apply await_output_calls in Ha as (s1 & cs1 & -> & Hcalls1 & Hcs1).
    cbn [andthen] in H.
    destruct rest as [|[| | | |start| |] rest]; try discriminate H.
    match type of H with
    | context [Part000.wait_child ?a ?b ?c ?d ?e ?f] =>
        destruct (Part000.wait_child a b c d e f) as [[fl rest']|] eqn:Hw
    end; [|discriminate H].
    apply old_wait_child_calls in Hw as (cs2 & Hcalls2 & Hcs2).
    pose proof (rac_no_clock _ Hcs1) as Hr1.
    pose proof (rac_no_reads _ Hcs2) as Hr2.
    destruct fl as [res s2|o2 s2]; cbn [andthen state_of] in H, Hcalls2;
      inversion H; subst;
      cbn [RunCommand.calls RunCommand.emit] in Hcalls1, Hcalls2 |- *;
      rewrite Hcalls2, Hcalls1;
      rewrite !rac_app, !existsb_app, Hr1, Hr2, Hcs1, Hcs2; cbn;
      destruct (existsb RunCommand.is_read cs1),
               (existsb Part000.is_clock cs2); reflexivity.
Qed.

(** A child that writes two chunks and is reaped at the second poll. *)
Lemma old_run_command_reads_before_clock_witness :
  Part000.reads_after_clock
    [RunCommand.c_pipe; RunCommand.c_pipe; RunCommand.c_fork;
     RunCommand.c_close 6; RunCommand.c_close 3;
     RunCommand.c_read 5 32; RunCommand.c_log LDebug "Command output: %s";
     RunCommand.c_read 5 32; RunCommand.c_log LDebug "Command output: %s";
     RunCommand.c_read 5 32;
     RunCommand.c_clock_gettime;
     RunCommand.c_waitpid 42 WNOHANG; RunCommand.c_usleep 100;
     RunCommand.c_clock_gettime;
     RunCommand.c_waitpid 42 WNOHANG] = false.
Proof.
  apply (old_run_command_reads_before_clock
           RunCommand.calculate_difference_ms_spec RunCommand.accounts
           (RunCommand.cmd_as "daemon") 1000 0
           [RunCommand.RPipe 0 3 4; RunCommand.RPipe 0 5 6; RunCommand.RFork 42;
            RunCommand.RRead 32; RunCommand.RRead 7; RunCommand.RRead 0;
            RunCommand.RClock (RunCommand.at_ms 0);
            RunCommand.RWaitpid 0 0; RunCommand.RClock (RunCommand.at_ms 1);
            RunCommand.RWaitpid 42 0]
           (RunCommand.Returns 1)
           {| RunCommand.euid := 0;
              RunCommand.calls :=
                [RunCommand.c_pipe; RunCommand.c_pipe; RunCommand.c_fork;
                 RunCommand.c_close 6; RunCommand.c_close 3;
                 RunCommand.c_read 5 32;
                 RunCommand.c_log LDebug "Command output: %s";
                 RunCommand.c_read 5 32;
                 RunCommand.c_log LDebug "Command output: %s";
                 RunCommand.c_read 5 32;
                 RunCommand.c_clock_gettime;
                 RunCommand.c_waitpid 42 WNOHANG; RunCommand.c_usleep 100;
                 RunCommand.c_clock_gettime;
                 RunCommand.c_waitpid 42 WNOHANG] |}).
  vm_compute. reflexivity.
Defined.

Section Part000Runs.
Import RunCommand.

Variable calc : timespec → timespec → Z.
Variables (pid timeout_ms : Z) (start : timespec).



End Part000Runs.


